(** * Remediation agent: a shallow embedding of the JavaScript language
      plugin (parser, fixer, language registry) and of the dashboard
      computations, with the properties of the specification settled
      against it.

    Conventions of the embedding.
    - Python [str] and JavaScript strings are Rocq [string]s; the model covers
      ASCII text (code points below 128), which is what the test tools and
      the patterns of the plugin deal in.
    - Python [int] is [Z]; list indices follow Python (negative indices
      count from the end, out-of-range raises [IndexError]).
    - A function that can raise returns [option]; the file system is an
      explicit store threaded through the fixer.
    - JavaScript numbers are IEEE-754 binary64 values ([spec_float] with
      [prec = 53], [emax = 1024]). *)

From Stdlib Require Import ZArith Lia Ascii String List Bool.
From Stdlib Require Import Floats.SpecFloat.
From stdpp Require Import base option strings gmap.

Import ListNotations.
Local Open Scope string_scope.
Local Open Scope list_scope.
Local Open Scope Z_scope.

(** ** Python string primitives *)

Module Py.

Definition LF : ascii := "010"%char.
Definition CR : ascii := "013"%char.
Definition nl : string := String LF EmptyString.

(** [str.isspace] on one ASCII character: TAB, LF, VT, FF, CR, the four
    separators FS GS RS US, and the space. *)
Definition isspace (c : ascii) : bool :=
  let n := nat_of_ascii c in
  ((9 <=? n)%nat && (n <=? 13)%nat) || ((28 <=? n)%nat && (n <=? 32)%nat).

Definition is_upper (c : ascii) : bool :=
  let n := nat_of_ascii c in (65 <=? n)%nat && (n <=? 90)%nat.

Definition is_lower (c : ascii) : bool :=
  let n := nat_of_ascii c in (97 <=? n)%nat && (n <=? 122)%nat.

Definition is_digit (c : ascii) : bool :=
  let n := nat_of_ascii c in (48 <=? n)%nat && (n <=? 57)%nat.

Definition lower_char (c : ascii) : ascii :=
  if is_upper c then ascii_of_nat (nat_of_ascii c + 32) else c.

Definition upper_char (c : ascii) : ascii :=
  if is_lower c then ascii_of_nat (nat_of_ascii c - 32) else c.

Fixpoint smap (f : ascii -> ascii) (s : string) : string :=
  match s with
  | EmptyString => EmptyString
  | String c r => String (f c) (smap f r)
  end.

(** [s.lower()] and [s.upper()] *)
Definition lower (s : string) : string := smap lower_char s.
Definition upper (s : string) : string := smap upper_char s.

(** [s.startswith(p)] *)
Fixpoint startswith (s p : string) {struct p} : bool :=
  match p, s with
  | EmptyString, _ => true
  | String _ _, EmptyString => false
  | String a p', String b s' => Ascii.eqb a b && startswith s' p'
  end.

(** [sub in s] *)
Fixpoint contains (sub s : string) : bool :=
  startswith s sub ||
  match s with
  | EmptyString => false
  | String _ r => contains sub r
  end.

Fixpoint drop (n : nat) (s : string) : string :=
  match n, s with
  | O, _ => s
  | S _, EmptyString => EmptyString
  | S k, String _ r => drop k r
  end.

(** [s.lstrip()]: leading white space removed. *)
Fixpoint lstrip (s : string) : string :=
  match s with
  | EmptyString => EmptyString
  | String c r => if isspace c then lstrip r else s
  end.

(** [s.lstrip(ch)] for a one-character argument. *)
Fixpoint lstrip_char (ch : ascii) (s : string) : string :=
  match s with
  | EmptyString => EmptyString
  | String c r => if Ascii.eqb c ch then lstrip_char ch r else s
  end.

(** [s.rstrip()]: trailing white space removed. *)
Fixpoint rstrip (s : string) : string :=
  match s with
  | EmptyString => EmptyString
  | String c r =>
      match rstrip r with
      | EmptyString => if isspace c then EmptyString else String c EmptyString
      | r' => String c r'
      end
  end.

(** [s.endswith(p)] *)
Definition endswith (s p : string) : bool :=
  (String.length p <=? String.length s)%nat &&
  String.eqb (drop (String.length s - String.length p) s) p.

(** [s.endswith((p1, ..., pn))] with a tuple of suffixes. *)
Definition endswith_any (s : string) (ps : list string) : bool :=
  existsb (endswith s) ps.

(** [s.replace(old, new)] for a non-empty [old]: every non-overlapping
    occurrence, scanning from the left.  [fuel] bounds the scan by the
    length of the subject. *)
Fixpoint replace_fuel (fuel : nat) (old new s : string) : string :=
  match fuel with
  | O => s
  | S k =>
      match s with
      | EmptyString => EmptyString
      | String c r =>
          if startswith s old
          then new +:+ replace_fuel k old new (drop (String.length old) s)
          else String c (replace_fuel k old new r)
      end
  end.

Definition replace (s old new : string) : string :=
  replace_fuel (S (String.length s)) old new s.

(** [s.replace(old, new, 1)] for a non-empty [old]: the first occurrence
    only. *)
Fixpoint replace_first (s old new : string) : string :=
  match s with
  | EmptyString => EmptyString
  | String c r =>
      if startswith s old
      then new +:+ drop (String.length old) s
      else String c (replace_first r old new)
  end.

(** [ch * n] *)
Fixpoint repeat_char (ch : ascii) (n : nat) : string :=
  match n with
  | O => EmptyString
  | S k => String ch (repeat_char ch k)
  end.

(** Text-mode reading translates the line endings CR LF and CR to LF. *)
Fixpoint universal_newlines (s : string) : string :=
  match s with
  | EmptyString => EmptyString
  | String c r =>
      if Ascii.eqb c CR then
        match r with
        | String d r' =>
            if Ascii.eqb d LF then String LF (universal_newlines r')
            else String LF (universal_newlines r)
        | EmptyString => String LF EmptyString
        end
      else String c (universal_newlines r)
  end.

(** [f.readlines()] on translated text: the lines, each one keeping its
    terminating LF (the last line may have none). *)
Fixpoint splitlines_keep (s : string) : list string :=
  match s with
  | EmptyString => []
  | String c r =>
      if Ascii.eqb c LF then String c EmptyString :: splitlines_keep r
      else match splitlines_keep r with
           | [] => [String c EmptyString]
           | l :: ls => String c l :: ls
           end
  end.

Definition readlines (data : string) : list string :=
  splitlines_keep (universal_newlines data).

(** [f.writelines(lines)]; the line separator of the platform is LF. *)
Definition writelines (lines : list string) : string :=
  fold_right String.append EmptyString lines.

(** [s.split(sep)] for a one-character separator. *)
Fixpoint split_char (sep : ascii) (s : string) : list string :=
  match s with
  | EmptyString => [EmptyString]
  | String c r =>
      if Ascii.eqb c sep then EmptyString :: split_char sep r
      else match split_char sep r with
           | [] => [String c EmptyString]
           | l :: ls => String c l :: ls
           end
  end.

(** Python list indexing [l[i]]: a negative index counts from the end;
    [None] stands for [IndexError]. *)
Definition norm_index {A} (l : list A) (i : Z) : option nat :=
  let n := Z.of_nat (List.length l) in
  if (0 <=? i) && (i <? n) then Some (Z.to_nat i)
  else if (- n <=? i) && (i <? 0) then Some (Z.to_nat (n + i))
  else None.

Definition getitem {A} (l : list A) (i : Z) : option A :=
  match norm_index l i with
  | Some k => nth_error l k
  | None => None
  end.

(** [l[i] = v] *)
Definition setitem {A} (l : list A) (i : Z) (v : A) : option (list A) :=
  match norm_index l i with
  | Some k => Some (firstn k l ++ v :: skipn (S k) l)
  | None => None
  end.

(** [l.insert(i, v)]: the index is clamped, never an error. *)
Definition insert {A} (l : list A) (i : Z) (v : A) : list A :=
  let n := Z.of_nat (List.length l) in
  let j := if i <? 0 then Z.max 0 (n + i) else Z.min i n in
  firstn (Z.to_nat j) l ++ v :: skipn (Z.to_nat j) l.

(** [int(s)] on a string of ASCII digits, as an unbounded integer (the
    cap some interpreters put on the number of digits is not modelled). *)
Fixpoint int_digits (acc : Z) (s : string) : Z :=
  match s with
  | EmptyString => acc
  | String c r => int_digits (10 * acc + (Z.of_nat (nat_of_ascii c) - 48)) r
  end.

Definition int (s : string) : Z := int_digits 0 s.

(** [os.path.join(a, b)] of [posixpath]. *)
Definition path_join (a b : string) : string :=
  if startswith b "/" then b
  else if String.eqb a EmptyString || endswith a "/" then a +:+ b
  else a +:+ "/" +:+ b.

(** *** The shape of the lines of a text file

    What [readlines] returns: lines without CR, each but the last ending
    in its only LF, the last ending in its only LF or having none and
    being non-empty. *)

Fixpoint no_char (ch : ascii) (s : string) : bool :=
  match s with
  | EmptyString => true
  | String c r => negb (Ascii.eqb c ch) && no_char ch r
  end.

(** A terminated line: its only LF is its last character. *)
Fixpoint is_full_line (s : string) : bool :=
  match s with
  | EmptyString => false
  | String c r =>
      if Ascii.eqb c LF then String.eqb r EmptyString else is_full_line r
  end.

Definition nonempty (s : string) : bool := negb (String.eqb s EmptyString).

Record LineKind := mkKind {
  k_full : bool;      (* terminated by its only LF *)
  k_open : bool;      (* no LF at all *)
  k_no_cr : bool;     (* no CR *)
  k_nonempty : bool
}.

Definition kind (s : string) : LineKind :=
  mkKind (is_full_line s) (no_char LF s) (no_char CR s) (nonempty s).

Fixpoint ok_kinds (ks : list LineKind) : bool :=
  match ks with
  | [] => true
  | k :: rest =>
      match rest with
      | [] => (k_full k || k_open k) && k_no_cr k && k_nonempty k
      | _ :: _ => k_full k && k_no_cr k && ok_kinds rest
      end
  end.

Definition lines_ok (lines : list string) : bool := ok_kinds (map kind lines).

End Py.

(** ** Regular expressions of Python's [re], as used by the plugin

    A backtracking matcher in continuation-passing style: alternatives are
    tried in the order Python tries them (leftmost start first, a greedy
    repetition longest first, a lazy one shortest first, the branches of
    [|] left to right), so the first match found is the one [re.search]
    returns.  Patterns are given as syntax trees next to their source
    text.  The body of a repetition must consume a character on every
    round, which holds for every pattern of the plugin. *)

Module Re.

Inductive cls :=
| CChar (c : ascii)            (* one character *)
| CDigit                       (* \d *)
| CWord                        (* \w *)
| CSpace.                      (* \s *)

Inductive regex :=
| Eps                          (* the empty pattern *)
| Lit (c : ascii)              (* a literal character *)
| AnyChar                      (* .  : anything but a newline *)
| Cls (neg : bool) (items : list cls)   (* [...] and [^...] *)
| Bol                          (* ^ *)
| Cat (r1 r2 : regex)          (* r1 r2 *)
| Alt (r1 r2 : regex)          (* r1|r2 *)
| Star (greedy : bool) (r : regex)      (* r* and r*? *)
| Plus (greedy : bool) (r : regex)      (* r+ and r+? *)
| Opt (r : regex)              (* r? *)
| Group (n : nat) (r : regex). (* capturing group number n *)

(** A literal string. *)
Fixpoint lit (s : string) : regex :=
  match s with
  | EmptyString => Eps
  | String c EmptyString => Lit c
  | String c r => Cat (Lit c) (lit r)
  end.

Definition is_word (c : ascii) : bool :=
  Py.is_upper c || Py.is_lower c || Py.is_digit c || Ascii.eqb c "_".

Definition in_cls (c : ascii) (i : cls) : bool :=
  match i with
  | CChar d => Ascii.eqb c d
  | CDigit => Py.is_digit c
  | CWord => is_word c
  | CSpace => Py.isspace c
  end.

(** Membership in a set; with IGNORECASE a character matches when either
    of its cases is in the set. *)
Definition in_set (ic : bool) (items : list cls) (c : ascii) : bool :=
  existsb (in_cls c) items
  || (ic && (existsb (in_cls (Py.lower_char c)) items
             || existsb (in_cls (Py.upper_char c)) items)).

Definition chr_eq (ic : bool) (a b : ascii) : bool :=
  if ic then Ascii.eqb (Py.lower_char a) (Py.lower_char b) else Ascii.eqb a b.

Fixpoint take (n : nat) (s : string) : string :=
  match n, s with
  | O, _ => EmptyString
  | S _, EmptyString => EmptyString
  | S k, String c r => String c (take k r)
  end.

(** Captured groups, most recent binding first. *)
Definition caps := list (nat * string).

Fixpoint group (cs : caps) (n : nat) : option string :=
  match cs with
  | [] => None
  | (k, v) :: r => if Nat.eqb k n then Some v else group r n
  end.

(** A match result: the groups and the text left after the match. *)
Definition result := (caps * string)%type.
Definition cont := nat -> string -> caps -> option result.
Definition matcher := nat -> string -> caps -> cont -> option result.

Definition orelse (a b : option result) : option result :=
  match a with Some x => Some x | None => b end.

(** Repetition of [step]; every round has to shorten the subject. *)
Fixpoint star_loop (step : matcher) (greedy : bool) (fuel : nat) : matcher :=
  fun pos s cs k =>
    match fuel with
    | O => k pos s cs
    | S f =>
        let more :=
          step pos s cs (fun pos' s' cs' =>
            if (String.length s' <? String.length s)%nat
            then star_loop step greedy f pos' s' cs' k
            else None) in
        if greedy then orelse more (k pos s cs)
        else orelse (k pos s cs) more
    end.

(** [m ic r pos s cs k]: match [r] at offset [pos], where [s] is the rest
    of the subject, then continue with [k]. *)
Fixpoint m (ic : bool) (r : regex) : matcher :=
  fun pos s cs k =>
    match r with
    | Eps => k pos s cs
    | Lit c =>
        match s with
        | String d s' => if chr_eq ic c d then k (S pos) s' cs else None
        | EmptyString => None
        end
    | AnyChar =>
        match s with
        | String d s' => if Ascii.eqb d Py.LF then None else k (S pos) s' cs
        | EmptyString => None
        end
    | Cls neg items =>
        match s with
        | String d s' =>
            if xorb neg (in_set ic items d) then k (S pos) s' cs else None
        | EmptyString => None
        end
    | Bol => if Nat.eqb pos 0 then k pos s cs else None
    | Cat r1 r2 => m ic r1 pos s cs (fun pos' s' cs' => m ic r2 pos' s' cs' k)
    | Alt r1 r2 => orelse (m ic r1 pos s cs k) (m ic r2 pos s cs k)
    | Star g r1 => star_loop (m ic r1) g (S (String.length s)) pos s cs k
    | Plus g r1 =>
        m ic r1 pos s cs (fun pos' s' cs' =>
          star_loop (m ic r1) g (S (String.length s')) pos' s' cs' k)
    | Opt r1 => orelse (m ic r1 pos s cs k) (k pos s cs)
    | Group n r1 =>
        m ic r1 pos s cs (fun pos' s' cs' =>
          k pos' s' ((n, take (String.length s - String.length s') s) :: cs'))
    end.

(** A match object: the whole match is group 0. *)
Record Match := mkMatch { m_start : nat; m_groups : caps }.

Definition match_at (ic : bool) (r : regex) (pos : nat) (s : string)
  : option Match :=
  match m ic r pos s [] (fun _ s' cs => Some (cs, s')) with
  | Some (cs, s') =>
      Some (mkMatch pos
              ((0%nat, take (String.length s - String.length s') s) :: cs))
  | None => None
  end.

(** [re.search(r, s)] and [re.search(r, s, re.IGNORECASE)]: the first
    offset at which a match exists. *)
Fixpoint search_from (ic : bool) (r : regex) (pos : nat) (s : string)
  : option Match :=
  match match_at ic r pos s with
  | Some mt => Some mt
  | None =>
      match s with
      | EmptyString => None
      | String _ s' => search_from ic r (S pos) s'
      end
  end.

Definition search (ic : bool) (r : regex) (s : string) : option Match :=
  search_from ic r 0 s.

(** [match.group(n)]; a group that did not take part gives [None]. *)
Definition mgroup (mt : Match) (n : nat) : option string :=
  group (m_groups mt) n.

End Re.

(** ** Data model *)

(** Modelled from the spec: the enumeration [ErrorType] of [models.py],
    which is not among the sources ("error kind (enum: SYNTAX, LINTING,
    INDENTATION, IMPORT, LOGIC, TYPE_ERROR, UNKNOWN)"). *)
Inductive ErrorType :=
| SYNTAX | LINTING | INDENTATION | IMPORT | LOGIC | TYPE_ERROR | UNKNOWN.

(** Modelled from the spec: the record [ErrorInfo] of [models.py], which
    is not among the sources; its fields are those the parser fills in
    ([ErrorInfo(file=..., line=..., type=..., message=...)]). *)
Record ErrorInfo := mkErrorInfo {
  file : string;
  line : Z;
  type : ErrorType;
  message : string
}.

(** ** The file system seen by the fixer *)

Record File := mkFile {
  f_data : string;
  f_readable : bool;
  f_writable : bool
}.

Abbreviation FS := (gmap string File).

(** [open(path, 'r').readlines()]; [None] stands for the exception raised
    on a missing or unreadable file. *)
Definition read_lines (fs : FS) (path : string) : option (list string) :=
  match fs !! path with
  | Some f => if f_readable f then Some (Py.readlines (f_data f)) else None
  | None => None
  end.

(** [open(path, 'w').writelines(lines)]; [None] stands for the exception
    raised when the file cannot be opened for writing.  A missing file is
    created. *)
Definition write_lines (fs : FS) (path : string) (lines : list string)
  : option FS :=
  match fs !! path with
  | Some f =>
      if f_writable f
      then Some (<[path := mkFile (Py.writelines lines) (f_readable f) true]> fs)
      else None
  | None => Some (<[path := mkFile (Py.writelines lines) true true]> fs)
  end.

(** ** [javascript_fixer.py] *)

Module JavaScriptFixer.

(** Number of leading white-space characters:
    [len(line) - len(line.lstrip())]. *)
Definition indent_of (ln : string) : nat :=
  (String.length ln - String.length (Py.lstrip ln))%nat.

(** The edit of [_fix_syntax] on the lines read from the file: the
    [if]/[elif] chain between reading and writing back.  [None] is the
    [IndexError] of [lines[line_idx]]. *)
Definition syntax_edit (error : ErrorInfo) (lines : list string)
  : option (list string) :=
  let line_idx := line error - 1 in
  match Py.getitem lines line_idx with
  | None => None
  | Some ln =>
      if Py.contains "missing ;" (Py.lower (message error)) then
        if negb (Py.endswith_any (Py.rstrip ln) [";"; "{"; "}"; ","])
        then Py.setitem lines line_idx (Py.rstrip ln +:+ ";" +:+ Py.nl)
        else Some lines
      else if Py.contains "missing }" (Py.lower (message error)) then
        Some (Py.insert lines (line_idx + 1)
                (Py.repeat_char " " (indent_of ln) +:+ "}" +:+ Py.nl))
      else if Py.contains "const" ln && negb (Py.contains "=" ln) then
        Py.setitem lines line_idx (Py.replace ln "const " "let ")
      else Some lines
  end.

(** The pattern ['(\w+)' is not defined] of [_fix_type_error]. *)
Definition undefined_var_pattern : Re.regex :=
  Re.Cat (Re.Lit "'")
    (Re.Cat (Re.Group 1 (Re.Plus true (Re.Cls false [Re.CWord])))
       (Re.lit "' is not defined")).

(** [re.search(r"'(\w+)' is not defined", error.message)] and, on a
    match, [var_match.group(1)]. *)
Definition search_undefined_var (msg : string) : option string :=
  match Re.search false undefined_var_pattern msg with
  | Some mt => Re.mgroup mt 1
  | None => None
  end.

(** The edit of [_fix_type_error]. *)
Definition type_error_edit (error : ErrorInfo) (lines : list string)
  : option (list string) :=
  let line_idx := line error - 1 in
  match Py.getitem lines line_idx with
  | None => None
  | Some ln =>
      if Py.contains "cannot read property" (Py.lower (message error)) then
        if Py.contains "." ln && negb (Py.contains "?." ln)
        then Py.setitem lines line_idx (Py.replace_first ln "." "?.")
        else Some lines
      else if Py.contains "is not defined" (Py.lower (message error)) then
        match search_undefined_var (message error) with
        | Some var_name =>
            Some (Py.insert lines line_idx
                    (Py.repeat_char " " (indent_of ln)
                       +:+ "const " +:+ var_name +:+ " = null;" +:+ Py.nl))
        | None => Some lines
        end
      else Some lines
  end.

(** The edit of [_fix_import]. *)
Definition import_edit (error : ErrorInfo) (lines : list string)
  : option (list string) :=
  let line_idx := line error - 1 in
  match Py.getitem lines line_idx with
  | None => None
  | Some ln =>
      if Py.contains "import" (Py.lower ln) || Py.contains "require" ln
      then Py.setitem lines line_idx ("// " +:+ ln)
      else Some lines
  end.

(** The common frame of the three handlers: read the lines, edit, write
    back, [return True]; any exception on the way is caught and gives
    [False] with the store untouched. *)
Definition with_file (edit : ErrorInfo -> list string -> option (list string))
    (error : ErrorInfo) (fs : FS) : bool * FS :=
  match read_lines fs (file error) with
  | None => (false, fs)
  | Some lines =>
      match edit error lines with
      | None => (false, fs)
      | Some lines' =>
          match write_lines fs (file error) lines' with
          | None => (false, fs)
          | Some fs' => (true, fs')
          end
      end
  end.

Definition _fix_syntax := with_file syntax_edit.
Definition _fix_type_error := with_file type_error_edit.
Definition _fix_import := with_file import_edit.

Definition fix_error (error : ErrorInfo) (fs : FS) : bool * FS :=
  match type error with
  | SYNTAX => _fix_syntax error fs
  | TYPE_ERROR => _fix_type_error error fs
  | IMPORT => _fix_import error fs
  | _ => (false, fs)
  end.

(** Whether some rule of the handler for [error]'s kind has its condition
    satisfied by the target line [ln]: the guards of the [if]/[elif]
    chains, an inner guard included. *)
Definition rule_matches (error : ErrorInfo) (ln : string) : bool :=
  let msg := Py.lower (message error) in
  match type error with
  | SYNTAX =>
      if Py.contains "missing ;" msg
      then negb (Py.endswith_any (Py.rstrip ln) [";"; "{"; "}"; ","])
      else if Py.contains "missing }" msg then true
      else Py.contains "const" ln && negb (Py.contains "=" ln)
  | TYPE_ERROR =>
      if Py.contains "cannot read property" msg
      then Py.contains "." ln && negb (Py.contains "?." ln)
      else if Py.contains "is not defined" msg
      then match search_undefined_var (message error) with
           | Some _ => true | None => false end
      else false
  | IMPORT => Py.contains "import" (Py.lower ln) || Py.contains "require" ln
  | _ => false
  end.

End JavaScriptFixer.

(** ** [languages/__init__.py]: detection and registry *)

Module Languages.

(** The plugin classes of the registry. *)
Inductive LanguagePlugin := PythonPlugin | JavaScriptPlugin.

(** [LANGUAGE_REGISTRY] *)
Definition LANGUAGE_REGISTRY : gmap string LanguagePlugin :=
  <["python" := PythonPlugin]>
    (<["javascript" := JavaScriptPlugin]>
       (<["typescript" := JavaScriptPlugin]> ∅)).

(** The [markers] table of [detect_language], in the order of the dict
    literal, which is the order [markers.items()] iterates in. *)
Definition markers : list (string * list string) :=
  [ ("python", ["requirements.txt"; "setup.py"; "pyproject.toml"; "Pipfile"]);
    ("javascript", ["package.json"]);
    ("typescript", ["tsconfig.json"]);
    ("java", ["pom.xml"; "build.gradle"; "build.gradle.kts"]);
    ("go", ["go.mod"; "go.sum"]);
    ("rust", ["Cargo.toml"]);
    ("ruby", ["Gemfile"; "Rakefile"]);
    ("csharp", ["*.csproj"; "*.sln"]) ].

(** A repository is seen through the names of the entries of its top
    directory: that is all [os.path.exists(os.path.join(repo_path, m))] and
    [glob.glob(os.path.join(repo_path, m))] look at for these markers. *)
Definition Repo := list string.

Definition exists_in (repo : Repo) (name : string) : bool :=
  existsb (String.eqb name) repo.

(** [glob.glob] with a pattern [*suffix]: the entries ending in [suffix],
    hidden entries (a leading dot) left out. *)
Definition glob_star (repo : Repo) (suffix : string) : list string :=
  List.filter
    (fun name => Py.endswith name suffix && negb (Py.startswith name "."))
    repo.

(** One marker of the table against the repository. *)
Definition marker_present (repo : Repo) (marker_file : string) : bool :=
  if Py.contains "*" marker_file then
    match glob_star repo (Py.drop 1 marker_file) with
    | [] => false
    | _ :: _ => true
    end
  else exists_in repo marker_file.

(** The two nested loops of [detect_language]. *)
Fixpoint detect_in (repo : Repo) (table : list (string * list string))
  : string :=
  match table with
  | [] => "unknown"
  | (lang, files) :: rest =>
      if existsb (marker_present repo) files then lang
      else detect_in repo rest
  end.

Definition detect_language (repo : Repo) : string := detect_in repo markers.


(** [get_language_plugin]: the registry entry, and the Python plugin when
    there is none. *)
Definition get_language_plugin (language : string) : LanguagePlugin :=
  match LANGUAGE_REGISTRY !! language with
  | Some plugin_class => plugin_class
  | None => PythonPlugin
  end.

End Languages.

(** ** [javascript_parser.py] *)

Module JavaScriptParser.

Import Re.

(** A sequence of sub-patterns. *)
Fixpoint seq (rs : list regex) : regex :=
  match rs with
  | [] => Eps
  | [r] => r
  | r :: rest => Cat r (seq rest)
  end.

Definition digits : regex := Plus true (Cls false [CDigit]).   (* \d+ *)
Definition not_colon : regex := Plus true (Cls true [CChar ":"]). (* [^:]+ *)

(** [self.error_patterns], in the order of the dict literal. *)
Definition error_patterns : list (ErrorType * list regex) :=
  [ (SYNTAX,
      [ lit "SyntaxError";
        lit "Unexpected token";
        lit "missing )";                       (* missing \) *)
        lit "missing }";                       (* missing \} *)
        lit "missing ;";
        lit "Unexpected identifier" ]);
    (TYPE_ERROR,
      [ lit "TypeError";
        (* Cannot read property.*of undefined *)
        seq [lit "Cannot read property"; Star true AnyChar; lit "of undefined"];
        lit "Cannot read properties of null";
        lit "is not a function";
        lit "is not defined" ]);
    (IMPORT,
      [ lit "Cannot find module";
        lit "Module not found";
        lit "Failed to resolve";
        lit "Cannot resolve module" ]);
    (LOGIC,
      [ lit "ReferenceError";
        lit "is not defined";
        lit "RangeError";
        lit "Maximum call stack" ]) ].

(** [self.file_line_patterns] *)
Definition file_line_patterns : list regex :=
  [ (* at .*?\(([^:]+):(\d+):(\d+)\) *)
    seq [lit "at "; Star false AnyChar; Lit "(";
         Group 1 not_colon; Lit ":"; Group 2 digits; Lit ":"; Group 3 digits;
         Lit ")"];
    (* ^\s*([/\\]?[\w/\\.-]+\.(?:js|ts|jsx|tsx)):(\d+):(\d+) *)
    seq [Bol; Star true (Cls false [CSpace]);
         Group 1
           (seq [Opt (Cls false [CChar "/"; CChar "\"]);
                 Plus true (Cls false [CWord; CChar "/"; CChar "\"; CChar ".";
                                       CChar "-"]);
                 Lit ".";
                 Alt (lit "js") (Alt (lit "ts") (Alt (lit "jsx") (lit "tsx")))]);
         Lit ":"; Group 2 digits; Lit ":"; Group 3 digits];
    (* Error in ([^:]+):(\d+) *)
    seq [lit "Error in "; Group 1 not_colon; Lit ":"; Group 2 digits] ].

(** [match.group(n)] for a group that takes part in every match of its
    pattern (groups 1 and 2 of the locator patterns, group 0 always). *)
Definition group_text (mt : Match) (n : nat) : string :=
  match mgroup mt n with
  | Some t => t
  | None => EmptyString
  end.

(** ['\n'.join(context)] *)
Fixpoint join_lines (context : list string) : string :=
  match context with
  | [] => EmptyString
  | [l] => l
  | l :: rest => l +:+ Py.nl +:+ join_lines rest
  end.

(** The inner loop of [_identify_error] over the patterns of one kind. *)
Fixpoint first_hit (patterns : list regex) (combined : string)
  : option string :=
  match patterns with
  | [] => None
  | p :: rest =>
      match search true p combined with
      | Some mt => Some (group_text mt 0)
      | None => first_hit rest combined
      end
  end.

Fixpoint identify_in (table : list (ErrorType * list regex))
    (combined : string) : ErrorType * string :=
  match table with
  | [] => (UNKNOWN, "Unknown error")
  | (error_type, patterns) :: rest =>
      match first_hit patterns combined with
      | Some msg => (error_type, msg)
      | None => identify_in rest combined
      end
  end.

Definition _identify_error (ln : string) (context : list string)
  : ErrorType * string :=
  identify_in error_patterns (join_lines context).

(** The conversion of container paths ("Convert paths if needed").  The
    test [if repo_path] fails on [None] and on the empty string. *)
Definition convert_path (repo_path : option string) (current_file : string)
  : string :=
  if Py.startswith current_file "/workspace" then
    match repo_path with
    | Some p =>
        if String.eqb p EmptyString then current_file
        else
          let relative :=
            Py.lstrip_char "/" (Py.drop (String.length "/workspace") current_file) in
          Py.path_join p relative
    | None => current_file
    end
  else current_file.

(** The loop over [self.file_line_patterns] for one output line; [context]
    is [lines[i:min(i+5, len(lines))]].  [continue] goes on with the next
    pattern, [break] ends the loop.  The test [if error_type] holds for
    every kind (UNKNOWN records are reported like the others), so the
    record is always appended. *)
Fixpoint scan_patterns (patterns : list regex) (repo_path : option string)
    (ln : string) (context : list string) : option ErrorInfo :=
  match patterns with
  | [] => None
  | pattern :: rest =>
      match search false pattern ln with
      | None => scan_patterns rest repo_path ln context
      | Some mt =>
          let current_file := convert_path repo_path (group_text mt 1) in
          let current_line := Py.int (group_text mt 2) in
          if Py.contains "node_modules" current_file
          then scan_patterns rest repo_path ln context
          else
            let '(error_type, msg) := _identify_error ln context in
            Some (mkErrorInfo current_file current_line error_type msg)
      end
  end.

(** The loop over the lines; the argument is [lines[i:]], whose first five
    entries are the context of line [i]. *)
Fixpoint scan_lines (repo_path : option string) (lines : list string)
  : list ErrorInfo :=
  match lines with
  | [] => []
  | ln :: rest =>
      match scan_patterns file_line_patterns repo_path ln (firstn 5 lines) with
      | Some e => e :: scan_lines repo_path rest
      | None => scan_lines repo_path rest
      end
  end.

Definition parse_errors (test_output : string) (repo_path : option string)
  : list ErrorInfo :=
  scan_lines repo_path (Py.split_char Py.LF test_output).





End JavaScriptParser.

(** ** The dashboard ([frontend/src/pages]) *)

(** JavaScript string primitives on ASCII text. *)
Module Js.

Definition toUpperCase (s : string) : string := Py.upper s.

(** The class [\s] of JavaScript regular expressions, ASCII part: TAB, LF,
    VT, FF, CR and the space. *)
Definition is_white (c : ascii) : bool :=
  let n := nat_of_ascii c in
  ((9 <=? n)%nat && (n <=? 13)%nat) || (n =? 32)%nat.

(** [s.replace(/\s/g, '_')]: every white-space character becomes an
    underscore. *)
Definition replace_white (s : string) : string :=
  Py.smap (fun c => if is_white c then "_"%char else c) s.

(** Truth value of a string. *)
Definition truthy (s : string) : bool := negb (String.eqb s EmptyString).

(** *** Numbers: IEEE-754 binary64 *)

Definition prec : Z := 53.
Definition emax : Z := 1024.

Definition number := spec_float.

(** The number denoted by an integer literal or an integer of a JSON
    document. *)
Definition of_Z (n : Z) : number := binary_normalize prec emax n 0 false.

Definition div (x y : number) : number := SFdiv prec emax x y.
Definition mul (x y : number) : number := SFmul prec emax x y.

(** [x > y] *)
Definition gt (x y : number) : bool := SFltb y x.

(** [Math.round(x)]: the nearest integer, a tie going towards plus
    infinity; NaN, the infinities and the zeros are returned as they are.
    A finite [x] with a negative exponent is [±m * 2^e]: the result is
    [floor(x + 1/2)], computed exactly, with the sign of [x] kept on a
    zero result. *)
Definition Math_round (x : number) : number :=
  match x with
  | S754_finite s mant e =>
      if 0 <=? e then x
      else
        let sm := if s then Z.neg mant else Z.pos mant in
        let n := (2 * sm + 2 ^ (- e)) / 2 ^ (1 - e) in
        if n =? 0 then S754_zero s else of_Z n
  | _ => x
  end.

End Js.

(** [LoginPage.jsx]: the branch preview. *)
Module LoginPage.

(** The template literal of the preview:
    [`${team.toUpperCase().replace(/\s/g, '_')}_${leader.toUpperCase().replace(/\s/g, '_')}_AI_FIX`] *)
Definition branchName (team leader : string) : string :=
  Js.replace_white (Js.toUpperCase team) +:+ "_"
    +:+ Js.replace_white (Js.toUpperCase leader) +:+ "_AI_FIX".

(** The preview shown under the form: the template once both fields are
    filled in, a placeholder before. *)
Definition branchPreview (team leader : string) : string :=
  if Js.truthy team && Js.truthy leader then branchName team leader
  else "TEAM_LEADER_AI_FIX".

(** The naming rule in the words of the specification: upper case, every
    run of white space collapsed to one underscore, the two parts and the
    suffix joined by underscores. *)
Fixpoint collapse_white (s : string) : string :=
  match s with
  | EmptyString => EmptyString
  | String c r =>
      if Js.is_white c then
        match r with
        | String d _ =>
            if Js.is_white d then collapse_white r
            else String "_" (collapse_white r)
        | EmptyString => String "_" EmptyString
        end
      else String c (collapse_white r)
  end.

Definition branchName_spec (team leader : string) : string :=
  collapse_white (Js.toUpperCase team) +:+ "_"
    +:+ collapse_white (Js.toUpperCase leader) +:+ "_AI_FIX".

(** No two adjacent white-space characters. *)
Fixpoint single_spaced (s : string) : bool :=
  match s with
  | EmptyString => true
  | String c r =>
      match r with
      | String d _ => negb (Js.is_white c && Js.is_white d) && single_spaced r
      | EmptyString => true
      end
  end.

End LoginPage.

(** ** The git pipeline: the name of the branch *)

Module GitPipeline.

(** White space: TAB, LF, VT, FF, CR and the space. *)
Definition is_white (c : ascii) : bool := Js.is_white c.

(** Modelled from the spec: the normalisation of one identifier in the
    branch-name function of the git pipeline ([git_utils.py]), which is
    not among the sources ("uppercase, whitespace collapsed to a single
    separator"; "uppercased, spaces collapsed to [_]"): upper case, and
    one underscore for each run of white space. *)
Fixpoint collapse (s : string) : string :=
  match s with
  | EmptyString => EmptyString
  | String c r =>
      if is_white c then
        match r with
        | String d _ =>
            if is_white d then collapse r else String "_" (collapse r)
        | EmptyString => String "_" EmptyString
        end
      else String c (collapse r)
  end.

Definition normalise (s : string) : string := collapse (Py.upper s).

(** Modelled from the spec: [branchName(team, leader)] of the git
    pipeline ([git_utils.py]), which is not among the sources ("joined
    with the literal suffix marking an automated fix branch";
    "[{TEAM}_{LEADER}_AI_FIX]"). *)
Definition branchName (team leader : string) : string :=
  normalise team +:+ "_" +:+ normalise leader +:+ "_AI_FIX".

(** *** The rule in the words of the claim *)

Fixpoint no_white (s : string) : bool :=
  match s with
  | EmptyString => true
  | String c r => negb (is_white c) && no_white r
  end.

Fixpoint all_white (s : string) : bool :=
  match s with
  | EmptyString => true
  | String c r => is_white c && all_white r
  end.

Definition starts_white (s : string) : bool :=
  match s with
  | EmptyString => false
  | String c _ => is_white c
  end.

Fixpoint ends_white (s : string) : bool :=
  match s with
  | EmptyString => false
  | String c EmptyString => is_white c
  | String _ r => ends_white r
  end.

(** [Normalised s t]: [t] is [s] "uppercased with whitespace collapsed to
    a single [_] separator".  A text without white space is put in upper
    case; a text cut at a whole run of white space (a run that is neither
    preceded nor followed by more white space) gives the two sides, each
    normalised, with one underscore for the run. *)
Inductive Normalised : string -> string -> Prop :=
| N_word w :
    no_white w = true -> Normalised w (Py.upper w)
| N_run a ws b a' b' :
    ws <> EmptyString -> all_white ws = true ->
    ends_white a = false -> starts_white b = false ->
    Normalised a a' -> Normalised b b' ->
    Normalised (a +:+ ws +:+ b) (a' +:+ "_" +:+ b').

End GitPipeline.

(** [ResultsPage.jsx]: the Success Rate card. *)
Module ResultsPage.

Import Js.

(** The fields of the run object the card reads. *)
Record Run := mkRun {
  total_failures : number;
  total_fixes : number;
  status : string
}.

(** Evaluation that records the denominator of every division it
    performs, in order. *)
Definition Eval (A : Type) : Type := (A * list number)%type.

Definition ret {A} (a : A) : Eval A := (a, []).

Definition bind {A B} (x : Eval A) (f : A -> Eval B) : Eval B :=
  let '(a, d1) := x in let '(b, d2) := f a in (b, d1 ++ d2).

Definition divide (x y : number) : Eval number := (div x y, [y]).

(** [run.total_failures > 0
       ? Math.round((run.total_fixes / run.total_failures) * 100)
       : 0] *)
Definition success_rate_eval (run : Run) : Eval number :=
  if gt (total_failures run) (of_Z 0)
  then bind (divide (total_fixes run) (total_failures run))
            (fun q => ret (Math_round (mul q (of_Z 100))))
  else ret (of_Z 0).

Definition success_rate (run : Run) : number := fst (success_rate_eval run).

Definition is_zero (x : number) : bool :=
  match x with S754_zero _ => true | _ => false end.

(** The rate in the words of the claim, on integer counts and in exact
    arithmetic: [100 * fixes / failures] rounded to the nearest integer, a
    tie going up. *)
Definition success_rate_spec (fixes failures : Z) : Z :=
  if 0 <? failures then (2 * (100 * fixes) + failures) / (2 * failures)
  else 0.

(** The integer a number stands for, if it is one. *)
Definition to_Z (x : number) : option Z :=
  match x with
  | S754_zero _ => Some 0
  | S754_finite s mant e =>
      let sm := if s then Z.neg mant else Z.pos mant in
      if 0 <=? e then Some (sm * 2 ^ e)
      else if sm mod 2 ^ (- e) =? 0 then Some (sm / 2 ^ (- e)) else None
  | _ => None
  end.

(** The card shows the exactly rounded percentage or one less. *)
Definition within_one (fixes failures : Z) : bool :=
  match to_Z (success_rate (mkRun (of_Z failures) (of_Z fixes) EmptyString)) with
  | Some shown =>
      (shown =? success_rate_spec fixes failures)
      || (shown =? success_rate_spec fixes failures - 1)
  | None => false
  end.

(** [within_one] on every pair [0 <= fixes <= failures], [1 <= failures <= n]. *)
Definition within_one_upto (n : nat) : bool :=
  forallb (fun failures =>
             forallb (fun fixes => within_one (Z.of_nat fixes) (Z.of_nat failures))
                     (List.seq 0 (S failures)))
          (List.seq 1 n).

(** The same formula evaluated in JavaScript as it is written in the
    claim: [Math.round(100 * fixes / failures)]. *)
Definition success_rate_reordered (run : Run) : number :=
  if gt (total_failures run) (of_Z 0)
  then Math_round (div (mul (of_Z 100) (total_fixes run)) (total_failures run))
  else of_Z 0.

End ResultsPage.

(** ** The remediation orchestrator

    The orchestrator ([docker_runner.py]) is not among the sources; only
    its use of the language plugin is shown.  The loop below follows the
    state machine of the specification. *)

Module Orchestrator.

Inductive State :=
| INIT | DETECTING | TESTING | PARSING | FIXING | COMMITTING | PUSHING | DONE
| ABORTED.

Definition State_eq_dec (a b : State) : {a = b} + {a <> b}.
Proof. decide equality. Defined.

Inductive Status := PASSED | PARTIAL | FAILED.

Inductive FixStatus := Fixed | Unfixed.

Section Loop.

(** The working copy, the captured output of a test run and the error
    records are whatever the collaborators make them. *)
Variables Tree Output Error : Type.

Record FixRecord := mkFixRecord {
  fr_error : Error;
  fr_status : FixStatus
}.

Record RunResult := mkRunResult {
  iterations : nat;
  final_errors : nat;     (* records of the last parse *)
  total_fixes : nat;      (* Fixed records, all iterations *)
  fixes : list FixRecord; (* every record, in order *)
  status : Status
}.

(** The collaborators, called as pure services.  [None] is an
    infrastructure-level failure. *)
Record Services := mkServices {
  detect : Tree -> option unit;
  execute : Tree -> option Output;
  parse : Output -> list Error;
  apply_fix : Tree -> Error -> FixStatus * Tree;
  push : Tree -> bool
}.

Variable svc : Services.

Inductive Outcome :=
| InfrastructureError
| PublishError (r : RunResult)
| Finished (r : RunResult).

Record Report := mkReport {
  trace : list State;
  outcome : Outcome
}.

(** Modelled from the spec: the status derivation of the orchestrator,
    which is not among the sources ("PASSED if the final parse found zero
    errors; FAILED if zero fixes were ever applied across all iterations;
    PARTIAL otherwise"). *)
Definition derive_status (final_error_count cumulative_fixes : nat) : Status :=
  if Nat.eqb final_error_count 0 then PASSED
  else if Nat.eqb cumulative_fixes 0 then FAILED
  else PARTIAL.

(** Modelled from the spec: FIXING and COMMITTING of one iteration in the
    orchestrator, which is not among the sources: one fix record per error
    record of the parse, in order; a Fixed record is committed (the commit
    leaves the files as the fix made them). *)
Fixpoint fix_all (tree : Tree) (errors : list Error)
  : list FixRecord * Tree :=
  match errors with
  | [] => ([], tree)
  | e :: rest =>
      let '(st, tree1) := apply_fix svc tree e in
      let '(records, tree2) := fix_all tree1 rest in
      (mkFixRecord e st :: records, tree2)
  end.

Definition is_fixed (r : FixRecord) : bool :=
  match fr_status r with Fixed => true | Unfixed => false end.

Definition count_fixed (records : list FixRecord) : nat :=
  List.length (filter is_fixed records).

(** The state carried around the loop. *)
Record Acc := mkAcc {
  a_tree : Tree;
  a_iterations : nat;
  a_final_errors : nat;
  a_total_fixes : nat;
  a_fixes : list FixRecord;
  a_trace : list State       (* most recent state first *)
}.

(** Modelled from the spec: PUSHING in the orchestrator, which is not
    among the sources: once, after the loop, whatever the status; a failed
    push gives the result back with the status downgraded. *)
Definition publish (a : Acc) (st : Status) : Report :=
  let r := mkRunResult (a_iterations a) (a_final_errors a) (a_total_fixes a)
                       (a_fixes a) st in
  if push svc (a_tree a)
  then mkReport (rev (DONE :: PUSHING :: a_trace a)) (Finished r)
  else mkReport (rev (ABORTED :: PUSHING :: a_trace a))
         (PublishError
            (mkRunResult (iterations r) (final_errors r) (total_fixes r)
                         (fixes r) FAILED)).

(** Modelled from the spec: the retry loop of the orchestrator, which is
    not among the sources.  [budget] is what is left of the maximum
    iteration count; each round is one TESTING, PARSING, FIXING,
    COMMITTING cycle.  The loop ends when the parse finds no error
    (PASSED at once), when the budget is used up, or when a round fixes
    nothing while errors remain; an infrastructure failure aborts. *)
Fixpoint loop (budget : nat) (a : Acc) : Report :=
  match budget with
  | O => publish a (derive_status (a_final_errors a) (a_total_fixes a))
  | S budget' =>
      match execute svc (a_tree a) with
      | None => mkReport (rev (ABORTED :: TESTING :: a_trace a))
                         InfrastructureError
      | Some out =>
          let errors := parse svc out in
          let tr := PARSING :: TESTING :: a_trace a in
          match errors with
          | [] =>
              publish (mkAcc (a_tree a) (S (a_iterations a)) 0
                             (a_total_fixes a) (a_fixes a) tr) PASSED
          | _ :: _ =>
              let '(records, tree') := fix_all (a_tree a) errors in
              let a' := mkAcc tree' (S (a_iterations a)) (List.length errors)
                              (a_total_fixes a + count_fixed records)
                              (a_fixes a ++ records)
                              (COMMITTING :: FIXING :: tr) in
              if Nat.eqb (count_fixed records) 0
              then publish a' (derive_status (a_final_errors a')
                                             (a_total_fixes a'))
              else loop budget' a'
          end
      end
  end.

(** Modelled from the spec: the entry point [runRemediation] of the
    orchestrator, which is not among the sources, from the checked-out
    working copy on. *)
Definition runRemediation (tree : Tree) (maxRetries : nat) : Report :=
  match detect svc tree with
  | None => mkReport [INIT; DETECTING; ABORTED] InfrastructureError
  | Some _ => loop maxRetries (mkAcc tree 0 0 0 [] [DETECTING; INIT])
  end.

(** The result a caller receives, if any. *)
Definition result_of (o : Outcome) : option RunResult :=
  match o with
  | InfrastructureError => None
  | PublishError r => Some r
  | Finished r => Some r
  end.

Definition cycles (t : list State) : nat := count_occ State_eq_dec t TESTING.

(** *** What a run does, round by round

    The rounds of a run read off the collaborators alone, without the
    bookkeeping of the loop: the results of the loop are compared with
    them. *)

(** The working copy after [k] rounds of testing, parsing and fixing;
    [None] when a test run of these rounds fails to execute. *)
Fixpoint tree_after (k : nat) (tree : Tree) : option Tree :=
  match k with
  | O => Some tree
  | S k' =>
      match tree_after k' tree with
      | Some t =>
          match execute svc t with
          | Some out => Some (snd (fix_all t (parse svc out)))
          | None => None
          end
      | None => None
      end
  end.

(** The error records the parse of round [k + 1] finds. *)
Definition parse_of_round (k : nat) (tree : Tree) : option (list Error) :=
  match tree_after k tree with
  | Some t =>
      match execute svc t with
      | Some out => Some (parse svc out)
      | None => None
      end
  | None => None
  end.

(** The fix records of round [k + 1]. *)
Definition records_of_round (k : nat) (tree : Tree) : list FixRecord :=
  match tree_after k tree with
  | Some t =>
      match execute svc t with
      | Some out => fst (fix_all t (parse svc out))
      | None => []
      end
  | None => []
  end.

(** The fix records of the first [n] rounds, in order. *)
Fixpoint records_upto (n : nat) (tree : Tree) : list FixRecord :=
  match n with
  | O => []
  | S k => records_upto k tree ++ records_of_round k tree
  end.

Definition FixStatus_eq_dec (a b : FixStatus) : {a = b} + {a <> b}.
Proof. decide equality. Defined.

(** How many of the records say Fixed. *)
Definition fixed_records (records : list FixRecord) : nat :=
  count_occ FixStatus_eq_dec (map fr_status records) Fixed.

End Loop.

End Orchestrator.

(** ** The use of the plugin by the runner ("Update DockerRunner to use
       Language Plugins") *)

Module DockerRunner.

Import Languages.

Section Run.

(** The Python plugin wraps [parser.py] and [fixer.py], which are not among
    the sources: its parser and fixer are parameters. *)
Variable python_parse_errors : string -> option string -> list ErrorInfo.
Variable python_fix_error : ErrorInfo -> FS -> bool * FS.

(** [plugin.get_parser().parse_errors] *)
Definition get_parser (plugin : LanguagePlugin)
  : string -> option string -> list ErrorInfo :=
  match plugin with
  | PythonPlugin => python_parse_errors
  | JavaScriptPlugin => JavaScriptParser.parse_errors
  end.

(** [plugin.get_fixer().fix_error] *)
Definition get_fixer (plugin : LanguagePlugin) : ErrorInfo -> FS -> bool * FS :=
  match plugin with
  | PythonPlugin => python_fix_error
  | JavaScriptPlugin => JavaScriptFixer.fix_error
  end.

(** [for error in errors: fixer.fix_error(error)], with the calls made,
    in order, and what each returned. *)
Fixpoint fix_each (fixer : ErrorInfo -> FS -> bool * FS)
    (errors : list ErrorInfo) (fs : FS) : list (ErrorInfo * bool) * FS :=
  match errors with
  | [] => ([], fs)
  | error :: rest =>
      let '(ok, fs1) := fixer error fs in
      let '(calls, fs2) := fix_each fixer rest fs1 in
      ((error, ok) :: calls, fs2)
  end.

Record RunLog := mkRunLog {
  language : string;
  language_plugin : LanguagePlugin;
  fix_calls : list (ErrorInfo * bool);
  store : FS
}.

(** [run]: [repo] is the listing of the checked-out directory [repo_path],
    [output] what the test run in the container printed. *)
Definition run (repo : Repo) (repo_path : string) (output : string) (fs : FS)
  : RunLog :=
  let language := detect_language repo in
  let language_plugin := get_language_plugin language in
  let errors := get_parser language_plugin output (Some repo_path) in
  let '(calls, fs') := fix_each (get_fixer language_plugin) errors fs in
  mkRunLog language language_plugin calls fs'.

End Run.

End DockerRunner.

(** ** What a pattern matches

    A declarative reading of the patterns, against which the matcher is
    checked: [Matches ic r pos w c] says that the text [w], found at offset
    [pos] of the subject, is matched by [r], the groups taking the texts
    [c] (most recent first). *)

Module ReSem.

Import Re.

Inductive Matches (ic : bool) : regex -> nat -> string -> caps -> Prop :=
| M_Eps pos : Matches ic Eps pos EmptyString []
| M_Lit c d pos :
    chr_eq ic c d = true -> Matches ic (Lit c) pos (String d EmptyString) []
| M_Any d pos :
    Ascii.eqb d Py.LF = false ->
    Matches ic AnyChar pos (String d EmptyString) []
| M_Cls neg items d pos :
    xorb neg (in_set ic items d) = true ->
    Matches ic (Cls neg items) pos (String d EmptyString) []
| M_Bol : Matches ic Bol 0 EmptyString []
| M_Cat r1 r2 pos w1 w2 c1 c2 :
    Matches ic r1 pos w1 c1 ->
    Matches ic r2 (pos + String.length w1) w2 c2 ->
    Matches ic (Cat r1 r2) pos (w1 +:+ w2) (c2 ++ c1)
| M_AltL r1 r2 pos w c :
    Matches ic r1 pos w c -> Matches ic (Alt r1 r2) pos w c
| M_AltR r1 r2 pos w c :
    Matches ic r2 pos w c -> Matches ic (Alt r1 r2) pos w c
| M_Star0 g r pos : Matches ic (Star g r) pos EmptyString []
| M_StarS g r pos w1 w2 c1 c2 :
    w1 <> EmptyString ->
    Matches ic r pos w1 c1 ->
    Matches ic (Star g r) (pos + String.length w1) w2 c2 ->
    Matches ic (Star g r) pos (w1 +:+ w2) (c2 ++ c1)
| M_Plus g r pos w1 w2 c1 c2 :
    Matches ic r pos w1 c1 ->
    Matches ic (Star g r) (pos + String.length w1) w2 c2 ->
    Matches ic (Plus g r) pos (w1 +:+ w2) (c2 ++ c1)
| M_OptS r pos w c :
    Matches ic r pos w c -> Matches ic (Opt r) pos w c
| M_Opt0 r pos : Matches ic (Opt r) pos EmptyString []
| M_Group n r pos w c :
    Matches ic r pos w c -> Matches ic (Group n r) pos w ((n, w) :: c).

(** Whether a pattern has a capturing group. *)
Fixpoint has_group (r : regex) : bool :=
  match r with
  | Eps | Lit _ | AnyChar | Cls _ _ | Bol => false
  | Cat r1 r2 | Alt r1 r2 => has_group r1 || has_group r2
  | Star _ r1 | Plus _ r1 | Opt r1 => has_group r1
  | Group _ _ => true
  end.

(** The texts a pattern can match all contain the character [ch]. *)
Fixpoint needs_char (ch : ascii) (r : regex) : bool :=
  match r with
  | Lit c => Ascii.eqb c ch
  | Cat r1 r2 => needs_char ch r1 || needs_char ch r2
  | Alt r1 r2 => needs_char ch r1 && needs_char ch r2
  | Plus _ r1 | Group _ r1 => needs_char ch r1
  | _ => false
  end.

(** Every character of a string passes a test. *)
Fixpoint all_chars (f : ascii -> bool) (s : string) : bool :=
  match s with
  | EmptyString => true
  | String c r => f c && all_chars f r
  end.

(** No text a pattern can match has the character [ch], with or without
    [re.IGNORECASE]: the pattern is built from literal characters that
    differ from [ch] even when case is ignored. *)
Fixpoint avoids_char (ch : ascii) (r : regex) : bool :=
  match r with
  | Eps | Bol => true
  | Lit c => negb (Ascii.eqb (Py.lower_char c) (Py.lower_char ch))
  | AnyChar | Cls _ _ => false
  | Cat r1 r2 | Alt r1 r2 => avoids_char ch r1 && avoids_char ch r2
  | Star _ r1 | Plus _ r1 | Opt r1 | Group _ r1 => avoids_char ch r1
  end.

(** What it is for one matcher to find only what [r] matches: a result
    of [step] splits the subject into a text matched by [r] and the rest
    handed to the continuation. *)
Definition sound_for (ic : bool) (r : regex) (step : matcher) : Prop :=
  forall pos s cs (k : cont) res,
    step pos s cs k = Some res ->
    exists w s' c,
      s = w +:+ s' /\ Matches ic r pos w c /\
      k (pos + String.length w)%nat s' (c ++ cs) = Some res.

End ReSem.

(** ** Shapes of an edit of the lines of a file *)

Module Edits.

(** [lines'] is [lines] with the line at position [k] replaced. *)
Definition replaces_line (k : nat) (lines lines' : list string) : Prop :=
  exists old new,
    nth_error lines k = Some old /\
    lines' = firstn k lines ++ new :: skipn (S k) lines.

(** [lines'] is [lines] with one line put in at position [k]. *)
Definition inserts_line (k : nat) (lines lines' : list string) : Prop :=
  (k <= List.length lines)%nat /\
  exists new, lines' = firstn k lines ++ new :: skipn k lines.

(** An edit that leaves the lines alone, replaces the line the record
    points at, or puts one line in. *)
Definition local_shape (error : ErrorInfo) (lines lines' : list string) : Prop :=
  lines' = lines \/
  (exists k, Py.norm_index lines (line error - 1) = Some k /\
             replaces_line k lines lines') \/
  (exists k, inserts_line k lines lines').

(** The record [error] with another line number. *)
Definition at_line (error : ErrorInfo) (n : Z) : ErrorInfo :=
  mkErrorInfo (file error) n (type error) (message error).

End Edits.

(** ** The live progress log ([frontend/src/hooks/useAgentProgress.js]) *)

Module UseAgentProgress.

(** What [JSON.parse(event.data)] gives, as far as the hook reads it.  A
    field that is absent reads as [undefined], here [None]; [message] and
    [timestamp] are JSON strings, on which [===] is equality of the
    texts. *)
Record Progress := mkProgress {
  status : option string;
  message : option string;
  timestamp : option string
}.

(** The state of the hook. *)
Record Hook := mkHook {
  progress : list Progress;
  isConnected : bool;
  currentStatus : option string
}.

(** [useState([])], [useState(false)], [useState('')] *)
Definition initial : Hook := mkHook [] false (Some EmptyString).

(** [item.message === data.message && item.timestamp === data.timestamp] *)
Definition same_entry (data item : Progress) : bool :=
  bool_decide (message item = message data)
  && bool_decide (timestamp item = timestamp data).

(** The updater passed to [setProgress]. *)
Definition add_progress (data : Progress) (prev : list Progress)
  : list Progress :=
  let isDuplicate := existsb (same_entry data) prev in
  if isDuplicate then prev else prev ++ [data].

(** What can happen to the hook: the callbacks of the socket, [onmessage]
    with the parsed message or with [None] when [JSON.parse] throws (the
    [catch] only logs), and the [clearProgress] it returns. *)
Inductive Event :=
| OnOpen
| OnMessage (data : option Progress)
| OnClose
| ClearProgress.

Definition handle (h : Hook) (ev : Event) : Hook :=
  match ev with
  | OnOpen => mkHook (progress h) true (currentStatus h)
  | OnMessage (Some data) =>
      mkHook (add_progress data (progress h)) (isConnected h) (status data)
  | OnMessage None => h
  | OnClose => mkHook (progress h) false (currentStatus h)
  | ClearProgress => mkHook [] (isConnected h) (Some EmptyString)
  end.

Definition after (events : list Event) : Hook := fold_left handle events initial.

(** The pair on which two entries count as the same. *)
Definition key (d : Progress) : option string * option string :=
  (message d, timestamp d).

Definition is_clear (ev : Event) : bool :=
  match ev with ClearProgress => true | _ => false end.

End UseAgentProgress.

(** ** The store of runs ([useAgentStore]) *)

Module UseAgentStore.

(** The values of the fields of a run: what a JSON document holds. *)
Inductive value :=
| VNull
| VBool (b : bool)
| VNum (n : Z)
| VStr (s : string).

#[global] Instance value_eq_dec : EqDecision value.
Proof. solve_decision. Defined.

(** A run is an object; a field that is absent reads as [undefined]. *)
Abbreviation Obj := (gmap string value).

Record Store := mkStore {
  runs : list Obj;
  currentRun : option Obj;
  isRunning : bool
}.

(** [{ ...run, ...updates }]: the fields of [updates] win. *)
Definition spread (run updates : Obj) : Obj := updates ∪ run.

(** [run.id === id]; [id] may be [undefined]. *)
Definition has_id (id : option value) (run : Obj) : bool :=
  bool_decide (run !! "id" = id).

Definition setRuns (rs : list Obj) (st : Store) : Store :=
  mkStore rs (currentRun st) (isRunning st).

Definition addRun (run : Obj) (st : Store) : Store :=
  mkStore (run :: runs st) (currentRun st) (isRunning st).

Definition setCurrentRun (run : option Obj) (st : Store) : Store :=
  mkStore (runs st) run (isRunning st).

Definition setIsRunning (b : bool) (st : Store) : Store :=
  mkStore (runs st) (currentRun st) b.

(** [updateRun].  With [currentRun] null, [state.currentRun?.id] is
    [undefined] and the spread of null has no fields. *)
Definition updateRun (id : option value) (updates : Obj) (st : Store) : Store :=
  mkStore
    (map (fun run => if has_id id run then spread run updates else run)
         (runs st))
    (match currentRun st with
     | Some cur => if has_id id cur then Some (spread cur updates) else Some cur
     | None => if bool_decide (None = id) then Some (spread ∅ updates) else None
     end)
    (isRunning st).

End UseAgentStore.

(** ** The progress panel ([frontend/src/components/AgentProgress.jsx]) *)

Module AgentProgress.

(** A [switch] on a string against a list of [case] labels. *)
Definition one_of (status : string) (labels : list string) : bool :=
  existsb (String.eqb status) labels.

Definition running_states : list string :=
  ["info"; "cloning"; "analyzing"; "installing"; "testing"; "fixing";
   "pushing"; "completing"].

(** [getStatusIcon]: the component and its [className]. *)
Definition getStatusIcon (status : string) : string * string :=
  if one_of status ["success"; "completed"] then
    ("CheckCircle", "h-5 w-5 text-green-500")
  else if one_of status ["error"] then
    ("AlertCircle", "h-5 w-5 text-red-500")
  else if one_of status ["warning"] then
    ("AlertCircle", "h-5 w-5 text-yellow-500")
  else if one_of status running_states then
    ("Loader2", "h-5 w-5 text-blue-500 animate-spin")
  else ("Clock", "h-5 w-5 text-gray-400").

(** [getStatusColor] of the component. *)
Definition getStatusColor (status : string) : string :=
  if one_of status ["success"; "completed"] then "bg-green-50 border-green-200"
  else if one_of status ["error"] then "bg-red-50 border-red-200"
  else if one_of status ["warning"] then "bg-yellow-50 border-yellow-200"
  else if one_of status running_states then "bg-blue-50 border-blue-200"
  else "bg-gray-50 border-gray-200".

End AgentProgress.

(** ** The history of runs ([frontend/src/pages/HistoryPage.jsx]) *)

Module HistoryPage.

(** The fields of a run the filter reads; an absent field reads as
    [undefined].  Texts are ASCII, as for the branch name. *)
Record Run := mkRun {
  repo_name : option string;
  repo : option string;
  status : option string
}.

(** [s.toLowerCase().includes(t.toLowerCase())] *)
Definition includes_lower (s t : string) : bool :=
  Py.contains (Py.lower t) (Py.lower s).

(** [field?.toLowerCase().includes(searchTerm.toLowerCase())] as a
    condition: [undefined] counts as false. *)
Definition field_matches (field : option string) (searchTerm : string) : bool :=
  match field with
  | Some s => includes_lower s searchTerm
  | None => false
  end.

(** The callback of [runs.filter]. *)
Definition shown (searchTerm filter : string) (run : Run) : bool :=
  let matchesSearch :=
    field_matches (repo_name run) searchTerm
    || field_matches (repo run) searchTerm in
  let matchesFilter :=
    String.eqb filter "all" || bool_decide (status run = Some filter) in
  matchesSearch && matchesFilter.

Definition filteredRuns (runs : list Run) (searchTerm filter : string)
  : list Run :=
  List.filter (shown searchTerm filter) runs.

End HistoryPage.

(** ** Sample inputs *)

Module Samples.

(** A store holding one readable and writable file. *)
Definition one_file (path text : string) : FS :=
  {[ path := mkFile text true true ]}.

(** The text of a file of the store. *)
Definition text_of (fs : FS) (path : string) : option string :=
  f_data <$> fs !! path.

Definition unclosed_function : string :=
  "function f() {" +:+ Py.nl +:+ "  return 1;" +:+ Py.nl.

Definition missing_brace : ErrorInfo :=
  mkErrorInfo "app.js" 1 SYNTAX "missing }".

Definition unexpected_token : ErrorInfo :=
  mkErrorInfo "app.js" 1 SYNTAX "Unexpected token".

Definition undefined_access : ErrorInfo :=
  mkErrorInfo "app.js" 1 TYPE_ERROR "Cannot read property 'name' of undefined".

Definition missing_module : ErrorInfo :=
  mkErrorInfo "app.js" 1 IMPORT "Cannot find module".

Definition missing_semicolon : ErrorInfo :=
  mkErrorInfo "app.js" 2 SYNTAX "SyntaxError: missing ; before statement".

Definition stack_line : string :=
  "    at Object.<anonymous> (/workspace/src/app.js:12:5)".

Definition stack_record : ErrorInfo :=
  mkErrorInfo "/host/repo/src/app.js" 12 UNKNOWN "Unknown error".

(** Collaborators for a working copy with [n] defects: each test run
    reports them all, and of the records of one parse only the first can
    be fixed. *)
Definition countdown : Orchestrator.Services nat nat nat :=
  Orchestrator.mkServices nat nat nat
    (fun _ => Some tt)
    (fun tree => Some tree)
    (fun out => List.seq 0 out)
    (fun tree e => if Nat.eqb e 0 then (Orchestrator.Fixed, Nat.pred tree)
                   else (Orchestrator.Unfixed, tree))
    (fun _ => true).

End Samples.

(** * Properties *)

(** ** Strings *)

Lemma startswith_app (s t : string) : Py.startswith (s +:+ t) s = true.
Proof.
  induction s as [|c s IH]; simpl.
  - destruct t; reflexivity.
  - rewrite Ascii.eqb_refl. exact IH.
Qed.

Lemma lstrip_char_no_lead (ch : ascii) (s : string) :
  Py.startswith (Py.lstrip_char ch s) (String ch EmptyString) = false.
Proof.
  induction s as [|c s IH]; simpl; [reflexivity|].
  destruct (Ascii.eqb c ch) eqn:E; [exact IH|].
  simpl. rewrite Ascii.eqb_sym, E. reflexivity.
Qed.

Lemma path_join_inside (a b : string) :
  Py.startswith b "/" = false -> Py.startswith (Py.path_join a b) a = true.
Proof.
  intros H. unfold Py.path_join. rewrite H.
  destruct (String.eqb a EmptyString || Py.endswith a "/");
    apply startswith_app.
Qed.

(** ** Reading back what was written *)

Section LineFacts.

Import Py.

Lemma append_cons c (r t : string) : String c r +:+ t = String c (r +:+ t).
Proof. reflexivity. Qed.

Lemma append_nil (s : string) : s +:+ EmptyString = s.
Proof.
  induction s as [|c r IH]; [reflexivity|].
  rewrite append_cons, IH. reflexivity.
Qed.

Lemma no_char_app ch (s t : string) :
  no_char ch (s +:+ t) = no_char ch s && no_char ch t.
Proof.
  induction s as [|c r IH]; [reflexivity|].
  rewrite append_cons. cbn [no_char]. rewrite IH. apply andb_assoc.
Qed.

(** Text without CR is read as it is. *)
Lemma universal_newlines_id (s : string) :
  no_char CR s = true -> universal_newlines s = s.
Proof.
  induction s as [|c r IH]; simpl; [reflexivity|].
  intros H. apply andb_true_iff in H as [H1 H2].
  apply negb_true_iff in H1. rewrite H1, (IH H2). reflexivity.
Qed.

(** Translated text has no CR. *)
Lemma universal_newlines_no_cr (s : string) :
  no_char CR (universal_newlines s) = true.
Proof.
  assert (G : forall n s, (String.length s <= n)%nat ->
                          no_char CR (universal_newlines s) = true).
  { clear s. induction n as [|n IH]; intros s Hn.
    - destruct s; [reflexivity | simpl in Hn; lia].
    - destruct s as [|c r]; [reflexivity|]. simpl in Hn.
      cbn [universal_newlines]. destruct (Ascii.eqb c CR) eqn:Ec.
      + destruct r as [|d r']; [reflexivity|].
        simpl in Hn. destruct (Ascii.eqb d LF).
        * cbn [no_char]. rewrite IH by lia. reflexivity.
        * cbn [no_char]. rewrite IH by (simpl; lia). reflexivity.
      + cbn [no_char]. rewrite Ec, IH by lia. reflexivity. }
  apply (G (String.length s)). lia.
Qed.

(** A terminated line in front of a text is the first line read. *)
Lemma split_full (l t : string) :
  is_full_line l = true ->
  splitlines_keep (l +:+ t) = l :: splitlines_keep t.
Proof.
  induction l as [|c r IH]; [discriminate|].
  cbn [is_full_line]. rewrite append_cons. cbn [splitlines_keep].
  destruct (Ascii.eqb c LF) eqn:Ec.
  - intros H. apply String.eqb_eq in H. subst r. reflexivity.
  - intros H. rewrite (IH H). reflexivity.
Qed.

(** A non-empty text without LF is one line. *)
Lemma split_open (l : string) :
  no_char LF l = true -> nonempty l = true -> splitlines_keep l = [l].
Proof.
  induction l as [|c r IH]; [discriminate|].
  cbn [no_char splitlines_keep]. intros H _.
  apply andb_true_iff in H as [H1 H2]. apply negb_true_iff in H1.
  rewrite H1. destruct r as [|d r']; [reflexivity|].
  rewrite (IH H2 eq_refl). reflexivity.
Qed.

Lemma full_line_nonempty (l : string) :
  is_full_line l = true -> nonempty l = true.
Proof. destruct l; [discriminate | reflexivity]. Qed.

(** Well-shaped lines are read back as they were written, and the text
    written has no CR. *)
Lemma split_join (lines : list string) :
  lines_ok lines = true ->
  splitlines_keep (writelines lines) = lines /\
  no_char CR (writelines lines) = true.
Proof.
  unfold lines_ok.
  induction lines as [|l rest IH]; [intros _; split; reflexivity|].
  cbn [map ok_kinds writelines fold_right].
  destruct rest as [|l2 rest'].
  - cbn [map]. unfold kind at 1 2 3 4. cbn [k_full k_open k_no_cr k_nonempty].
    intros H. apply andb_true_iff in H as [H Hne].
    apply andb_true_iff in H as [Hfo Hcr].
    cbn [fold_right]. rewrite append_nil. split; [|exact Hcr].
    apply orb_true_iff in Hfo as [Hf | Ho].
    + pose proof (split_full l EmptyString Hf) as E.
      rewrite append_nil in E. exact E.
    + apply split_open; assumption.
  - cbn [map]. unfold kind at 1 2. cbn [k_full k_no_cr].
    intros H. apply andb_true_iff in H as [H Hrest].
    apply andb_true_iff in H as [Hf Hcr].
    destruct (IH Hrest) as [IH1 IH2].
    change (fold_right String.append EmptyString (l2 :: rest'))
      with (writelines (l2 :: rest')).
    rewrite split_full by exact Hf. rewrite IH1.
    split; [reflexivity|].
    rewrite no_char_app, Hcr, IH2. reflexivity.
Qed.

(** The lines read from a text without CR are well shaped. *)
Lemma splitlines_ok (t : string) :
  no_char CR t = true -> lines_ok (splitlines_keep t) = true.
Proof.
  unfold lines_ok.
  induction t as [|c r IH]; [reflexivity|].
  cbn [no_char splitlines_keep]. intros H.
  apply andb_true_iff in H as [Hc Hr]. specialize (IH Hr).
  destruct (Ascii.eqb c LF) eqn:Ec.
  - cbn [map ok_kinds].
    assert (K : kind (String c EmptyString) = mkKind true false true true).
    { unfold kind. cbn. rewrite Ec. cbn.
      apply negb_true_iff in Hc. rewrite Hc. reflexivity. }
    rewrite K. destruct (map kind (splitlines_keep r)); [reflexivity|].
    cbn [k_full k_no_cr]. exact IH.
  - destruct (splitlines_keep r) as [|l ls].
    + cbn. rewrite Ec, Hc. reflexivity.
    + cbn [map ok_kinds] in *.
      assert (K : kind (String c l)
                  = mkKind (k_full (kind l)) (k_open (kind l))
                           (k_no_cr (kind l)) true).
      { unfold kind. cbn. rewrite Ec, Hc. reflexivity. }
      rewrite K. destruct (map kind ls).
      * cbn [k_full k_open k_no_cr k_nonempty] in *.
        apply andb_true_iff in IH as [IH _]. rewrite IH. reflexivity.
      * cbn [k_full k_no_cr] in *. exact IH.
Qed.

Lemma readlines_ok (data : string) : lines_ok (readlines data) = true.
Proof. apply splitlines_ok, universal_newlines_no_cr. Qed.

(** Well-shaped lines written to a file are the lines read from it. *)
Lemma readlines_writelines (lines : list string) :
  lines_ok lines = true -> readlines (writelines lines) = lines.
Proof.
  intros H. destruct (split_join lines H) as [H1 H2].
  unfold readlines. rewrite universal_newlines_id by exact H2. exact H1.
Qed.

(** Replacing a line by one of the same kind keeps the lines well shaped. *)
Lemma setitem_kind (lines lines' : list string) i old v :
  getitem lines i = Some old -> kind v = kind old ->
  setitem lines i v = Some lines' ->
  lines_ok lines' = lines_ok lines.
Proof.
  unfold getitem, setitem, lines_ok.
  destruct (norm_index lines i) as [k|]; [|discriminate].
  intros Hn Hk [= <-].
  assert (E : skipn k lines = old :: skipn (S k) lines).
  { clear Hk. revert k Hn. induction lines as [|x xs IHl]; intros k Hn.
    - destruct k; discriminate.
    - destruct k; simpl in *; [|apply IHl; exact Hn].
      injection Hn as ->. destruct xs; reflexivity. }
  pose proof (firstn_skipn k lines) as Hl. rewrite E in Hl.
  apply (f_equal (map kind)) in Hl. rewrite map_app in Hl. cbn [map] in Hl.
  rewrite map_app. cbn [map]. rewrite Hk, Hl. reflexivity.
Qed.

(** Putting [?] before the first dot does not change the kind of a line. *)
Lemma replace_first_dot_kind (ln : string) :
  kind (replace_first ln "." "?.") = kind ln.
Proof.
  induction ln as [|c r IH]; [reflexivity|].
  cbn [replace_first].
  destruct (startswith (String c r) ".") eqn:E.
  - cbn [startswith] in E. rewrite andb_true_r in E.
    apply Ascii.eqb_eq in E. subst c. reflexivity.
  - unfold kind in *. cbn [is_full_line no_char nonempty].
    injection IH as I1 I2 I3 I4. rewrite I1, I2, I3.
    unfold nonempty in I4. apply (f_equal negb) in I4.
    rewrite !negb_involutive in I4. rewrite I4.
    destruct (Ascii.eqb c LF); reflexivity.
Qed.

End LineFacts.

(** ** The fixer *)

Section FixerFacts.

Import JavaScriptFixer.

(** A handler answers [True] exactly when the file was read, the target
    line exists and the file was written back. *)
Lemma with_file_true edit error fs :
  fst (with_file edit error fs) = true <->
  exists lines lines' fs',
    read_lines fs (file error) = Some lines /\
    edit error lines = Some lines' /\
    write_lines fs (file error) lines' = Some fs'.
Proof.
  unfold with_file. split.
  - destruct (read_lines fs (file error)) as [lines|]; [|discriminate].
    destruct (edit error lines) as [lines'|] eqn:He; [|discriminate].
    destruct (write_lines fs (file error) lines') as [fs'|] eqn:Hw;
      [|discriminate].
    intros _. exists lines, lines', fs'. repeat split; assumption.
  - intros (lines & lines' & fs' & -> & -> & ->). reflexivity.
Qed.

(** A file that cannot be read gives [False] and leaves the store as it
    was. *)
Lemma fix_error_unreadable error fs :
  read_lines fs (file error) = None -> fix_error error fs = (false, fs).
Proof.
  intros H. unfold fix_error, _fix_syntax, _fix_type_error, _fix_import,
    with_file. rewrite H. destruct (type error); reflexivity.
Qed.

(** A file that cannot be written gives [False] as well. *)
Lemma fix_error_unwritable error fs f :
  fs !! file error = Some f -> f_writable f = false ->
  fix_error error fs = (false, fs).
Proof.
  intros Hf Hw.
  assert (W : forall edit, with_file edit error fs = (false, fs)).
  { intros edit. unfold with_file.
    destruct (read_lines fs (file error)) as [lines|]; [|reflexivity].
    destruct (edit error lines) as [lines'|]; [|reflexivity].
    unfold write_lines. rewrite Hf, Hw. reflexivity. }
  unfold fix_error, _fix_syntax, _fix_type_error, _fix_import.
  destruct (type error); try reflexivity; apply W.
Qed.

(** The edit of [_fix_syntax] succeeds on every line that exists, whether
    a rule applies or not. *)
Lemma syntax_edit_total error lines ln :
  Py.getitem lines (line error - 1) = Some ln ->
  exists lines', syntax_edit error lines = Some lines'.
Proof.
  intros H. unfold syntax_edit. rewrite H.
  assert (S : forall v, exists l', Py.setitem lines (line error - 1) v = Some l').
  { intros v. unfold Py.setitem. unfold Py.getitem in H.
    destruct (Py.norm_index lines (line error - 1)); [eauto | discriminate]. }
  repeat match goal with
         | |- context [if ?b then _ else _] => destruct b
         end; eauto.
Qed.

(** When no rule of [_fix_syntax] applies, the lines are written back as
    they were read. *)
Lemma syntax_edit_no_match error lines ln :
  type error = SYNTAX ->
  Py.getitem lines (line error - 1) = Some ln ->
  rule_matches error ln = false ->
  syntax_edit error lines = Some lines.
Proof.
  intros Ht H. unfold rule_matches, syntax_edit. rewrite Ht, H.
  destruct (Py.contains "missing ;" (Py.lower (message error))).
  - intros ->. reflexivity.
  - destruct (Py.contains "missing }" (Py.lower (message error)));
      [discriminate|].
    intros ->. reflexivity.
Qed.

(** ** The optional-chaining rewrite guards itself *)

Lemma contains_here sub s :
  Py.startswith s sub = true -> Py.contains sub s = true.
Proof. intros H. destruct s; simpl in *; rewrite H; reflexivity. Qed.

Lemma contains_cons sub c s :
  Py.contains sub s = true -> Py.contains sub (String c s) = true.
Proof. intros H. simpl. rewrite H. apply orb_true_r. Qed.

(** Once the first dot of a line has become [?.], the line contains
    [?.]. *)
Lemma replace_first_dot ln :
  Py.contains "." ln = true ->
  Py.contains "?." (Py.replace_first ln "." "?.") = true.
Proof.
  induction ln as [|c r IH]; [discriminate|].
  intros H. cbn [Py.replace_first].
  destruct (Py.startswith (String c r) ".") eqn:E.
  - apply contains_here. reflexivity.
  - apply contains_cons, IH.
    simpl in H. simpl in E. rewrite E in H. exact H.
Qed.

Lemma getitem_setitem {A} (l l' : list A) i v :
  Py.setitem l i v = Some l' -> Py.getitem l' i = Some v.
Proof.
  unfold Py.setitem, Py.getitem, Py.norm_index.
  set (n := Z.of_nat (List.length l)).
  assert (Hlen : forall k, (k < List.length l)%nat ->
            List.length (firstn k l ++ v :: skipn (S k) l) = List.length l).
  { intros k Hk. rewrite List.length_app, List.length_firstn. simpl.
    rewrite List.length_skipn. lia. }
  assert (Hnth : forall k, (k < List.length l)%nat ->
            nth_error (firstn k l ++ v :: skipn (S k) l) k = Some v).
  { intros k Hk. rewrite nth_error_app2; rewrite List.length_firstn; [|lia].
    replace (k - Nat.min k (List.length l))%nat with 0%nat by lia.
    reflexivity. }
  destruct ((0 <=? i) && (i <? n)) eqn:E1.
  - intros [= <-]. apply andb_true_iff in E1 as [H0 H1].
    apply Z.leb_le in H0. apply Z.ltb_lt in H1. unfold n in H1.
    rewrite Hlen by lia. fold n.
    assert (E : (0 <=? i) && (i <? n) = true).
    { apply andb_true_iff. split; [apply Z.leb_le | apply Z.ltb_lt]; unfold n; lia. }
    rewrite E. apply Hnth. lia.
  - destruct ((- n <=? i) && (i <? 0)) eqn:E2; [|discriminate].
    intros [= <-]. apply andb_true_iff in E2 as [H0 H1].
    apply Z.leb_le in H0. apply Z.ltb_lt in H1. unfold n in H0.
    rewrite Hlen by lia. fold n. rewrite E1.
    assert (E : (- n <=? i) && (i <? 0) = true).
    { apply andb_true_iff. split; [apply Z.leb_le | apply Z.ltb_lt]; unfold n; lia. }
    rewrite E. apply Hnth. unfold n. lia.
Qed.

(** Running the optional-chaining rule of [_fix_type_error] on the lines
    it produced changes nothing: after the rewrite the guard
    ['?.' not in line] fails. *)
Lemma optional_chaining_idempotent error lines lines' :
  Py.contains "cannot read property" (Py.lower (message error)) = true ->
  type_error_edit error lines = Some lines' ->
  type_error_edit error lines' = Some lines'.
Proof.
  intros Hm. unfold type_error_edit. rewrite Hm.
  destruct (Py.getitem lines (line error - 1)) as [ln|] eqn:Hg; [|discriminate].
  destruct (Py.contains "." ln && negb (Py.contains "?." ln)) eqn:Hc.
  - intros Hs. rewrite (getitem_setitem _ _ _ _ Hs).
    apply andb_true_iff in Hc as [Hdot _].
    rewrite (replace_first_dot ln Hdot). rewrite andb_false_r. reflexivity.
  - intros [= <-]. rewrite Hg, Hc. reflexivity.
Qed.

End FixerFacts.

(** The optional-chaining rule at the level of the file: a second run of
    [_fix_type_error] on the store the first run produced leaves that
    store as it is. *)
Lemma optional_chaining_file_unchanged (error : ErrorInfo) (fs fs1 : FS) :
  Py.contains "cannot read property" (Py.lower (message error)) = true ->
  JavaScriptFixer._fix_type_error error fs = (true, fs1) ->
  JavaScriptFixer._fix_type_error error fs1 = (true, fs1).
Proof.
  intros Hm. unfold JavaScriptFixer._fix_type_error, JavaScriptFixer.with_file.
  unfold read_lines at 1.
  destruct (fs !! file error) as [f|] eqn:Hf; [|intros [=]].
  destruct (f_readable f) eqn:Hr; [|intros [=]].
  destruct (JavaScriptFixer.type_error_edit error (Py.readlines (f_data f)))
    as [lines'|] eqn:He; [|intros [=]].
  unfold write_lines at 1. rewrite Hf.
  destruct (f_writable f) eqn:Hw; [|intros [=]].
  rewrite Hr. intros [= <-].
  assert (Hok : Py.lines_ok lines' = true).
  { pose proof (readlines_ok (f_data f)) as H0.
    revert He. unfold JavaScriptFixer.type_error_edit. rewrite Hm.
    destruct (Py.getitem (Py.readlines (f_data f)) (line error - 1))
      as [ln|] eqn:Hg; [|discriminate].
    destruct (Py.contains "." ln && negb (Py.contains "?." ln)).
    - intros Hs.
      rewrite (setitem_kind _ _ _ ln _ Hg (replace_first_dot_kind ln) Hs).
      exact H0.
    - intros [= <-]. exact H0. }
  unfold read_lines, write_lines. rewrite lookup_insert_eq. cbn [f_readable f_writable f_data].
  rewrite (readlines_writelines _ Hok).
  rewrite (optional_chaining_idempotent error _ _ Hm He).
  rewrite insert_insert_eq. reflexivity.
Qed.

(** C3, at the failing input: the missing-closing-brace rule run again on
    its own output adds a second brace line; the file is not left
    unchanged. *)
Theorem C3_brace_insertion_repeats :
  let fs0 := Samples.one_file "app.js" Samples.unclosed_function in
  let r1 := JavaScriptFixer._fix_syntax Samples.missing_brace fs0 in
  let r2 := JavaScriptFixer._fix_syntax Samples.missing_brace (snd r1) in
  fst r1 = true /\ fst r2 = true /\
  Samples.text_of (snd r1) "app.js"
  = Some ("function f() {" +:+ Py.nl +:+ "}" +:+ Py.nl
            +:+ "  return 1;" +:+ Py.nl) /\
  Samples.text_of (snd r2) "app.js"
  = Some ("function f() {" +:+ Py.nl +:+ "}" +:+ Py.nl +:+ "}" +:+ Py.nl
            +:+ "  return 1;" +:+ Py.nl) /\
  Samples.text_of (snd r2) "app.js" <> Samples.text_of (snd r1) "app.js".
Proof.
  vm_compute. repeat split; discriminate.
Qed.

(** The optional-chaining rewrite at a sample input: the second run
    leaves the file as the first run wrote it. *)
Example optional_chaining_twice :
  let fs0 := Samples.one_file "app.js" ("user.name.first" +:+ Py.nl) in
  let r1 := JavaScriptFixer.fix_error Samples.undefined_access fs0 in
  let r2 := JavaScriptFixer.fix_error Samples.undefined_access (snd r1) in
  Samples.text_of (snd r1) "app.js" = Some ("user?.name.first" +:+ Py.nl) /\
  Samples.text_of (snd r2) "app.js" = Samples.text_of (snd r1) "app.js".
Proof. vm_compute. split; reflexivity. Qed.

(** The import rule has no guard either: a second run comments the
    line out a second time. *)
Example import_commented_twice :
  let fs0 := Samples.one_file "app.js" ("import x from 'y';" +:+ Py.nl) in
  let r1 := JavaScriptFixer.fix_error Samples.missing_module fs0 in
  let r2 := JavaScriptFixer.fix_error Samples.missing_module (snd r1) in
  Samples.text_of (snd r1) "app.js" = Some ("// import x from 'y';" +:+ Py.nl) /\
  Samples.text_of (snd r2) "app.js"
  = Some ("// // import x from 'y';" +:+ Py.nl).
Proof. vm_compute. split; reflexivity. Qed.

(** C4, at the failing input: no rule of the SYNTAX handler has its
    condition met by the line, the file is written back unchanged, and
    [fix_error] still answers [True]. *)
Theorem C4_fixed_without_match :
  let fs0 := Samples.one_file "app.js" Samples.unclosed_function in
  let r := JavaScriptFixer.fix_error Samples.unexpected_token fs0 in
  JavaScriptFixer.rule_matches Samples.unexpected_token
    ("function f() {" +:+ Py.nl) = false /\
  fst r = true /\
  Samples.text_of (snd r) "app.js" = Samples.text_of fs0 "app.js".
Proof. vm_compute. repeat split; reflexivity. Qed.

(** The same for every SYNTAX record: once the file can be read and
    written and the line exists, the answer is [True] whatever the rules
    say. *)
Lemma fix_syntax_true_regardless error fs f ln :
  type error = SYNTAX ->
  fs !! file error = Some f -> f_readable f = true -> f_writable f = true ->
  Py.getitem (Py.readlines (f_data f)) (line error - 1) = Some ln ->
  fst (JavaScriptFixer.fix_error error fs) = true.
Proof.
  intros Ht Hf Hr Hw Hg. unfold JavaScriptFixer.fix_error. rewrite Ht.
  apply with_file_true.
  destruct (syntax_edit_total error _ ln Hg) as [lines' He].
  exists (Py.readlines (f_data f)), lines'.
  unfold read_lines, write_lines. rewrite Hf, Hr, Hw. eauto.
Qed.

(** ** Language detection and plugin choice *)

Section DetectionFacts.

Import Languages DockerRunner.




End DetectionFacts.




(** ** The parser *)

Section ParserFacts.

Import JavaScriptParser.

(** The locator patterns on lines of the three formats.  The lazy [.*?]
    of the stack-trace pattern stops at the first parenthesis that can
    start a locator. *)
Example locate_stack_trace :
  option_map (fun mt => (group_text mt 1, group_text mt 2, group_text mt 3))
    (Re.search false (nth 0 file_line_patterns Re.Eps) Samples.stack_line)
  = Some ("/workspace/src/app.js", "12", "5").
Proof. vm_compute. reflexivity. Qed.

Example locate_stack_trace_nested :
  option_map (fun mt => (group_text mt 1, group_text mt 2, group_text mt 3))
    (Re.search false (nth 0 file_line_patterns Re.Eps) "at (a (b:1:2) (c:3:4)")
  = Some ("a (b", "1", "2").
Proof. vm_compute. reflexivity. Qed.

Example locate_eslint :
  option_map (fun mt => (group_text mt 1, group_text mt 2, group_text mt 3))
    (Re.search false (nth 1 file_line_patterns Re.Eps) "  src/b.js.tsx:7:1: error")
  = Some ("src/b.js.tsx", "7", "1").
Proof. vm_compute. reflexivity. Qed.

Example locate_generic :
  option_map (fun mt => (group_text mt 1, group_text mt 2))
    (Re.search false (nth 2 file_line_patterns Re.Eps) "xx Error in lib/a.js:12:5")
  = Some ("lib/a.js", "12").
Proof. vm_compute. reflexivity. Qed.

(** Classification looks at the line and the four after it, ignoring
    case, and reports the text that matched. *)
Example identify_type_error :
  _identify_error "at f (a.js:1:2)"
    ["at f (a.js:1:2)"; "typeerror: cannot read property 'x' of undefined"]
  = (TYPE_ERROR, "typeerror").
Proof. vm_compute. reflexivity. Qed.

(** What [scan_patterns] returns comes from a locator match on the line,
    with the path converted and found outside [node_modules]. *)
Lemma scan_patterns_sound patterns repo_path ln context e :
  scan_patterns patterns repo_path ln context = Some e ->
  exists pattern mt,
    In pattern patterns /\
    Re.search false pattern ln = Some mt /\
    file e = convert_path repo_path (group_text mt 1) /\
    line e = Py.int (group_text mt 2) /\
    Py.contains "node_modules" (file e) = false.
Proof.
  induction patterns as [|p rest IH]; simpl; [discriminate|].
  destruct (Re.search false p ln) as [mt|] eqn:Hs.
  - destruct (Py.contains "node_modules"
                (convert_path repo_path (group_text mt 1))) eqn:Hn.
    + intros H. destruct (IH H) as (q & mt' & Hin & Hq).
      exists q, mt'. split; [right; exact Hin | exact Hq].
    + destruct (_identify_error ln context) as [ty msg].
      intros [= <-]. exists p, mt. simpl. auto.
  - intros H. destruct (IH H) as (q & mt' & Hin & Hq).
    exists q, mt'. split; [right; exact Hin | exact Hq].
Qed.

(** A line all of whose locators lie in [node_modules] gives no record. *)
Lemma vendored_line_discarded patterns repo_path ln context :
  (forall pattern mt,
     In pattern patterns -> Re.search false pattern ln = Some mt ->
     Py.contains "node_modules" (convert_path repo_path (group_text mt 1))
     = true) ->
  scan_patterns patterns repo_path ln context = None.
Proof.
  induction patterns as [|p rest IH]; intros H; [reflexivity|].
  cbn [scan_patterns].
  assert (Hrest : scan_patterns rest repo_path ln context = None).
  { apply IH. intros q mt Hq. apply H. right. exact Hq. }
  destruct (Re.search false p ln) as [mt|] eqn:Hs; [|exact Hrest].
  rewrite (H p mt (or_introl eq_refl) Hs). exact Hrest.
Qed.

(** Every record of [scan_lines] is the record of one of the lines. *)
Lemma scan_lines_sound repo_path lines e :
  In e (scan_lines repo_path lines) ->
  exists ln context,
    In ln lines /\
    scan_patterns file_line_patterns repo_path ln context = Some e.
Proof.
  induction lines as [|ln rest IH]; cbn [scan_lines]; [contradiction|].
  destruct (scan_patterns file_line_patterns repo_path ln
              (firstn 5 (ln :: rest))) as [e0|] eqn:Hs.
  - intros [<- | Hin].
    + exists ln, (firstn 5 (ln :: rest)). split; [left; reflexivity | exact Hs].
    + destruct (IH Hin) as (l & c & Hl & Hc). exists l, c.
      split; [right; exact Hl | exact Hc].
  - intros Hin. destruct (IH Hin) as (l & c & Hl & Hc). exists l, c.
    split; [right; exact Hl | exact Hc].
Qed.


Lemma convert_workspace_path repo rel :
  repo <> EmptyString ->
  convert_path (Some repo) ("/workspace/" +:+ rel)
  = Py.path_join repo (Py.lstrip_char "/" rel).
Proof.
  intros Hne. unfold convert_path. simpl.
  destruct (String.eqb repo EmptyString) eqn:E.
  - apply String.eqb_eq in E. contradiction.
  - reflexivity.
Qed.




End ParserFacts.



(** C7: with a repository path given, a record whose locator path is
    rooted at the container mount point [/workspace] stores the same
    relative path under the host copy of the repository. *)
Theorem C7_workspace_path_rewritten
    (test_output repo : string) (e : ErrorInfo) :
  repo <> EmptyString ->
  In e (JavaScriptParser.parse_errors test_output (Some repo)) ->
  exists ln pattern mt,
    In ln (Py.split_char Py.LF test_output) /\
    In pattern JavaScriptParser.file_line_patterns /\
    Re.search false pattern ln = Some mt /\
    line e = Py.int (JavaScriptParser.group_text mt 2) /\
    forall rel,
      JavaScriptParser.group_text mt 1 = "/workspace/" +:+ rel ->
      file e = Py.path_join repo (Py.lstrip_char "/" rel) /\
      Py.startswith (file e) repo = true.
Proof.
  intros Hne Hin.
  destruct (scan_lines_sound _ _ _ Hin) as (ln & ctx & Hln & Hscan).
  destruct (scan_patterns_sound _ _ _ _ _ Hscan)
    as (p & mt & Hp & Hs & Hf & Hl & _).
  exists ln, p, mt. repeat split; try assumption.
  - rewrite Hf, H. apply convert_workspace_path. exact Hne.
  - rewrite Hf, H, convert_workspace_path by exact Hne.
    apply path_join_inside, lstrip_char_no_lead.
Qed.

(** C8: no record of a parse result has a path that mentions
    [node_modules]; such locators are dropped and add nothing to the
    count of records. *)
Theorem C8_no_vendored_paths (test_output : string) (repo_path : option string) :
  Forall (fun e => Py.contains "node_modules" (file e) = false)
         (JavaScriptParser.parse_errors test_output repo_path).
Proof.
  apply List.Forall_forall. intros e Hin.
  destruct (scan_lines_sound _ _ _ Hin) as (ln & ctx & _ & Hscan).
  destruct (scan_patterns_sound _ _ _ _ _ Hscan) as (p & mt & _ & _ & _ & _ & H).
  exact H.
Qed.

(** C7 at a stack-trace line of a test run in the container. *)
Lemma C7_workspace_path_rewritten_witness :
  "/host/repo" <> EmptyString /\
  In Samples.stack_record
     (JavaScriptParser.parse_errors Samples.stack_line (Some "/host/repo")) /\
  exists ln pattern mt,
    In ln (Py.split_char Py.LF Samples.stack_line) /\
    In pattern JavaScriptParser.file_line_patterns /\
    Re.search false pattern ln = Some mt /\
    line Samples.stack_record = Py.int (JavaScriptParser.group_text mt 2) /\
    forall rel,
      JavaScriptParser.group_text mt 1 = "/workspace/" +:+ rel ->
      file Samples.stack_record = Py.path_join "/host/repo" (Py.lstrip_char "/" rel) /\
      Py.startswith (file Samples.stack_record) "/host/repo" = true.
Proof.
  assert (Hne : "/host/repo" <> EmptyString) by discriminate.
  assert (Hin : In Samples.stack_record
                  (JavaScriptParser.parse_errors Samples.stack_line
                     (Some "/host/repo"))).
  { vm_compute. left. reflexivity. }
  split; [exact Hne|]. split; [exact Hin|].
  exact (C7_workspace_path_rewritten Samples.stack_line "/host/repo"
           Samples.stack_record Hne Hin).
Defined.

(** ** The branch preview *)

Section BranchFacts.

Import LoginPage.

Lemma upper_keeps_white (c : ascii) :
  Js.is_white (Py.upper_char c) = Js.is_white c.
Proof. destruct c as [[] [] [] [] [] [] [] []]; reflexivity. Qed.

Lemma single_spaced_upper (s : string) :
  single_spaced (Js.toUpperCase s) = single_spaced s.
Proof.
  induction s as [|c r IH]; [reflexivity|].
  destruct r as [|d r']; [reflexivity|].
  change (single_spaced (Js.toUpperCase (String c (String d r'))))
    with (negb (Js.is_white (Py.upper_char c) && Js.is_white (Py.upper_char d))
          && single_spaced (Js.toUpperCase (String d r'))).
  change (single_spaced (String c (String d r')))
    with (negb (Js.is_white c && Js.is_white d)
          && single_spaced (String d r')).
  rewrite IH, !upper_keeps_white. reflexivity.
Qed.

(** On a string without adjacent white space, replacing each white-space
    character and collapsing runs are the same. *)
Lemma replace_is_collapse (s : string) :
  single_spaced s = true -> Js.replace_white s = collapse_white s.
Proof.
  induction s as [|c r IH]; [reflexivity|].
  destruct r as [|d r'].
  - intros _. unfold Js.replace_white. simpl. destruct (Js.is_white c); reflexivity.
  - cbn [single_spaced]. intros H. apply andb_true_iff in H as [H1 H2].
    specialize (IH H2).
    change (Js.replace_white (String c (String d r')))
      with (String (if Js.is_white c then "_"%char else c)
                   (Js.replace_white (String d r'))).
    rewrite IH. cbn [collapse_white].
    destruct (Js.is_white c); [|reflexivity].
    destruct (Js.is_white d); [discriminate | reflexivity].
Qed.

Lemma replace_white_length (s : string) :
  String.length (Js.replace_white s) = String.length s.
Proof.
  unfold Js.replace_white.
  induction s as [|c r IH]; simpl; [reflexivity | now rewrite IH].
Qed.

Lemma upper_length (s : string) :
  String.length (Js.toUpperCase s) = String.length s.
Proof.
  unfold Js.toUpperCase, Py.upper.
  induction s as [|c r IH]; simpl; [reflexivity | now rewrite IH].
Qed.

Lemma append_length (s t : string) :
  String.length (s +:+ t) = (String.length s + String.length t)%nat.
Proof. induction s as [|c r IH]; simpl; [reflexivity | now rewrite IH]. Qed.

End BranchFacts.

(** The Branch Preview of the run form does not follow the naming rule
    on a run of white space: two adjacent spaces give two underscores. *)
Lemma preview_run_of_spaces_not_collapsed :
  LoginPage.branchName "Team  A" "John" = "TEAM__A_JOHN_AI_FIX" /\
  LoginPage.branchName_spec "Team  A" "John" = "TEAM_A_JOHN_AI_FIX" /\
  LoginPage.branchName "Team  A" "John"
  <> LoginPage.branchName_spec "Team  A" "John".
Proof. vm_compute. repeat split. discriminate. Qed.

(** The preview replaces white space one character for one, so it is as
    long as the two inputs and the eight characters around them, and it
    shows the collapsed form when neither input has two adjacent
    white-space characters. *)
Lemma preview_single_spaced (team leader : string) :
  LoginPage.single_spaced team = true ->
  LoginPage.single_spaced leader = true ->
  LoginPage.branchName team leader = LoginPage.branchName_spec team leader /\
  String.length (LoginPage.branchName team leader)
  = (String.length team + String.length leader + 8)%nat.
Proof.
  intros Ht Hl. unfold LoginPage.branchName, LoginPage.branchName_spec. split.
  - rewrite !replace_is_collapse by (rewrite single_spaced_upper; assumption).
    reflexivity.
  - rewrite !append_length, !replace_white_length, !upper_length. simpl. lia.
Qed.

(** ** The branch name of the git pipeline *)

Section BranchNameFacts.

Import GitPipeline.

Lemma upper_white (c : ascii) : is_white (Py.upper_char c) = is_white c.
Proof. apply upper_keeps_white. Qed.

Lemma upper_cons (c : ascii) (s : string) :
  Py.upper (String c s) = String (Py.upper_char c) (Py.upper s).
Proof. reflexivity. Qed.

Lemma upper_append (a b : string) :
  Py.upper (a +:+ b) = Py.upper a +:+ Py.upper b.
Proof.
  induction a as [|x a IH]; [reflexivity|].
  rewrite append_cons, !upper_cons, IH. reflexivity.
Qed.

Lemma no_white_upper (s : string) : no_white (Py.upper s) = no_white s.
Proof.
  induction s as [|c s IH]; [reflexivity|].
  rewrite upper_cons. cbn [no_white]. rewrite upper_white, IH. reflexivity.
Qed.

Lemma all_white_upper (s : string) : all_white (Py.upper s) = all_white s.
Proof.
  induction s as [|c s IH]; [reflexivity|].
  rewrite upper_cons. cbn [all_white]. rewrite upper_white, IH. reflexivity.
Qed.

Lemma starts_white_upper (s : string) :
  starts_white (Py.upper s) = starts_white s.
Proof. destruct s as [|c s]; [reflexivity|]. apply upper_white. Qed.

Lemma ends_white_upper (s : string) : ends_white (Py.upper s) = ends_white s.
Proof.
  induction s as [|c s IH]; [reflexivity|].
  rewrite upper_cons. destruct s as [|d s]; [apply upper_white|].
  rewrite upper_cons in *. exact IH.
Qed.

Lemma upper_empty (s : string) : Py.upper s = EmptyString -> s = EmptyString.
Proof. destruct s; [reflexivity | discriminate]. Qed.

Lemma collapse_cons (c d : ascii) (r : string) :
  collapse (String c (String d r))
  = if is_white c then
      if is_white d then collapse (String d r)
      else String "_" (collapse (String d r))
    else String c (collapse (String d r)).
Proof. reflexivity. Qed.

(** Without white space there is nothing to collapse. *)
Lemma collapse_word (w : string) : no_white w = true -> collapse w = w.
Proof.
  induction w as [|c w IH]; [reflexivity|].
  cbn [no_white collapse]. intros H. apply andb_true_iff in H as [H1 H2].
  apply negb_true_iff in H1. rewrite H1, (IH H2). reflexivity.
Qed.

(** A run of white space before a text that does not go on with white
    space gives one underscore. *)
Lemma collapse_run (ws b : string) :
  ws <> EmptyString -> all_white ws = true -> starts_white b = false ->
  collapse (ws +:+ b) = String "_" (collapse b).
Proof.
  induction ws as [|c ws IH]; [contradiction|]. intros _ Hw Hb.
  cbn [all_white] in Hw. apply andb_true_iff in Hw as [Hc Hw].
  rewrite append_cons. cbn [collapse]. rewrite Hc.
  destruct ws as [|d ws].
  - change (EmptyString +:+ b) with b.
    destruct b as [|x b]; [reflexivity|].
    cbn [starts_white] in Hb. rewrite Hb. reflexivity.
  - rewrite append_cons.
    cbn [all_white] in Hw. apply andb_true_iff in Hw as [Hd Hw'].
    rewrite Hd. rewrite <- append_cons. apply IH; [discriminate | | exact Hb].
    cbn [all_white]. rewrite Hd, Hw'. reflexivity.
Qed.

(** What follows a text that does not end in white space has no part in
    what the text becomes. *)
Lemma collapse_append (a r : string) :
  ends_white a = false -> collapse (a +:+ r) = collapse a +:+ collapse r.
Proof.
  induction a as [|c a IH]; intros He; [reflexivity|].
  rewrite append_cons. destruct a as [|d a].
  - change (EmptyString +:+ r) with r. cbn [ends_white] in He.
    cbn [collapse]. rewrite He. reflexivity.
  - assert (He' : ends_white (String d a) = false) by exact He.
    specialize (IH He'). rewrite append_cons in *.
    rewrite !collapse_cons, IH.
    destruct (is_white c); [destruct (is_white d)|]; reflexivity.
Qed.

Lemma normalise_word (w : string) :
  no_white w = true -> normalise w = Py.upper w.
Proof.
  intros H. unfold normalise. apply collapse_word.
  rewrite no_white_upper. exact H.
Qed.

Lemma normalise_run (a ws b : string) :
  ws <> EmptyString -> all_white ws = true ->
  ends_white a = false -> starts_white b = false ->
  normalise (a +:+ ws +:+ b) = normalise a +:+ "_" +:+ normalise b.
Proof.
  intros Hne Hw Ha Hb. unfold normalise.
  rewrite !upper_append.
  rewrite collapse_append by (rewrite ends_white_upper; exact Ha).
  rewrite collapse_run; [reflexivity | | |].
  - intros H. apply Hne. exact (upper_empty _ H).
  - rewrite all_white_upper. exact Hw.
  - rewrite starts_white_upper. exact Hb.
Qed.

(** The rule leaves no choice. *)
Lemma Normalised_unique (s t : string) :
  Normalised s t -> t = normalise s.
Proof.
  induction 1 as [w Hw | a ws b a' b' Hne Hw Ha Hb _ IHa _ IHb].
  - symmetry. exact (normalise_word _ Hw).
  - subst a' b'. symmetry. exact (normalise_run _ _ _ Hne Hw Ha Hb).
Qed.

Lemma no_white_ends (a : string) : no_white a = true -> ends_white a = false.
Proof.
  induction a as [|c a IH]; [reflexivity|].
  cbn [no_white]. intros H. apply andb_true_iff in H as [H1 H2].
  apply negb_true_iff in H1.
  destruct a as [|d a]; [exact H1 | exact (IH H2)].
Qed.

(** A text with white space can be cut at its first run of white space. *)
Lemma first_run (s : string) :
  no_white s = true \/
  exists a ws b,
    s = a +:+ ws +:+ b /\ no_white a = true /\
    ws <> EmptyString /\ all_white ws = true /\ starts_white b = false /\
    (String.length b < String.length s)%nat.
Proof.
  induction s as [|c s IH]; [left; reflexivity|].
  destruct (is_white c) eqn:Hc.
  - right. destruct (starts_white s) eqn:Hs.
    + destruct IH as [Hn | (a & ws & b & -> & Ha & Hne & Hw & Hb & Hl)].
      * destruct s as [|d s]; [discriminate|].
        cbn [starts_white] in Hs. cbn [no_white] in Hn.
        rewrite Hs in Hn. discriminate.
      * destruct a as [|x a].
        -- exists EmptyString, (String c ws), b.
           change (EmptyString +:+ ws +:+ b) with (ws +:+ b) in *.
           repeat split; try assumption; try discriminate.
           ++ cbn [all_white]. rewrite Hc, Hw. reflexivity.
           ++ cbn [String.length]. lia.
        -- rewrite append_cons in Hs. cbn [starts_white] in Hs.
           cbn [no_white] in Ha. rewrite Hs in Ha. discriminate.
    + exists EmptyString, (String c EmptyString), s.
      repeat split; try assumption; try discriminate.
      * cbn [all_white]. rewrite Hc. reflexivity.
      * cbn [String.length]. lia.
  - destruct IH as [Hn | (a & ws & b & -> & Ha & Hne & Hw & Hb & Hl)].
    + left. cbn [no_white]. rewrite Hc, Hn. reflexivity.
    + right. exists (String c a), ws, b.
      repeat split; try assumption.
      * cbn [no_white]. rewrite Hc, Ha. reflexivity.
      * cbn [String.length] in *. lia.
Qed.

(** The rule applies to every text. *)
Lemma Normalised_total : forall n s,
  (String.length s < n)%nat -> Normalised s (normalise s).
Proof.
  induction n as [|n IH]; intros s Hl; [lia|].
  destruct (first_run s) as [Hn | (a & ws & b & -> & Ha & Hne & Hw & Hb & Hlb)].
  - rewrite (normalise_word _ Hn). apply N_word. exact Hn.
  - rewrite (normalise_run _ _ _ Hne Hw (no_white_ends _ Ha) Hb).
    apply N_run; try assumption.
    + exact (no_white_ends _ Ha).
    + rewrite (normalise_word _ Ha). apply N_word. exact Ha.
    + apply IH. lia.
Qed.

End BranchNameFacts.

(** C9: for all team and leader strings the branch name is
    [{TEAM}_{LEADER}_AI_FIX], where [{TEAM}] and [{LEADER}] are the two
    inputs in upper case with each run of white space collapsed to one
    underscore.  The rule applies to every input (the function is total)
    and leaves no choice (whatever the rule allows for the two inputs
    gives the one branch name). *)
Theorem C9_branch_name (team leader : string) :
  exists T L,
    GitPipeline.Normalised team T /\
    GitPipeline.Normalised leader L /\
    GitPipeline.branchName team leader = T +:+ "_" +:+ L +:+ "_AI_FIX" /\
    forall T' L',
      GitPipeline.Normalised team T' -> GitPipeline.Normalised leader L' ->
      T' +:+ "_" +:+ L' +:+ "_AI_FIX" = GitPipeline.branchName team leader.
Proof.
  exists (GitPipeline.normalise team), (GitPipeline.normalise leader).
  split; [apply (Normalised_total (S (String.length team))); lia|].
  split; [apply (Normalised_total (S (String.length leader))); lia|].
  split; [reflexivity|].
  intros T' L' HT HL.
  rewrite (Normalised_unique _ _ HT), (Normalised_unique _ _ HL). reflexivity.
Qed.

(** The preview is the template as soon as both fields are filled in. *)
Lemma preview_is_branch_name (team leader : string) :
  team <> EmptyString -> leader <> EmptyString ->
  LoginPage.branchPreview team leader = LoginPage.branchName team leader.
Proof.
  intros Ht Hl. unfold LoginPage.branchPreview, Js.truthy.
  destruct (String.eqb_spec team EmptyString); [contradiction|].
  destruct (String.eqb_spec leader EmptyString); [contradiction|].
  reflexivity.
Qed.

(** ** The Success Rate card *)

Lemma gt_zero_nonzero (x : Js.number) :
  Js.gt x (Js.of_Z 0) = true -> ResultsPage.is_zero x = false.
Proof. destruct x; simpl; intros H; try reflexivity; discriminate. Qed.

Lemma zero_not_gt (x : Js.number) :
  ResultsPage.is_zero x = true -> Js.gt x (Js.of_Z 0) = false.
Proof. destruct x; simpl; intros H; try discriminate; reflexivity. Qed.

(** C10, the claim as stated fails: with 23 fixes for 40 failures the card
    shows 57, while [100 * 23 / 40 = 57.5] rounds to 58 (and so does the
    JavaScript expression [Math.round(100 * 23 / 40)]): the quotient
    [23 / 40] is rounded to a double before it is multiplied by 100. *)
Lemma C10_rate_23_of_40 :
  let run := ResultsPage.mkRun (Js.of_Z 40) (Js.of_Z 23) "PARTIAL" in
  ResultsPage.success_rate run = Js.of_Z 57 /\
  ResultsPage.success_rate_spec 23 40 = 58 /\
  ResultsPage.success_rate_reordered run = Js.of_Z 58 /\
  ResultsPage.success_rate run <> Js.of_Z (ResultsPage.success_rate_spec 23 40).
Proof. vm_compute. repeat split. discriminate. Qed.

(** C10, amended: when [total_failures > 0] the card shows
    [Math.round((total_fixes / total_failures) * 100)], computed on
    doubles in that order, and the one division performed has a
    denominator that is not zero; otherwise it shows 0 and no division is
    performed.  Every division of the evaluation has a non-zero
    denominator, and a run with zero failures shows 0 whatever its
    status. *)
Theorem C10_success_rate (run : ResultsPage.Run) :
  (Js.gt (ResultsPage.total_failures run) (Js.of_Z 0) = true ->
     ResultsPage.success_rate_eval run
     = (Js.Math_round
          (Js.mul (Js.div (ResultsPage.total_fixes run)
                          (ResultsPage.total_failures run))
                  (Js.of_Z 100)),
        [ResultsPage.total_failures run])) /\
  (Js.gt (ResultsPage.total_failures run) (Js.of_Z 0) = false ->
     ResultsPage.success_rate_eval run = (Js.of_Z 0, [])) /\
  Forall (fun d => ResultsPage.is_zero d = false)
         (snd (ResultsPage.success_rate_eval run)) /\
  (ResultsPage.is_zero (ResultsPage.total_failures run) = true ->
     ResultsPage.success_rate run = Js.of_Z 0).
Proof.
  unfold ResultsPage.success_rate, ResultsPage.success_rate_eval.
  destruct (Js.gt (ResultsPage.total_failures run) (Js.of_Z 0)) eqn:G.
  - repeat split.
    + intros H. discriminate.
    + simpl. constructor; [|constructor]. apply gt_zero_nonzero. exact G.
    + intros Hz. apply zero_not_gt in Hz. congruence.
  - repeat split.
    + intros H. discriminate.
    + simpl. constructor.
Qed.

(** For up to a hundred failures and no more fixes than failures, the card
    shows the exactly rounded percentage or one less. *)
Lemma success_rate_within_one (fixes failures : nat) :
  (1 <= failures <= 100)%nat -> (fixes <= failures)%nat ->
  ResultsPage.within_one (Z.of_nat fixes) (Z.of_nat failures) = true.
Proof.
  intros Hf Hx.
  assert (H : ResultsPage.within_one_upto 100 = true) by (vm_compute; reflexivity).
  unfold ResultsPage.within_one_upto in H.
  rewrite forallb_forall in H.
  assert (Hin : In failures (List.seq 1 100)) by (apply in_seq; lia).
  specialize (H failures Hin). rewrite forallb_forall in H.
  apply H. apply in_seq. lia.
Qed.

(** ** The retry loop *)

Section LoopFacts.

Import Orchestrator.

Variables Tree Output Error : Type.
Variable svc : Services Tree Output Error.

Local Abbreviation publish := (publish Tree Output Error svc).
Local Abbreviation loop := (loop Tree Output Error svc).
Local Abbreviation RunResult := (RunResult Error).

Lemma cycles_rev (t : list State) : cycles (rev t) = cycles t.
Proof. apply count_occ_rev. Qed.

Lemma publish_result a st (r : RunResult) :
  result_of _ (outcome _ (publish a st)) = Some r ->
  iterations _ r = a_iterations _ _ a /\
  final_errors _ r = a_final_errors _ _ a /\
  total_fixes _ r = a_total_fixes _ _ a.
Proof.
  unfold Orchestrator.publish. destruct (push _ _ _ svc _); simpl;
    intros [= <-]; auto.
Qed.

Lemma publish_finished a st (r : RunResult) :
  outcome _ (publish a st) = Finished _ r -> status _ r = st.
Proof.
  unfold Orchestrator.publish. destruct (push _ _ _ svc _); simpl;
    [intros [= <-]; reflexivity | discriminate].
Qed.

Lemma publish_cycles a st :
  cycles (trace _ (publish a st)) = cycles (a_trace _ _ a).
Proof.
  unfold Orchestrator.publish.
  destruct (push _ _ _ svc _); cbn [trace]; rewrite cycles_rev; reflexivity.
Qed.

(** What the loop leaves in a finished result obeys the derivation: the
    early PASSED exit has a final error count of zero, the other exits
    apply the derivation.  [a] is any accumulator. *)
Lemma loop_status budget : forall a (r : RunResult),
  outcome _ (loop budget a) = Finished _ r ->
  status _ r = derive_status (final_errors _ r) (total_fixes _ r).
Proof.
  induction budget as [|b IH]; intros a r; cbn [Orchestrator.loop].
  - intros H. pose proof (publish_finished _ _ _ H) as Hs.
    assert (Hr : result_of _ (outcome _ (publish a
                   (derive_status (a_final_errors _ _ a) (a_total_fixes _ _ a))))
                 = Some r) by (rewrite H; reflexivity).
    apply publish_result in Hr as (_ & -> & ->). exact Hs.
  - destruct (execute _ _ _ svc _) as [out|]; [|discriminate].
    destruct (parse _ _ _ svc out) as [|e errs] eqn:Hp.
    + intros H. pose proof (publish_finished _ _ _ H) as Hs.
      match type of H with outcome _ ?rep = _ =>
        assert (Hr : result_of _ (outcome _ rep) = Some r)
          by (rewrite H; reflexivity) end.
      apply publish_result in Hr as (_ & -> & _). exact Hs.
    + destruct (fix_all _ _ _ svc _ (e :: errs)) as [records tree'].
      destruct (Nat.eqb (count_fixed _ records) 0).
      * intros H. pose proof (publish_finished _ _ _ H) as Hs.
        match type of H with outcome _ ?rep = _ =>
          assert (Hr : result_of _ (outcome _ rep) = Some r)
            by (rewrite H; reflexivity) end.
        apply publish_result in Hr as (_ & -> & ->). exact Hs.
      * apply IH.
Qed.

Lemma cycles_testing (t : list State) : cycles (TESTING :: t) = S (cycles t).
Proof.
  unfold cycles. cbn [count_occ].
  destruct (State_eq_dec TESTING TESTING); [reflexivity | contradiction].
Qed.

Lemma cycles_other (s : State) (t : list State) :
  s <> TESTING -> cycles (s :: t) = cycles t.
Proof.
  intros H. unfold cycles. cbn [count_occ].
  destruct (State_eq_dec s TESTING); [contradiction | reflexivity].
Qed.

(** The loop adds at most [budget] rounds, the iteration counter and the
    TESTING states of the trace moving together. *)
Lemma loop_bound budget : forall a,
  a_iterations _ _ a = cycles (a_trace _ _ a) ->
  (cycles (trace _ (loop budget a)) <= a_iterations _ _ a + budget)%nat /\
  forall r : RunResult,
    result_of _ (outcome _ (loop budget a)) = Some r ->
    (iterations _ r <= a_iterations _ _ a + budget)%nat /\
    iterations _ r = cycles (trace _ (loop budget a)).
Proof.
  induction budget as [|b IH]; intros a Ha; cbn [Orchestrator.loop].
  - rewrite publish_cycles. split; [lia|].
    intros r Hr. apply publish_result in Hr as (-> & _). lia.
  - destruct (execute _ _ _ svc _) as [out|].
    2:{ cbn [trace outcome]. rewrite cycles_rev.
        rewrite cycles_other, cycles_testing by discriminate.
        split; [lia | discriminate]. }
    destruct (parse _ _ _ svc out) as [|e errs] eqn:Hp.
    + rewrite publish_cycles. cbn [a_trace a_iterations].
      rewrite cycles_other, cycles_testing by discriminate.
      split; [lia|].
      intros r Hr. apply publish_result in Hr as (-> & _).
      cbn [a_iterations]. lia.
    + destruct (fix_all _ _ _ svc _ (e :: errs)) as [records tree'].
      match goal with |- context [if _ then publish ?acc _ else _] =>
        set (a' := acc) end.
      assert (Ha' : a_iterations _ _ a' = cycles (a_trace _ _ a')).
      { subst a'. cbn [a_iterations a_trace].
        rewrite !cycles_other, cycles_testing by discriminate.
        rewrite Ha. reflexivity. }
      assert (Hi : a_iterations _ _ a' = S (a_iterations _ _ a)) by reflexivity.
      destruct (Nat.eqb (count_fixed _ records) 0).
      * rewrite publish_cycles, <- Ha', Hi. split; [lia|].
        intros r Hr. apply publish_result in Hr as (-> & _). lia.
      * destruct (IH a' Ha') as [H1 H2]. rewrite Hi in *. split; [lia|].
        intros r Hr. destruct (H2 r Hr) as [H3 H4]. split; [lia | exact H4].
Qed.

(** *** The counts of the result are those of the rounds *)

Lemma fixed_records_app (l1 l2 : list (FixRecord Error)) :
  fixed_records _ (l1 ++ l2)
  = (fixed_records _ l1 + fixed_records _ l2)%nat.
Proof. unfold fixed_records. rewrite map_app. apply count_occ_app. Qed.

Lemma count_fixed_records (l : list (FixRecord Error)) :
  count_fixed _ l = fixed_records _ l.
Proof.
  unfold count_fixed, fixed_records.
  induction l as [|fr l IH]; [reflexivity|].
  rewrite filter_cons. cbn [map count_occ].
  destruct (decide (is_fixed _ fr)) as [Hd | Hd]; unfold is_fixed in Hd;
    destruct (fr_status _ fr);
    destruct (FixStatus_eq_dec _ Fixed); try congruence;
    cbn [List.length]; try rewrite IH; try reflexivity;
    exfalso; try exact Hd; apply Hd; exact I.
Qed.

Lemma fixed_records_zero (l : list (FixRecord Error)) :
  fixed_records _ l = 0%nat <->
  forall fr, In fr l -> fr_status _ fr = Unfixed.
Proof.
  unfold fixed_records. induction l as [|fr l IH].
  - split; [intros _ fr [] | reflexivity].
  - cbn [map count_occ].
    destruct (FixStatus_eq_dec (fr_status _ fr) Fixed) as [E | E].
    + split; [discriminate|]. intros H.
      pose proof (H fr (or_introl eq_refl)). congruence.
    + rewrite IH. split.
      * intros H fr' [<- | Hin]; [|exact (H fr' Hin)].
        destruct (fr_status _ fr); [contradiction | reflexivity].
      * intros H fr' Hin. apply H. right. exact Hin.
Qed.

Lemma fixed_records_pos (l : list (FixRecord Error)) :
  (0 < fixed_records _ l)%nat <->
  exists fr, In fr l /\ fr_status _ fr = Fixed.
Proof.
  unfold fixed_records. split.
  - intros H. apply (proj2 (count_occ_In FixStatus_eq_dec _ _)) in H.
    apply in_map_iff in H as (fr & H1 & H2). exists fr. auto.
  - intros (fr & H1 & H2). apply (proj1 (count_occ_In FixStatus_eq_dec _ _)).
    apply in_map_iff. exists fr. auto.
Qed.

(** Every record carries the answer the fix engine gave for its error. *)
Lemma fix_all_answers (errors : list Error) :
  forall (t : Tree) (fr : FixRecord Error),
  In fr (fst (Orchestrator.fix_all _ _ _ svc t errors)) ->
  exists t', fst (apply_fix _ _ _ svc t' (fr_error _ fr)) = fr_status _ fr.
Proof.
  induction errors as [|e rest IH]; intros t fr; cbn [Orchestrator.fix_all];
    [intros []|].
  destruct (apply_fix _ _ _ svc t e) as [st t1] eqn:Ea.
  specialize (IH t1 fr).
  destruct (Orchestrator.fix_all _ _ _ svc t1 rest) as [records t2].
  cbn [fst] in *. intros [<- | Hin]; [|exact (IH Hin)].
  exists t. cbn [fr_error fr_status]. rewrite Ea. reflexivity.
Qed.

Lemma records_upto_answers n : forall tree (fr : FixRecord Error),
  In fr (records_upto _ _ _ svc n tree) ->
  exists t, fst (apply_fix _ _ _ svc t (fr_error _ fr)) = fr_status _ fr.
Proof.
  induction n as [|k IH]; intros tree fr; cbn [Orchestrator.records_upto];
    [intros []|].
  rewrite in_app_iff. intros [Hin | Hin]; [exact (IH _ _ Hin)|].
  unfold Orchestrator.records_of_round in Hin.
  destruct (tree_after _ _ _ svc k tree) as [t|]; [|destruct Hin].
  destruct (execute _ _ _ svc t) as [out|]; [|destruct Hin].
  exact (fix_all_answers _ _ _ Hin).
Qed.

(** The accumulator of the loop after some rounds from [tree0] agrees
    with the rounds, and so does the result the loop ends with. *)
Lemma loop_counts tree0 budget : forall a (r : RunResult),
  tree_after _ _ _ svc (a_iterations _ _ a) tree0 = Some (a_tree _ _ a) ->
  a_fixes _ _ a = records_upto _ _ _ svc (a_iterations _ _ a) tree0 ->
  a_total_fixes _ _ a = fixed_records _ (a_fixes _ _ a) ->
  (exists es : list Error,
     (forall k, a_iterations _ _ a = S k ->
        parse_of_round _ _ _ svc k tree0 = Some es) /\
     (a_iterations _ _ a = 0%nat -> es = []) /\
     a_final_errors _ _ a = List.length es) ->
  outcome _ (loop budget a) = Finished _ r ->
  exists final_parse : list Error,
    (forall k, iterations _ r = S k ->
       parse_of_round _ _ _ svc k tree0 = Some final_parse) /\
    (iterations _ r = 0%nat -> final_parse = []) /\
    fixes _ r = records_upto _ _ _ svc (iterations _ r) tree0 /\
    final_errors _ r = List.length final_parse /\
    total_fixes _ r = fixed_records _ (fixes _ r).
Proof.
  assert (Hpub : forall a st (r : RunResult),
            outcome _ (publish a st) = Finished _ r ->
            iterations _ r = a_iterations _ _ a /\
            final_errors _ r = a_final_errors _ _ a /\
            total_fixes _ r = a_total_fixes _ _ a /\
            fixes _ r = a_fixes _ _ a).
  { intros a st r. unfold Orchestrator.publish.
    destruct (push _ _ _ svc _); cbn [outcome]; [|discriminate].
    intros [= <-]. repeat split. }
  induction budget as [|b IH]; intros a r Ht Hf Hc Hes; cbn [Orchestrator.loop].
  - intros H. destruct (Hpub _ _ _ H) as (-> & -> & -> & ->).
    destruct Hes as (es & H1 & H2 & H3). exists es.
    repeat split; assumption.
  - destruct (execute _ _ _ svc (a_tree _ _ a)) as [out|] eqn:He;
      [|discriminate].
    assert (Hp : parse_of_round _ _ _ svc (a_iterations _ _ a) tree0
                 = Some (parse _ _ _ svc out)).
    { unfold Orchestrator.parse_of_round. rewrite Ht, He. reflexivity. }
    assert (Hr : records_of_round _ _ _ svc (a_iterations _ _ a) tree0
                 = fst (Orchestrator.fix_all _ _ _ svc (a_tree _ _ a)
                          (parse _ _ _ svc out))).
    { unfold Orchestrator.records_of_round. rewrite Ht, He. reflexivity. }
    assert (Hn : tree_after _ _ _ svc (S (a_iterations _ _ a)) tree0
                 = Some (snd (Orchestrator.fix_all _ _ _ svc (a_tree _ _ a)
                                (parse _ _ _ svc out)))).
    { cbn [Orchestrator.tree_after]. rewrite Ht, He. reflexivity. }
    destruct (parse _ _ _ svc out) as [|e errs] eqn:Hpe.
    + intros H. destruct (Hpub _ _ _ H) as (Hi & Hfe & Htf & Hfx).
      cbn [a_iterations a_final_errors a_total_fixes a_fixes] in *.
      exists []. rewrite Hi, Hfe, Htf, Hfx.
      split; [intros k [= <-]; exact Hp|].
      split; [reflexivity|].
      split; [cbn [Orchestrator.records_upto]; rewrite Hr;
              cbn [Orchestrator.fix_all fst]; rewrite app_nil_r; exact Hf|].
      split; [reflexivity | exact Hc].
    + destruct (Orchestrator.fix_all _ _ _ svc (a_tree _ _ a) (e :: errs))
        as [records tree'] eqn:Hfa.
      cbn [fst snd] in Hr, Hn.
      set (a' := mkAcc _ _ tree' (S (a_iterations _ _ a))
                   (List.length (e :: errs))
                   (a_total_fixes _ _ a + count_fixed _ records)
                   (a_fixes _ _ a ++ records)
                   (COMMITTING :: FIXING :: PARSING :: TESTING
                      :: a_trace _ _ a)).
      assert (Ht' : tree_after _ _ _ svc (a_iterations _ _ a') tree0
                    = Some (a_tree _ _ a')) by exact Hn.
      assert (Hf' : a_fixes _ _ a'
                    = records_upto _ _ _ svc (a_iterations _ _ a') tree0).
      { subst a'. cbn [a_fixes a_iterations Orchestrator.records_upto].
        rewrite Hr, Hf. reflexivity. }
      assert (Hc' : a_total_fixes _ _ a' = fixed_records _ (a_fixes _ _ a')).
      { subst a'. cbn [a_fixes a_total_fixes].
        rewrite fixed_records_app, count_fixed_records, Hc. reflexivity. }
      assert (Hes' : exists es : list Error,
                (forall k, a_iterations _ _ a' = S k ->
                   parse_of_round _ _ _ svc k tree0 = Some es) /\
                (a_iterations _ _ a' = 0%nat -> es = []) /\
                a_final_errors _ _ a' = List.length es).
      { exists (e :: errs). subst a'. cbn [a_iterations a_final_errors].
        split; [intros k [= <-]; exact Hp|].
        split; [discriminate | reflexivity]. }
      destruct (Nat.eqb (count_fixed _ records) 0).
      * intros H. destruct (Hpub _ _ _ H) as (Hi & Hfe & Htf & Hfx).
        destruct Hes' as (es & H1 & H2 & H3). exists es.
        rewrite Hi, Hfe, Htf, Hfx.
        repeat split; assumption.
      * exact (IH a' r Ht' Hf' Hc' Hes').
Qed.

End LoopFacts.

(** C1: in a run that ends normally the status is PASSED if the final
    parse found zero errors, FAILED if errors remain and no fix was
    applied in any iteration, and PARTIAL otherwise.  The final parse is
    that of the last round the run went through, the fixes are the
    records of all its rounds, each with the answer of the fix engine;
    the two counts of the result are the number of errors of that parse
    and the number of Fixed records, and the status is the derivation
    applied to them. *)
Theorem C1_status_is_derived
    (Tree Output Error : Type) (svc : Orchestrator.Services Tree Output Error)
    (tree : Tree) (maxRetries : nat) (r : Orchestrator.RunResult Error) :
  Orchestrator.outcome _
    (Orchestrator.runRemediation _ _ _ svc tree maxRetries)
  = Orchestrator.Finished _ r ->
  exists final_parse : list Error,
    (forall k, Orchestrator.iterations _ r = S k ->
       Orchestrator.parse_of_round _ _ _ svc k tree = Some final_parse) /\
    (Orchestrator.iterations _ r = 0%nat -> final_parse = []) /\
    Orchestrator.fixes _ r
    = Orchestrator.records_upto _ _ _ svc (Orchestrator.iterations _ r) tree /\
    (forall fr, In fr (Orchestrator.fixes _ r) ->
       exists t, fst (Orchestrator.apply_fix _ _ _ svc t
                        (Orchestrator.fr_error _ fr))
                 = Orchestrator.fr_status _ fr) /\
    Orchestrator.final_errors _ r = List.length final_parse /\
    Orchestrator.total_fixes _ r
    = Orchestrator.fixed_records _ (Orchestrator.fixes _ r) /\
    Orchestrator.status _ r
    = Orchestrator.derive_status (Orchestrator.final_errors _ r)
                                 (Orchestrator.total_fixes _ r) /\
    (Orchestrator.status _ r = Orchestrator.PASSED <-> final_parse = []) /\
    (Orchestrator.status _ r = Orchestrator.FAILED <->
       final_parse <> [] /\
       forall fr, In fr (Orchestrator.fixes _ r) ->
                  Orchestrator.fr_status _ fr = Orchestrator.Unfixed) /\
    (Orchestrator.status _ r = Orchestrator.PARTIAL <->
       final_parse <> [] /\
       exists fr, In fr (Orchestrator.fixes _ r) /\
                  Orchestrator.fr_status _ fr = Orchestrator.Fixed).
Proof.
  unfold Orchestrator.runRemediation.
  destruct (Orchestrator.detect _ _ _ svc tree); [|discriminate].
  intros H. pose proof (loop_status _ _ _ svc _ _ _ H) as Hst.
  assert (Hinv : exists es : list Error,
            (forall k, 0%nat = S k ->
               Orchestrator.parse_of_round _ _ _ svc k tree = Some es) /\
            (0%nat = 0%nat -> es = []) /\ 0%nat = List.length es).
  { exists []. repeat split; intros; try reflexivity; discriminate. }
  destruct (loop_counts _ _ _ svc tree maxRetries
              (Orchestrator.mkAcc _ _ tree 0 0 0 []
                 [Orchestrator.DETECTING; Orchestrator.INIT])
              r eq_refl eq_refl eq_refl Hinv H)
    as (final_parse & Hk & H0 & Hfx & Hfe & Htf).
  exists final_parse.
  split; [exact Hk|]. split; [exact H0|]. split; [exact Hfx|].
  split; [intros fr Hin; rewrite Hfx in Hin;
          exact (records_upto_answers _ _ _ svc _ _ _ Hin)|].
  split; [exact Hfe|]. split; [exact Htf|]. split; [exact Hst|].
  rewrite Hst, Hfe, Htf. unfold Orchestrator.derive_status.
  pose proof (fixed_records_zero _ (Orchestrator.fixes _ r)) as Hz.
  pose proof (fixed_records_pos _ (Orchestrator.fixes _ r)) as Hp.
  destruct final_parse as [|e es]; cbn [List.length Nat.eqb].
  - split; [|split].
    + split; reflexivity.
    + split; [discriminate | intros [Hne _]; contradiction].
    + split; [discriminate | intros [Hne _]; contradiction].
  - destruct (Orchestrator.fixed_records _ (Orchestrator.fixes _ r)) as [|n];
      cbn [Nat.eqb].
    + split; [|split].
      * split; discriminate.
      * split; [intros _; split; [discriminate | apply Hz; reflexivity]
               | reflexivity].
      * split; [discriminate|].
        intros [_ (fr & Hin & Hf)].
        pose proof (proj1 Hz eq_refl fr Hin) as Hu. congruence.
    + split; [|split].
      * split; discriminate.
      * split; [discriminate|].
        intros [_ Hall].
        assert (Hn : S n = 0%nat) by (apply Hz; exact Hall). discriminate.
      * split; [intros _; split; [discriminate | apply Hp; lia]
               | reflexivity].
Qed.

(** C1 at a run with three defects, of which each round fixes one, and a
    budget of two rounds: the second parse still finds two errors, two
    records say Fixed, the run ends PARTIAL. *)
Lemma C1_status_is_derived_witness :
  let svc := Samples.countdown in
  let r := Orchestrator.mkRunResult nat 2 2 2
             [Orchestrator.mkFixRecord nat 0%nat Orchestrator.Fixed;
              Orchestrator.mkFixRecord nat 1%nat Orchestrator.Unfixed;
              Orchestrator.mkFixRecord nat 2%nat Orchestrator.Unfixed;
              Orchestrator.mkFixRecord nat 0%nat Orchestrator.Fixed;
              Orchestrator.mkFixRecord nat 1%nat Orchestrator.Unfixed]
             Orchestrator.PARTIAL in
  Orchestrator.outcome _ (Orchestrator.runRemediation _ _ _ svc 3%nat 2%nat)
  = Orchestrator.Finished _ r /\
  exists final_parse : list nat,
    (forall k, Orchestrator.iterations _ r = S k ->
       Orchestrator.parse_of_round _ _ _ svc k 3%nat = Some final_parse) /\
    (Orchestrator.iterations _ r = 0%nat -> final_parse = []) /\
    Orchestrator.fixes _ r
    = Orchestrator.records_upto _ _ _ svc (Orchestrator.iterations _ r) 3%nat /\
    (forall fr, In fr (Orchestrator.fixes _ r) ->
       exists t, fst (Orchestrator.apply_fix _ _ _ svc t
                        (Orchestrator.fr_error _ fr))
                 = Orchestrator.fr_status _ fr) /\
    Orchestrator.final_errors _ r = List.length final_parse /\
    Orchestrator.total_fixes _ r
    = Orchestrator.fixed_records _ (Orchestrator.fixes _ r) /\
    Orchestrator.status _ r
    = Orchestrator.derive_status (Orchestrator.final_errors _ r)
                                 (Orchestrator.total_fixes _ r) /\
    (Orchestrator.status _ r = Orchestrator.PASSED <-> final_parse = []) /\
    (Orchestrator.status _ r = Orchestrator.FAILED <->
       final_parse <> [] /\
       forall fr, In fr (Orchestrator.fixes _ r) ->
                  Orchestrator.fr_status _ fr = Orchestrator.Unfixed) /\
    (Orchestrator.status _ r = Orchestrator.PARTIAL <->
       final_parse <> [] /\
       exists fr, In fr (Orchestrator.fixes _ r) /\
                  Orchestrator.fr_status _ fr = Orchestrator.Fixed).
Proof.
  intros svc r.
  assert (H : Orchestrator.outcome _
                (Orchestrator.runRemediation _ _ _ svc 3%nat 2%nat)
              = Orchestrator.Finished _ r) by reflexivity.
  split; [exact H|].
  exact (C1_status_is_derived nat nat nat svc 3%nat 2%nat r H).
Defined.

(** C2: the iteration count of the result a caller receives is at most
    [maxRetries]; it is the number of TESTING states the run went
    through, and no run, whatever its end, goes through more than
    [maxRetries] of them. *)
Theorem C2_iterations_bounded
    (Tree Output Error : Type) (svc : Orchestrator.Services Tree Output Error)
    (tree : Tree) (maxRetries : nat) (r : Orchestrator.RunResult Error) :
  Orchestrator.result_of _
    (Orchestrator.outcome _
       (Orchestrator.runRemediation _ _ _ svc tree maxRetries)) = Some r ->
  (Orchestrator.iterations _ r <= maxRetries)%nat /\
  Orchestrator.iterations _ r
  = Orchestrator.cycles
      (Orchestrator.trace _
         (Orchestrator.runRemediation _ _ _ svc tree maxRetries)) /\
  (Orchestrator.cycles
     (Orchestrator.trace _
        (Orchestrator.runRemediation _ _ _ svc tree maxRetries))
   <= maxRetries)%nat.
Proof.
  unfold Orchestrator.runRemediation.
  destruct (Orchestrator.detect _ _ _ svc tree); [|discriminate].
  intros H.
  destruct (loop_bound _ _ _ svc maxRetries
              (Orchestrator.mkAcc _ _ tree 0 0 0 [] [Orchestrator.DETECTING;
                                                    Orchestrator.INIT])
              eq_refl) as [H1 H2].
  destruct (H2 r H) as [H3 H4]. cbn [Orchestrator.a_iterations] in *.
  repeat split; [lia | exact H4 | lia].
Qed.

(** C2 at a run that uses up a budget of two rounds. *)
Lemma C2_iterations_bounded_witness :
  let run := Orchestrator.runRemediation _ _ _ Samples.countdown 3%nat 2%nat in
  let r := Orchestrator.mkRunResult nat 2 2 2
             [Orchestrator.mkFixRecord nat 0%nat Orchestrator.Fixed;
              Orchestrator.mkFixRecord nat 1%nat Orchestrator.Unfixed;
              Orchestrator.mkFixRecord nat 2%nat Orchestrator.Unfixed;
              Orchestrator.mkFixRecord nat 0%nat Orchestrator.Fixed;
              Orchestrator.mkFixRecord nat 1%nat Orchestrator.Unfixed]
             Orchestrator.PARTIAL in
  Orchestrator.result_of _ (Orchestrator.outcome _ run) = Some r /\
  (Orchestrator.iterations _ r <= 2)%nat /\
  Orchestrator.iterations _ r
  = Orchestrator.cycles (Orchestrator.trace _ run) /\
  (Orchestrator.cycles (Orchestrator.trace _ run) <= 2)%nat.
Proof.
  intros run r.
  assert (H : Orchestrator.result_of _ (Orchestrator.outcome _ run) = Some r)
    by reflexivity.
  split; [exact H|].
  exact (C2_iterations_bounded nat nat nat Samples.countdown 3%nat 2%nat r H).
Defined.

(** * Further properties of the code *)

(** ** The matcher finds only what the pattern matches *)

Section MatcherFacts.

Import Re ReSem.

Lemma append_assoc (a b c : string) : (a +:+ b) +:+ c = a +:+ (b +:+ c).
Proof.
  induction a as [|x a IH]; [reflexivity|].
  rewrite !append_cons, IH. reflexivity.
Qed.

Lemma length_append (a b : string) :
  String.length (a +:+ b) = (String.length a + String.length b)%nat.
Proof.
  induction a as [|x a IH]; [reflexivity|].
  rewrite append_cons. cbn [String.length]. rewrite IH. reflexivity.
Qed.

Lemma take_append (w s : string) :
  take (String.length (w +:+ s) - String.length s) (w +:+ s) = w.
Proof.
  rewrite length_append.
  replace (String.length w + String.length s - String.length s)%nat
    with (String.length w) by lia.
  induction w as [|x w IH]; [destruct s; reflexivity|].
  rewrite append_cons. cbn [String.length take]. rewrite IH. reflexivity.
Qed.

Lemma orelse_some (a b : option result) res :
  orelse a b = Some res -> a = Some res \/ b = Some res.
Proof. destruct a; simpl; intros H; [left | right]; exact H. Qed.

Lemma star_loop_sound ic r step g :
  sound_for ic r step ->
  forall fuel, sound_for ic (Star g r) (star_loop step g fuel).
Proof.
  intros Hstep fuel. induction fuel as [|f IH]; intros pos s cs k res H.
  - cbn [star_loop] in H. exists EmptyString, s, []. split; [reflexivity|].
    split; [constructor|]. cbn. rewrite Nat.add_0_r. exact H.
  - cbn [star_loop] in H.
    assert (Hmore :
      step pos s cs
        (fun pos' s' cs' =>
           if (String.length s' <? String.length s)%nat
           then star_loop step g f pos' s' cs' k else None) = Some res ->
      exists w s' c,
        s = w +:+ s' /\ Matches ic (Star g r) pos w c /\
        k (pos + String.length w)%nat s' (c ++ cs) = Some res).
    { intros Hm. destruct (Hstep _ _ _ _ _ Hm) as (w1 & s1 & c1 & -> & M1 & K1).
      destruct (String.length s1 <? String.length (w1 +:+ s1))%nat eqn:Hl;
        [|discriminate].
      apply Nat.ltb_lt in Hl. rewrite length_append in Hl.
      destruct (IH _ _ _ _ _ K1) as (w2 & s2 & c2 & -> & M2 & K2).
      exists (w1 +:+ w2), s2, (c2 ++ c1). split; [symmetry; apply append_assoc|].
      split.
      - apply M_StarS; [|exact M1 | exact M2].
        intros ->. cbn in Hl. lia.
      - rewrite length_append, Nat.add_assoc, <- List.app_assoc. exact K2. }
    assert (Hstop :
      k pos s cs = Some res ->
      exists w s' c,
        s = w +:+ s' /\ Matches ic (Star g r) pos w c /\
        k (pos + String.length w)%nat s' (c ++ cs) = Some res).
    { intros Hk. exists EmptyString, s, []. split; [reflexivity|].
      split; [constructor|]. cbn. rewrite Nat.add_0_r. exact Hk. }
    destruct g; apply orelse_some in H as [H | H]; auto.
Qed.

(** Soundness of the matcher: a result comes from a text the pattern
    matches, taken off the front of the subject, and from the
    continuation run after it. *)
Lemma m_sound ic r : sound_for ic r (m ic r).
Proof.
  induction r as [ | c | | neg items | | r1 IH1 r2 IH2 | r1 IH1 r2 IH2
                   | g r1 IH1 | g r1 IH1 | r1 IH1 | n r1 IH1];
    intros pos s cs k res H; cbn [m] in H.
  - exists EmptyString, s, []. split; [reflexivity|]. split; [constructor|].
    cbn. rewrite Nat.add_0_r. exact H.
  - destruct s as [|d s']; [discriminate|].
    destruct (chr_eq ic c d) eqn:E; [|discriminate].
    exists (String d EmptyString), s', []. split; [reflexivity|].
    split; [constructor; exact E|]. cbn. rewrite Nat.add_1_r. exact H.
  - destruct s as [|d s']; [discriminate|].
    destruct (Ascii.eqb d Py.LF) eqn:E; [discriminate|].
    exists (String d EmptyString), s', []. split; [reflexivity|].
    split; [constructor; exact E|]. cbn. rewrite Nat.add_1_r. exact H.
  - destruct s as [|d s']; [discriminate|].
    destruct (xorb neg (in_set ic items d)) eqn:E; [|discriminate].
    exists (String d EmptyString), s', []. split; [reflexivity|].
    split; [constructor; exact E|]. cbn. rewrite Nat.add_1_r. exact H.
  - destruct (Nat.eqb pos 0) eqn:E; [|discriminate].
    apply Nat.eqb_eq in E. subst pos.
    exists EmptyString, s, []. split; [reflexivity|]. split; [constructor|].
    exact H.
  - destruct (IH1 _ _ _ _ _ H) as (w1 & s1 & c1 & -> & M1 & K1).
    destruct (IH2 _ _ _ _ _ K1) as (w2 & s2 & c2 & -> & M2 & K2).
    exists (w1 +:+ w2), s2, (c2 ++ c1). split; [symmetry; apply append_assoc|].
    split; [constructor; assumption|].
    rewrite length_append, Nat.add_assoc, <- List.app_assoc. exact K2.
  - apply orelse_some in H as [H | H].
    + destruct (IH1 _ _ _ _ _ H) as (w & s' & c & E & M & K).
      exists w, s', c. split; [exact E|]. split; [apply M_AltL; exact M | exact K].
    + destruct (IH2 _ _ _ _ _ H) as (w & s' & c & E & M & K).
      exists w, s', c. split; [exact E|]. split; [apply M_AltR; exact M | exact K].
  - exact (star_loop_sound ic r1 (m ic r1) g IH1 _ _ _ _ _ _ H).
  - destruct (IH1 _ _ _ _ _ H) as (w1 & s1 & c1 & -> & M1 & K1).
    destruct (star_loop_sound ic r1 (m ic r1) g IH1 _ _ _ _ _ _ K1)
      as (w2 & s2 & c2 & -> & M2 & K2).
    exists (w1 +:+ w2), s2, (c2 ++ c1). split; [symmetry; apply append_assoc|].
    split; [constructor; assumption|].
    rewrite length_append, Nat.add_assoc, <- List.app_assoc. exact K2.
  - apply orelse_some in H as [H | H].
    + destruct (IH1 _ _ _ _ _ H) as (w & s' & c & E & M & K).
      exists w, s', c. split; [exact E|]. split; [apply M_OptS; exact M | exact K].
    + exists EmptyString, s, []. split; [reflexivity|]. split; [apply M_Opt0|].
      cbn. rewrite Nat.add_0_r. exact H.
  - destruct (IH1 _ _ _ _ _ H) as (w & s' & c & -> & M & K).
    exists w, s', ((n, w) :: c). split; [reflexivity|].
    split; [constructor; exact M|].
    rewrite take_append in K. exact K.
Qed.

Lemma match_at_sound ic r pos s mt :
  match_at ic r pos s = Some mt ->
  exists w s' c,
    s = w +:+ s' /\ Matches ic r pos w c /\ m_groups mt = (0%nat, w) :: c.
Proof.
  unfold match_at.
  destruct (m ic r pos s [] (fun _ s' cs => Some (cs, s')))
    as [[cs s']|] eqn:Hr; [|discriminate].
  destruct (m_sound ic r _ _ _ _ _ Hr) as (w & s1 & c & E & M & K).
  injection K as <- <-. subst s. intros [= <-].
  exists w, s1, c. cbn [m_groups].
  rewrite take_append, List.app_nil_r. repeat split. exact M.
Qed.

(** A match of [re.search] is a text the pattern matches, somewhere in
    the subject; group 0 is that text. *)
Lemma search_from_sound ic r s : forall pos mt,
  search_from ic r pos s = Some mt ->
  exists pre w post c,
    s = pre +:+ (w +:+ post) /\
    Matches ic r (pos + String.length pre) w c /\
    m_groups mt = (0%nat, w) :: c.
Proof.
  induction s as [|x s IH]; intros pos mt H; cbn [search_from] in H.
  - destruct (match_at ic r pos EmptyString) as [mt0|] eqn:Hm; [|discriminate].
    injection H as <-.
    destruct (match_at_sound _ _ _ _ _ Hm) as (w & s1 & c & E & M & G).
    exists EmptyString, w, s1, c. cbn [String.length].
    rewrite Nat.add_0_r. repeat split; assumption.
  - destruct (match_at ic r pos (String x s)) as [mt0|] eqn:Hm.
    + injection H as <-.
      destruct (match_at_sound _ _ _ _ _ Hm) as (w & s1 & c & E & M & G).
      exists EmptyString, w, s1, c. cbn [String.length].
      rewrite Nat.add_0_r. repeat split; assumption.
    + destruct (IH _ _ H) as (pre & w & post & c & E & M & G).
      exists (String x pre), w, post, c. rewrite append_cons, <- E.
      cbn [String.length]. rewrite Nat.add_succ_r. repeat split; assumption.
Qed.

Lemma search_sound ic r s mt :
  search ic r s = Some mt ->
  exists pre w post c,
    s = pre +:+ (w +:+ post) /\
    Matches ic r (String.length pre) w c /\
    m_groups mt = (0%nat, w) :: c.
Proof. apply search_from_sound. Qed.

End MatcherFacts.

(** ** What the locator patterns capture *)

Section LocatorFacts.

Import Re ReSem JavaScriptParser.

Lemma no_group_caps ic r pos w c :
  Matches ic r pos w c -> has_group r = false -> c = [].
Proof.
  induction 1; cbn [has_group]; intros Hg; try reflexivity;
    try (apply orb_false_iff in Hg as [Hg1 Hg2]); try discriminate; auto.
  - rewrite (IHMatches1 Hg1), (IHMatches2 Hg2). reflexivity.
  - rewrite (IHMatches1 Hg), (IHMatches2 Hg). reflexivity.
  - rewrite (IHMatches1 Hg), (IHMatches2 Hg). reflexivity.
Qed.

Lemma needs_char_found ch r pos w c :
  Matches false r pos w c -> needs_char ch r = true -> Py.no_char ch w = false.
Proof.
  induction 1; cbn [needs_char]; intros Hn; try discriminate.
  - cbn. unfold chr_eq in H. apply Ascii.eqb_eq in H. subst d.
    rewrite Hn. reflexivity.
  - rewrite no_char_app. apply orb_true_iff in Hn as [Hn | Hn].
    + rewrite (IHMatches1 Hn). reflexivity.
    + rewrite (IHMatches2 Hn). apply andb_false_r.
  - apply andb_true_iff in Hn as [Hn _]. auto.
  - apply andb_true_iff in Hn as [_ Hn]. auto.
  - rewrite no_char_app, (IHMatches1 Hn). reflexivity.
  - auto.
Qed.

Lemma all_chars_app f (a b : string) :
  all_chars f (a +:+ b) = all_chars f a && all_chars f b.
Proof.
  induction a as [|x a IH]; [reflexivity|].
  rewrite append_cons. cbn [all_chars]. rewrite IH. apply andb_assoc.
Qed.

(** A repetition of a character set matches only characters of the set. *)
Lemma star_cls_chars ic g neg items pos w c :
  Matches ic (Star g (Cls neg items)) pos w c ->
  all_chars (fun d => xorb neg (in_set ic items d)) w = true.
Proof.
  intros H. remember (Star g (Cls neg items)) as r eqn:Er.
  induction H; try discriminate; [reflexivity|].
  injection Er as -> ->. rewrite all_chars_app, (IHMatches2 eq_refl).
  inversion H0; subst. cbn [all_chars].
  match goal with E : xorb _ _ = true |- _ => rewrite E end. reflexivity.
Qed.

Lemma plus_cls_chars ic g neg items pos w c :
  Matches ic (Plus g (Cls neg items)) pos w c ->
  w <> EmptyString /\
  all_chars (fun d => xorb neg (in_set ic items d)) w = true.
Proof.
  intros H. inversion H as [| | | | | | | | | |g' r' pos' w1 w2 c1 c2 M1 M2| | |];
    subst.
  pose proof (star_cls_chars _ _ _ _ _ _ _ M2) as A2.
  inversion M1 as [| | |neg' items' d pos'' X| | | | | | | | | |]; subst.
  split; [discriminate|].
  change (String d EmptyString +:+ w2) with (String d w2).
  cbn [all_chars]. rewrite A2, X. reflexivity.
Qed.

Lemma digits_chars pos w c :
  Matches false digits pos w c ->
  w <> EmptyString /\ all_chars Py.is_digit w = true.
Proof.
  intros H. apply plus_cls_chars in H as [Hne Ha]. split; [exact Hne|].
  clear Hne. induction w as [|x w IH]; [reflexivity|].
  cbn [all_chars] in *. apply andb_true_iff in Ha as [Hx Hw].
  rewrite (IH Hw), andb_true_r.
  destruct (Py.is_digit x) eqn:E; [reflexivity|].
  unfold in_set in Hx. cbn [existsb in_cls andb] in Hx. rewrite E in Hx.
  discriminate.
Qed.

Lemma plus_nonempty ic g r pos w c :
  Matches ic (Plus g r) pos w c ->
  (forall pos' w' c', Matches ic r pos' w' c' -> w' <> EmptyString) ->
  w <> EmptyString.
Proof.
  intros H Hr. inversion H; subst.
  match goal with H1 : Matches _ r _ ?w1 _ |- _ =>
    specialize (Hr _ _ _ H1); destruct w1; [contradiction | discriminate] end.
Qed.

Lemma append_nonempty_l (a b : string) :
  a <> EmptyString -> a +:+ b <> EmptyString.
Proof. destruct a; [contradiction | discriminate]. Qed.

Lemma append_nonempty_r (a b : string) :
  b <> EmptyString -> a +:+ b <> EmptyString.
Proof. destruct a; [intros H; exact H | discriminate]. Qed.

Ltac split_cat :=
  repeat match goal with
         | H : Matches _ (Cat _ _) _ _ _ |- _ => inversion H; subst; clear H
         | H : Matches _ (Group _ _) _ _ _ |- _ => inversion H; subst; clear H
         end.

Ltac drop_caps :=
  repeat match goal with
         | H : Matches _ ?r _ _ ?c |- _ =>
             is_var c;
             let E := fresh "E" in
             assert (E : c = []) by (apply (no_group_caps _ _ _ _ _ H); reflexivity);
             subst c
         end.

Ltac facts :=
  repeat match goal with
         | H : Matches _ digits _ _ _ |- _ =>
             apply digits_chars in H; destruct H
         | H : Matches _ not_colon _ _ _ |- _ =>
             apply plus_cls_chars in H; destruct H as [? _]
         | H : Matches _ (Plus _ (Cls _ _)) _ _ _ |- _ =>
             apply plus_cls_chars in H; destruct H as [? _]
         end.

(** Every locator pattern captures a non-empty path as group 1 and a
    non-empty run of digits as group 2, and matches only text with a
    colon in it. *)
Lemma locator_groups pattern pos w c :
  In pattern file_line_patterns ->
  Matches false pattern pos w c ->
  exists g1 g2,
    group ((0%nat, w) :: c) 1 = Some g1 /\
    group ((0%nat, w) :: c) 2 = Some g2 /\
    g1 <> EmptyString /\ g2 <> EmptyString /\
    all_chars Py.is_digit g2 = true /\
    Py.no_char ":" w = false.
Proof.
  intros Hin HM.
  assert (Hcolon : Py.no_char ":" w = false).
  { apply (needs_char_found _ _ _ _ _ HM).
    unfold file_line_patterns in Hin. cbn [In] in Hin.
    destruct Hin as [<- | [<- | [<- | []]]]; reflexivity. }
  unfold file_line_patterns in Hin. cbn [In] in Hin.
  destruct Hin as [<- | [<- | [<- | []]]]; cbn [seq] in HM; split_cat;
    drop_caps; facts.
  - eexists. eexists. cbn [group Nat.eqb app].
    repeat split; try reflexivity; assumption.
  - eexists. eexists. cbn [group Nat.eqb app].
    repeat split; try reflexivity; try assumption.
    apply append_nonempty_r, append_nonempty_l. assumption.
  - eexists. eexists. cbn [group Nat.eqb app].
    repeat split; try reflexivity; assumption.
Qed.

End LocatorFacts.

(** ** More on the parser *)

Section ParserMore.

Import Re ReSem JavaScriptParser.

Lemma scan_patterns_classified patterns repo_path ln context e :
  scan_patterns patterns repo_path ln context = Some e ->
  (type e, message e) = _identify_error ln context.
Proof.
  induction patterns as [|p rest IH]; cbn [scan_patterns]; [discriminate|].
  destruct (Re.search false p ln) as [mt|]; [|exact IH].
  destruct (Py.contains "node_modules"
              (convert_path repo_path (group_text mt 1))); [exact IH|].
  destruct (_identify_error ln context) as [ty msg].
  intros [= <-]. reflexivity.
Qed.

(** A locator match gives groups 1 and 2 as [locator_groups] says. *)
Lemma locator_search pattern ln mt :
  In pattern file_line_patterns ->
  Re.search false pattern ln = Some mt ->
  group_text mt 1 <> EmptyString /\
  all_chars Py.is_digit (group_text mt 2) = true /\
  Py.no_char ":" ln = false.
Proof.
  intros Hin Hs.
  destruct (search_sound _ _ _ _ Hs) as (pre & w & post & c & E & M & G).
  destruct (locator_groups _ _ _ _ Hin M)
    as (g1 & g2 & G1 & G2 & N1 & N2 & D2 & C).
  unfold group_text, mgroup. rewrite G, G1, G2.
  repeat split; try assumption.
  subst ln. rewrite !no_char_app, C. apply andb_false_r.
Qed.

Lemma int_digits_nonneg (s : string) : forall acc,
  all_chars Py.is_digit s = true -> 0 <= acc -> 0 <= Py.int_digits acc s.
Proof.
  induction s as [|c s IH]; intros acc Hd Ha; cbn [Py.int_digits]; [exact Ha|].
  cbn [all_chars] in Hd. apply andb_true_iff in Hd as [Hc Hs].
  apply IH; [exact Hs|]. unfold Py.is_digit in Hc.
  apply andb_true_iff in Hc as [H1 _]. apply Nat.leb_le in H1. lia.
Qed.

Lemma convert_path_nonempty repo_path current_file :
  current_file <> EmptyString ->
  convert_path repo_path current_file <> EmptyString.
Proof.
  intros H. unfold convert_path.
  destruct (Py.startswith current_file "/workspace"); [|exact H].
  destruct repo_path as [p|]; [|exact H].
  destruct (String.eqb_spec p EmptyString) as [|Hp]; [exact H|].
  unfold Py.path_join.
  rewrite (lstrip_char_no_lead "/").
  destruct (String.eqb p EmptyString || Py.endswith p "/");
    apply append_nonempty_l; exact Hp.
Qed.

Lemma no_char_contains ch (s : string) :
  Py.no_char ch s = true -> Py.contains (String ch EmptyString) s = false.
Proof.
  induction s as [|c s IH]; [reflexivity|].
  cbn [Py.no_char Py.contains Py.startswith]. intros H.
  apply andb_true_iff in H as [H1 H2]. apply negb_true_iff in H1.
  rewrite Ascii.eqb_sym, H1, (IH H2). reflexivity.
Qed.

(** The pieces of a split have no character the whole does not have. *)
Lemma split_char_no_char ch sep (s : string) :
  Py.no_char ch s = true ->
  Forall (fun l => Py.no_char ch l = true) (Py.split_char sep s).
Proof.
  induction s as [|c s IH]; intros H; cbn [Py.split_char].
  - constructor; [reflexivity | constructor].
  - cbn [Py.no_char] in H. apply andb_true_iff in H as [H1 H2].
    specialize (IH H2). destruct (Ascii.eqb c sep).
    + constructor; [reflexivity | exact IH].
    + destruct (Py.split_char sep s) as [|l ls]; constructor.
      * cbn. rewrite H1. reflexivity.
      * constructor.
      * cbn [Py.no_char]. rewrite H1. inversion IH; subst. assumption.
      * inversion IH; assumption.
Qed.

Lemma scan_patterns_none patterns repo_path ln context :
  (forall p, In p patterns -> Re.search false p ln = None) ->
  scan_patterns patterns repo_path ln context = None.
Proof.
  induction patterns as [|p rest IH]; intros H; [reflexivity|].
  cbn [scan_patterns]. rewrite (H p (or_introl eq_refl)).
  apply IH. intros q Hq. apply H. right. exact Hq.
Qed.

Lemma identify_in_kinds combined :
  let r := identify_in error_patterns combined in
  (fst r = SYNTAX \/ fst r = TYPE_ERROR \/ fst r = IMPORT \/ fst r = LOGIC
   \/ r = (UNKNOWN, "Unknown error")).
Proof.
  unfold error_patterns. cbn [identify_in].
  repeat match goal with
         | |- context [match first_hit ?l ?c with _ => _ end] =>
             destruct (first_hit l c)
         end; cbn [fst]; auto 6.
Qed.

End ParserMore.

(** X1: every record of a parse result has a non-empty path and a line
    number that is not negative (the number is read from a non-empty run
    of digits). *)
Theorem X1_records_well_formed (test_output : string) (repo_path : option string) :
  Forall (fun e => file e <> EmptyString /\ 0 <= line e)
         (JavaScriptParser.parse_errors test_output repo_path).
Proof.
  apply List.Forall_forall. intros e Hin.
  destruct (scan_lines_sound _ _ _ Hin) as (ln & ctx & _ & Hscan).
  destruct (scan_patterns_sound _ _ _ _ _ Hscan)
    as (p & mt & Hp & Hs & Hf & Hl & _).
  destruct (locator_search _ _ _ Hp Hs) as (N1 & D2 & _).
  split.
  - rewrite Hf. apply convert_path_nonempty. exact N1.
  - rewrite Hl. apply int_digits_nonneg; [exact D2 | lia].
Qed.

(** X2: test output without any colon gives no record at all: every
    locator pattern needs a colon before the line number. *)
Theorem X2_no_colon_no_record (test_output : string) (repo_path : option string) :
  Py.no_char ":" test_output = true ->
  JavaScriptParser.parse_errors test_output repo_path = [].
Proof.
  intros H. unfold JavaScriptParser.parse_errors.
  pose proof (split_char_no_char ":" Py.LF test_output H) as Hl.
  induction (Py.split_char Py.LF test_output) as [|ln rest IH]; [reflexivity|].
  cbn [JavaScriptParser.scan_lines].
  inversion Hl as [|x l Hx Hrest]; subst.
  rewrite scan_patterns_none; [exact (IH Hrest)|].
  intros p Hp. destruct (Re.search false p ln) as [mt|] eqn:Hs; [|reflexivity].
  destruct (locator_search _ _ _ Hp Hs) as (_ & _ & C). congruence.
Qed.

(** X2 at the output of a runner that crashed before any test. *)
Lemma X2_no_colon_no_record_witness :
  Py.no_char ":" "npm ERR! missing script test" = true /\
  JavaScriptParser.parse_errors "npm ERR! missing script test" (Some "/host/repo")
  = [].
Proof.
  assert (H : Py.no_char ":" "npm ERR! missing script test" = true)
    by reflexivity.
  split; [exact H|].
  exact (X2_no_colon_no_record "npm ERR! missing script test"
           (Some "/host/repo") H).
Defined.

(** X3: the parser reports the kinds SYNTAX, TYPE_ERROR, IMPORT, LOGIC and
    UNKNOWN only (never LINTING or INDENTATION), and an UNKNOWN record
    always carries the message "Unknown error". *)
Theorem X3_record_kinds (test_output : string) (repo_path : option string) :
  Forall (fun e =>
            type e <> LINTING /\ type e <> INDENTATION /\
            (type e = UNKNOWN -> message e = "Unknown error"))
         (JavaScriptParser.parse_errors test_output repo_path).
Proof.
  apply List.Forall_forall. intros e Hin.
  destruct (scan_lines_sound _ _ _ Hin) as (ln & ctx & _ & Hscan).
  pose proof (scan_patterns_classified _ _ _ _ _ Hscan) as Hc.
  unfold JavaScriptParser._identify_error in Hc.
  pose proof (identify_in_kinds (JavaScriptParser.join_lines ctx)) as Hk.
  cbv zeta in Hk. rewrite <- Hc in Hk. cbn [fst] in Hk.
  destruct Hk as [K | [K | [K | [K | K]]]];
    try (rewrite K; repeat split; intros; discriminate).
  injection K as K1 K2. rewrite K1. repeat split; try discriminate.
  intros _. exact K2.
Qed.

(** X4: a record is classified LOGIC only through the patterns
    ReferenceError, RangeError and Maximum call stack: the pattern
    "is not defined" of the LOGIC list never decides, since the TYPE_ERROR
    list, tried before, has the same pattern. *)
Theorem X4_logic_not_defined_is_dead (ln : string) (context : list string)
    (msg : string) :
  JavaScriptParser._identify_error ln context = (LOGIC, msg) ->
  JavaScriptParser.first_hit
    [Re.lit "ReferenceError"; Re.lit "RangeError"; Re.lit "Maximum call stack"]
    (JavaScriptParser.join_lines context) = Some msg.
Proof.
  unfold JavaScriptParser._identify_error, JavaScriptParser.error_patterns.
  set (combined := JavaScriptParser.join_lines context).
  cbn [JavaScriptParser.identify_in JavaScriptParser.first_hit].
  repeat match goal with
         | |- context [match Re.search true ?p combined with _ => _ end] =>
             let E := fresh "E" in
             destruct (Re.search true p combined) eqn:E;
             try (intros [=]; fail)
         end;
    try discriminate; intros [= <-]; reflexivity.
Qed.

(** X4 at a stack overflow. *)
Lemma X4_logic_not_defined_is_dead_witness :
  JavaScriptParser._identify_error "at f (a.js:1:2)"
    ["at f (a.js:1:2)"; "RangeError: Maximum call stack size exceeded"]
  = (LOGIC, "RangeError") /\
  JavaScriptParser.first_hit
    [Re.lit "ReferenceError"; Re.lit "RangeError"; Re.lit "Maximum call stack"]
    (JavaScriptParser.join_lines
       ["at f (a.js:1:2)"; "RangeError: Maximum call stack size exceeded"])
  = Some "RangeError".
Proof.
  assert (H : JavaScriptParser._identify_error "at f (a.js:1:2)"
                ["at f (a.js:1:2)";
                 "RangeError: Maximum call stack size exceeded"]
              = (LOGIC, "RangeError")) by (vm_compute; reflexivity).
  split; [exact H|].
  exact (X4_logic_not_defined_is_dead _ _ _ H).
Defined.

(** ** More on the fixer *)

Section FixerMore.

Import JavaScriptFixer Edits.

Lemma with_file_frame edit error fs p :
  p <> file error -> snd (with_file edit error fs) !! p = fs !! p.
Proof.
  intros Hp. unfold with_file.
  destruct (read_lines fs (file error)) as [lines|]; [|reflexivity].
  destruct (edit error lines) as [lines'|]; [|reflexivity].
  unfold write_lines.
  destruct (fs !! file error) as [f|]; [destruct (f_writable f)|];
    cbn [snd]; try reflexivity; apply lookup_insert_ne; congruence.
Qed.

Lemma with_file_false edit error fs :
  fst (with_file edit error fs) = false -> snd (with_file edit error fs) = fs.
Proof.
  unfold with_file.
  destruct (read_lines fs (file error)) as [lines|]; [|reflexivity].
  destruct (edit error lines) as [lines'|]; [|reflexivity].
  destruct (write_lines fs (file error) lines'); [discriminate | reflexivity].
Qed.

Lemma norm_index_range {A} (l : list A) i k :
  Py.norm_index l i = Some k -> (k < List.length l)%nat.
Proof.
  unfold Py.norm_index.
  destruct ((0 <=? i) && (i <? Z.of_nat (List.length l))) eqn:E1.
  - intros [= <-]. apply andb_true_iff in E1 as [H0 H1].
    apply Z.leb_le in H0. apply Z.ltb_lt in H1. lia.
  - destruct ((- Z.of_nat (List.length l) <=? i) && (i <? 0)) eqn:E2;
      [|discriminate].
    intros [= <-]. apply andb_true_iff in E2 as [H0 H1].
    apply Z.leb_le in H0. apply Z.ltb_lt in H1. lia.
Qed.

Lemma norm_index_outside {A} (l : list A) i :
  Z.of_nat (List.length l) <= i \/ i < - Z.of_nat (List.length l) ->
  Py.norm_index l i = None.
Proof.
  intros H. unfold Py.norm_index.
  destruct ((0 <=? i) && (i <? Z.of_nat (List.length l))) eqn:E1.
  - apply andb_true_iff in E1 as [H0 H1].
    apply Z.leb_le in H0. apply Z.ltb_lt in H1. lia.
  - destruct ((- Z.of_nat (List.length l) <=? i) && (i <? 0)) eqn:E2;
      [|reflexivity].
    apply andb_true_iff in E2 as [H0 H1].
    apply Z.leb_le in H0. apply Z.ltb_lt in H1. lia.
Qed.

Lemma setitem_replaces (lines lines' : list string) i v :
  Py.setitem lines i v = Some lines' ->
  exists k, Py.norm_index lines i = Some k /\ replaces_line k lines lines'.
Proof.
  unfold Py.setitem.
  destruct (Py.norm_index lines i) as [k|] eqn:E; [|discriminate].
  intros [= <-]. exists k. split; [reflexivity|].
  pose proof (norm_index_range _ _ _ E) as Hk.
  destruct (nth_error lines k) as [old|] eqn:Hn.
  - exists old, v. split; [exact Hn | reflexivity].
  - apply nth_error_None in Hn. lia.
Qed.

Lemma insert_inserts (lines : list string) i v :
  exists k, inserts_line k lines (Py.insert lines i v).
Proof.
  unfold Py.insert.
  set (n := Z.of_nat (List.length lines)).
  set (j := if i <? 0 then Z.max 0 (n + i) else Z.min i n).
  exists (Z.to_nat j). split; [|exists v; reflexivity].
  subst j n. destruct (i <? 0) eqn:E; [apply Z.ltb_lt in E | apply Z.ltb_ge in E];
    lia.
Qed.

Lemma getitem_outside {A} (l : list A) i :
  Z.of_nat (List.length l) <= i \/ i < - Z.of_nat (List.length l) ->
  Py.getitem l i = None.
Proof. intros H. unfold Py.getitem. rewrite norm_index_outside by exact H. reflexivity. Qed.

Lemma norm_index_last {A} (l : list A) :
  l <> [] ->
  Py.norm_index l (0 - 1) = Py.norm_index l (Z.of_nat (List.length l) - 1).
Proof.
  intros Hne. assert (Hl : (0 < List.length l)%nat)
    by (destruct l; [contradiction | simpl; lia]).
  unfold Py.norm_index.
  replace ((0 <=? 0 - 1) && (0 - 1 <? Z.of_nat (List.length l))) with false
    by reflexivity.
  replace ((- Z.of_nat (List.length l) <=? 0 - 1) && (0 - 1 <? 0)) with true.
  2:{ symmetry. apply andb_true_iff. split; [apply Z.leb_le; lia | reflexivity]. }
  replace ((0 <=? Z.of_nat (List.length l) - 1)
           && (Z.of_nat (List.length l) - 1 <? Z.of_nat (List.length l)))
    with true.
  2:{ symmetry. apply andb_true_iff.
      split; [apply Z.leb_le | apply Z.ltb_lt]; lia. }
  f_equal; lia.
Qed.

Lemma nth_error_last {A} (l : list A) (d : A) :
  l <> [] -> nth_error l (List.length l - 1) = Some (List.last l d).
Proof.
  induction l as [|x [|y l] IH]; [contradiction | reflexivity |].
  intros _.
  replace (List.length (x :: y :: l) - 1)%nat
    with (S (List.length (y :: l) - 1)) by (simpl; lia).
  cbn [nth_error]. rewrite IH by discriminate. reflexivity.
Qed.

Lemma insert_last {A} (l : list A) v :
  l <> [] ->
  Py.insert l (0 - 1) v = Py.insert l (Z.of_nat (List.length l) - 1) v.
Proof.
  intros Hne. assert (Hl : (0 < List.length l)%nat)
    by (destruct l; [contradiction | simpl; lia]).
  unfold Py.insert.
  replace (0 - 1 <? 0) with true by reflexivity.
  replace (Z.of_nat (List.length l) - 1 <? 0) with false
    by (symmetry; apply Z.ltb_ge; lia).
  replace (Z.max 0 (Z.of_nat (List.length l) + (0 - 1)))
    with (Z.min (Z.of_nat (List.length l) - 1) (Z.of_nat (List.length l)))
    by lia.
  reflexivity.
Qed.

End FixerMore.

(** X5: [fix_error] leaves every file but the one of the record as it is,
    and when it answers [False] it leaves the whole store as it is. *)
Theorem X5_fix_error_frame (error : ErrorInfo) (fs : FS) :
  (forall p, p <> file error ->
     snd (JavaScriptFixer.fix_error error fs) !! p = fs !! p) /\
  (fst (JavaScriptFixer.fix_error error fs) = false ->
     snd (JavaScriptFixer.fix_error error fs) = fs).
Proof.
  unfold JavaScriptFixer.fix_error, JavaScriptFixer._fix_syntax,
    JavaScriptFixer._fix_type_error, JavaScriptFixer._fix_import.
  split.
  - intros p Hp. destruct (type error); try reflexivity;
      apply with_file_frame; exact Hp.
  - destruct (type error); try reflexivity; apply with_file_false.
Qed.

(** X6: a record whose line number lies beyond the end of the file (or
    as far below zero) is not fixed: [lines[line_idx]] raises, the
    handler answers [False] and nothing is written. *)
Theorem X6_line_out_of_range (error : ErrorInfo) (fs : FS) (f : File) :
  fs !! file error = Some f ->
  Z.of_nat (List.length (Py.readlines (f_data f))) < line error \/
  line error <= - Z.of_nat (List.length (Py.readlines (f_data f))) ->
  JavaScriptFixer.fix_error error fs = (false, fs).
Proof.
  intros Hf Hl.
  assert (Hg : Py.getitem (Py.readlines (f_data f)) (line error - 1) = None)
    by (apply getitem_outside; lia).
  unfold JavaScriptFixer.fix_error, JavaScriptFixer._fix_syntax,
    JavaScriptFixer._fix_type_error, JavaScriptFixer._fix_import,
    JavaScriptFixer.with_file, read_lines.
  rewrite Hf.
  destruct (type error); try reflexivity;
    destruct (f_readable f); try reflexivity;
    unfold JavaScriptFixer.syntax_edit, JavaScriptFixer.type_error_edit,
      JavaScriptFixer.import_edit; rewrite Hg; reflexivity.
Qed.

(** X6 at line 7 of a file of two lines. *)
Lemma X6_line_out_of_range_witness :
  let fs := Samples.one_file "app.js" Samples.unclosed_function in
  let f := mkFile Samples.unclosed_function true true in
  let error := Edits.at_line Samples.missing_brace 7 in
  fs !! file error = Some f /\
  (Z.of_nat (List.length (Py.readlines (f_data f))) < line error \/
   line error <= - Z.of_nat (List.length (Py.readlines (f_data f)))) /\
  JavaScriptFixer.fix_error error fs = (false, fs).
Proof.
  intros fs f error.
  assert (H1 : fs !! file error = Some f) by reflexivity.
  assert (H2 : Z.of_nat (List.length (Py.readlines (f_data f))) < line error \/
               line error <= - Z.of_nat (List.length (Py.readlines (f_data f))))
    by (left; reflexivity).
  split; [exact H1|]. split; [exact H2|].
  exact (X6_line_out_of_range error fs f H1 H2).
Defined.

(** X7: a record with line 0 is not rejected.  The index -1 it leads to
    is the last line: [_fix_import] and [_fix_type_error] edit the lines
    as they would for the number of the last line, and the brace rule of
    [_fix_syntax] puts its brace line, with the indentation of the last
    line, at the top of the file. *)
Theorem X7_line_zero_is_last_line (error : ErrorInfo) (lines : list string) :
  line error = 0 -> lines <> [] ->
  JavaScriptFixer.import_edit error lines
  = JavaScriptFixer.import_edit
      (Edits.at_line error (Z.of_nat (List.length lines))) lines /\
  JavaScriptFixer.type_error_edit error lines
  = JavaScriptFixer.type_error_edit
      (Edits.at_line error (Z.of_nat (List.length lines))) lines /\
  (Py.contains "missing ;" (Py.lower (message error)) = false ->
   Py.contains "missing }" (Py.lower (message error)) = true ->
   JavaScriptFixer.syntax_edit error lines
   = Some ((Py.repeat_char " " (JavaScriptFixer.indent_of (List.last lines EmptyString))
              +:+ "}" +:+ Py.nl) :: lines)).
Proof.
  intros H0 Hne.
  assert (Hg : Py.getitem lines (0 - 1)
               = Py.getitem lines (Z.of_nat (List.length lines) - 1))
    by (unfold Py.getitem; rewrite norm_index_last by exact Hne; reflexivity).
  assert (Hs : forall v, Py.setitem lines (0 - 1) v
               = Py.setitem lines (Z.of_nat (List.length lines) - 1) v)
    by (intros v; unfold Py.setitem; rewrite norm_index_last by exact Hne;
        reflexivity).
  unfold JavaScriptFixer.import_edit, JavaScriptFixer.type_error_edit,
    JavaScriptFixer.syntax_edit, Edits.at_line.
  cbn [line message]. rewrite H0, Hg.
  split; [|split].
  - destruct (Py.getitem lines (Z.of_nat (List.length lines) - 1));
      [|reflexivity]. rewrite Hs. reflexivity.
  - destruct (Py.getitem lines (Z.of_nat (List.length lines) - 1));
      [|reflexivity]. rewrite Hs.
    destruct (JavaScriptFixer.search_undefined_var (message error));
      [rewrite insert_last by exact Hne|]; reflexivity.
  - intros Hsemi Hbrace. rewrite Hsemi, Hbrace.
    assert (Hlast : Py.getitem lines (Z.of_nat (List.length lines) - 1)
                    = Some (List.last lines EmptyString)).
    { unfold Py.getitem. rewrite <- norm_index_last by exact Hne.
      unfold Py.norm_index.
      replace ((0 <=? 0 - 1) && (0 - 1 <? Z.of_nat (List.length lines)))
        with false by reflexivity.
      assert (Hl : (0 < List.length lines)%nat)
        by (destruct lines; [contradiction | simpl; lia]).
      replace ((- Z.of_nat (List.length lines) <=? 0 - 1) && (0 - 1 <? 0))
        with true.
      2:{ symmetry. apply andb_true_iff.
          split; [apply Z.leb_le; lia | reflexivity]. }
      replace (Z.to_nat (Z.of_nat (List.length lines) + (0 - 1)))
        with (List.length lines - 1)%nat by lia.
      apply nth_error_last. exact Hne. }
    rewrite Hlast. f_equal. unfold Py.insert.
    change (0 - 1 + 1 <? 0) with false. cbv iota.
    rewrite Z.min_l by lia. destruct lines; reflexivity.
Qed.

(** X7 at a record with line 0 against a file of two lines. *)
Lemma X7_line_zero_is_last_line_witness :
  let error := Edits.at_line Samples.missing_brace 0 in
  let lines := ["function f() {" +:+ Py.nl; "  return 1;" +:+ Py.nl] in
  line error = 0 /\ lines <> [] /\
  JavaScriptFixer.import_edit error lines
  = JavaScriptFixer.import_edit
      (Edits.at_line error (Z.of_nat (List.length lines))) lines /\
  JavaScriptFixer.type_error_edit error lines
  = JavaScriptFixer.type_error_edit
      (Edits.at_line error (Z.of_nat (List.length lines))) lines /\
  (Py.contains "missing ;" (Py.lower (message error)) = false ->
   Py.contains "missing }" (Py.lower (message error)) = true ->
   JavaScriptFixer.syntax_edit error lines
   = Some ((Py.repeat_char " " (JavaScriptFixer.indent_of (List.last lines EmptyString))
              +:+ "}" +:+ Py.nl) :: lines)).
Proof.
  intros error lines.
  assert (H1 : line error = 0) by reflexivity.
  assert (H2 : lines <> []) by discriminate.
  split; [exact H1|]. split; [exact H2|].
  exact (X7_line_zero_is_last_line error lines H1 H2).
Defined.

Section LocalityFacts.

Import JavaScriptFixer Edits.

Lemma replaces_length k (lines lines' : list string) :
  replaces_line k lines lines' -> List.length lines' = List.length lines.
Proof.
  intros (old & new & Hn & ->).
  assert (Hk : (k < List.length lines)%nat)
    by (apply nth_error_Some; congruence).
  rewrite List.length_app, List.length_firstn. cbn [List.length].
  rewrite List.length_skipn. lia.
Qed.

Lemma inserts_length k (lines lines' : list string) :
  inserts_line k lines lines' -> List.length lines' = S (List.length lines).
Proof.
  intros (Hk & new & ->).
  rewrite List.length_app, List.length_firstn. cbn [List.length].
  rewrite List.length_skipn. lia.
Qed.

Lemma setitem_local error lines lines' v :
  Py.setitem lines (line error - 1) v = Some lines' ->
  local_shape error lines lines'.
Proof.
  intros H. right. left. destruct (setitem_replaces _ _ _ _ H) as (k & Hk & Hr).
  exists k. split; assumption.
Qed.

Lemma insert_local error lines i v :
  local_shape error lines (Py.insert lines i v).
Proof. right. right. apply insert_inserts. Qed.

End LocalityFacts.

(** X8: the edits of the three handlers are local.  Whatever the record
    and the file, the lines written back are the lines read, or the lines
    read with the one line the record points at replaced, or the lines
    read with one line put in; no line is ever dropped and no other line
    is changed. *)
Theorem X8_edits_are_local (error : ErrorInfo) (lines lines' : list string) :
  JavaScriptFixer.syntax_edit error lines = Some lines' \/
  JavaScriptFixer.type_error_edit error lines = Some lines' \/
  JavaScriptFixer.import_edit error lines = Some lines' ->
  Edits.local_shape error lines lines' /\
  (List.length lines <= List.length lines' <= S (List.length lines))%nat.
Proof.
  intros H.
  assert (L : Edits.local_shape error lines lines').
  { destruct H as [H | [H | H]]; revert H;
      unfold JavaScriptFixer.syntax_edit, JavaScriptFixer.type_error_edit,
        JavaScriptFixer.import_edit;
      destruct (Py.getitem lines (line error - 1)) as [ln|]; try discriminate;
      repeat match goal with
             | |- context [if ?b then _ else _] => destruct b
             | |- context [match JavaScriptFixer.search_undefined_var ?x with _ => _ end] =>
                 destruct (JavaScriptFixer.search_undefined_var x)
             end;
      intros H;
      first [ injection H as <-; (left; reflexivity) || apply insert_local
            | apply (setitem_local _ _ _ _ H) ]. }
  split; [exact L|].
  destruct L as [-> | [(k & _ & R) | (k & I)]].
  - lia.
  - rewrite (replaces_length _ _ _ R). lia.
  - rewrite (inserts_length _ _ _ I). lia.
Qed.

(** X8 at the brace rule on the sample file. *)
Lemma X8_edits_are_local_witness :
  let lines := ["function f() {" +:+ Py.nl; "  return 1;" +:+ Py.nl] in
  let lines' := ["function f() {" +:+ Py.nl; "}" +:+ Py.nl;
                 "  return 1;" +:+ Py.nl] in
  (JavaScriptFixer.syntax_edit Samples.missing_brace lines = Some lines' \/
   JavaScriptFixer.type_error_edit Samples.missing_brace lines = Some lines' \/
   JavaScriptFixer.import_edit Samples.missing_brace lines = Some lines') /\
  Edits.local_shape Samples.missing_brace lines lines' /\
  (List.length lines <= List.length lines' <= S (List.length lines))%nat.
Proof.
  intros lines lines'.
  assert (H : JavaScriptFixer.syntax_edit Samples.missing_brace lines = Some lines' \/
              JavaScriptFixer.type_error_edit Samples.missing_brace lines = Some lines' \/
              JavaScriptFixer.import_edit Samples.missing_brace lines = Some lines')
    by (left; reflexivity).
  split; [exact H|].
  exact (X8_edits_are_local Samples.missing_brace lines lines' H).
Defined.

(** ** The semicolon rule and the const rule run twice *)

Section SyntaxTwice.

Import Py JavaScriptFixer.

Lemma drop_append (s t : string) : drop (String.length s) (s +:+ t) = t.
Proof.
  induction s as [|c s IH]; [destruct t; reflexivity|].
  rewrite append_cons. cbn [String.length drop]. exact IH.
Qed.

Lemma endswith_append (s p : string) : endswith (s +:+ p) p = true.
Proof.
  unfold endswith. rewrite length_append.
  replace (String.length s + String.length p - String.length p)%nat
    with (String.length s) by lia.
  rewrite drop_append, String.eqb_refl, andb_true_r.
  apply Nat.leb_le. lia.
Qed.

(** Stripping a text that ends in a printing character and a newline
    takes off the newline only. *)
Lemma rstrip_terminated (s : string) (c : ascii) :
  isspace c = false ->
  rstrip (s +:+ String c (String LF EmptyString)) = s +:+ String c EmptyString.
Proof.
  intros Hc. induction s as [|x s IH].
  - change (EmptyString +:+ String c (String LF EmptyString))
      with (String c (String LF EmptyString)).
    cbn. rewrite Hc. reflexivity.
  - rewrite !append_cons. cbn [rstrip]. rewrite IH.
    destruct s; reflexivity.
Qed.

Lemma rstrip_no_char ch (s : string) :
  no_char ch s = true -> no_char ch (rstrip s) = true.
Proof.
  induction s as [|c s IH]; [reflexivity|].
  cbn [no_char rstrip]. intros H. apply andb_true_iff in H as [H1 H2].
  specialize (IH H2). destruct (rstrip s) as [|d r].
  - destruct (isspace c); [reflexivity|]. cbn. rewrite H1. reflexivity.
  - cbn [no_char] in *. rewrite H1, IH. reflexivity.
Qed.

(** A terminated line stripped has no newline left. *)
Lemma rstrip_full_line (s : string) :
  is_full_line s = true -> no_char LF (rstrip s) = true.
Proof.
  induction s as [|c s IH]; [discriminate|].
  cbn [is_full_line rstrip]. destruct (Ascii.eqb c LF) eqn:Ec.
  - intros H. apply String.eqb_eq in H. subst s. cbn [rstrip].
    apply Ascii.eqb_eq in Ec. subst c. reflexivity.
  - intros H. specialize (IH H). destruct (rstrip s) as [|d r].
    + destruct (isspace c); [reflexivity|]. cbn. rewrite Ec. reflexivity.
    + cbn [no_char] in *. rewrite Ec, IH. reflexivity.
Qed.

Lemma full_line_terminated (s : string) :
  no_char LF s = true -> is_full_line (s +:+ nl) = true.
Proof.
  induction s as [|c s IH]; [reflexivity|].
  rewrite append_cons. cbn [no_char is_full_line]. intros H.
  apply andb_true_iff in H as [H1 H2]. apply negb_true_iff in H1.
  rewrite H1. exact (IH H2).
Qed.

Lemma ok_kinds_member ks k :
  ok_kinds ks = true -> In k ks ->
  (k_full k || k_open k) && k_no_cr k = true.
Proof.
  induction ks as [|a rest IH]; [contradiction|].
  cbn [ok_kinds]. intros Hok [<- | Hin].
  - destruct rest.
    + apply andb_true_iff in Hok as [H _]. exact H.
    + apply andb_true_iff in Hok as [H _].
      apply andb_true_iff in H as [H1 H2]. rewrite H1, H2. reflexivity.
  - destruct rest; [contradiction|].
    apply andb_true_iff in Hok as [_ H]. exact (IH H Hin).
Qed.

Lemma ok_kinds_replace pre k k' post :
  ok_kinds (pre ++ k :: post) = true ->
  k_full k' = true -> k_no_cr k' = true -> k_nonempty k' = true ->
  ok_kinds (pre ++ k' :: post) = true.
Proof.
  intros Hok Hf Hc Hn. induction pre as [|a pre IH].
  - cbn [app ok_kinds] in *. destruct post.
    + rewrite Hf, Hc, Hn. reflexivity.
    + apply andb_true_iff in Hok as [_ H]. rewrite Hf, Hc, H. reflexivity.
  - cbn [app ok_kinds] in *.
    destruct pre; cbn [app] in *;
      apply andb_true_iff in Hok as [H1 H2]; rewrite H1; exact (IH H2).
Qed.

Lemma skipn_nth {A} (l : list A) k x :
  nth_error l k = Some x -> skipn k l = x :: skipn (S k) l.
Proof.
  revert k. induction l as [|y l IH]; intros k H.
  - destruct k; discriminate.
  - destruct k; cbn in *; [|apply IH; exact H].
    injection H as ->. destruct l; reflexivity.
Qed.

Lemma getitem_In {A} (l : list A) i x : getitem l i = Some x -> In x l.
Proof.
  unfold getitem. destruct (norm_index l i); [|discriminate].
  apply nth_error_In.
Qed.

(** Replacing a line by a terminated line without CR keeps the lines
    well shaped. *)
Lemma setitem_full (lines lines' : list string) i old v :
  lines_ok lines = true -> getitem lines i = Some old ->
  is_full_line v = true -> no_char CR v = true ->
  setitem lines i v = Some lines' -> lines_ok lines' = true.
Proof.
  unfold getitem, setitem, lines_ok.
  destruct (norm_index lines i) as [k|]; [|discriminate].
  intros Hok Hn Hf Hc [= <-].
  pose proof (firstn_skipn k lines) as Hl. rewrite (skipn_nth _ _ _ Hn) in Hl.
  rewrite <- Hl in Hok. rewrite map_app in *. cbn [map] in *.
  apply (ok_kinds_replace _ _ _ _ Hok); cbn; try assumption.
  destruct v; [discriminate | reflexivity].
Qed.

Lemma setitem_same {A} (l : list A) i x :
  getitem l i = Some x -> setitem l i x = Some l.
Proof.
  unfold getitem, setitem. destruct (norm_index l i) as [k|]; [|discriminate].
  intros H. f_equal. rewrite <- (skipn_nth _ _ _ H). apply firstn_skipn.
Qed.

(** *** [replace('const ', 'let ')] *)

Lemma startswith_split (s p : string) :
  startswith s p = true -> s = p +:+ drop (String.length p) s.
Proof.
  revert s. induction p as [|a p IH]; intros s H; [destruct s; reflexivity|].
  destruct s as [|b s]; [discriminate|]. cbn [startswith] in H.
  apply andb_true_iff in H as [H1 H2]. apply Ascii.eqb_eq in H1. subst b.
  rewrite append_cons. cbn [String.length drop]. f_equal. exact (IH _ H2).
Qed.

Lemma contains_false_startswith sub (s : string) :
  contains sub s = false -> startswith s sub = false.
Proof. destruct s; cbn [contains]; intros H; apply orb_false_iff in H as [H _]; exact H. Qed.

(** The text replaced in starts with [p] only where the original does,
    for a [p] without the letter l. *)
Lemma replace_keeps_start (p : string) : forall fuel s,
  no_char "l" p = true ->
  startswith (replace_fuel fuel "const " "let " s) p = true ->
  startswith s p = true.
Proof.
  induction p as [|a p IH]; intros fuel s Hp H; [reflexivity|].
  cbn [no_char] in Hp. apply andb_true_iff in Hp as [Ha Hp].
  destruct fuel as [|k]; [exact H|]. cbn [replace_fuel] in H.
  destruct s as [|c r]; [discriminate|].
  destruct (startswith (String c r) "const ").
  - change ("let " +:+ replace_fuel k "const " "let "
                        (drop (String.length "const ") (String c r)))
      with (String "l" ("et " +:+ replace_fuel k "const " "let "
                        (drop (String.length "const ") (String c r)))) in H.
    cbn [startswith] in H. apply negb_true_iff in Ha. rewrite Ha in H.
    discriminate.
  - cbn [startswith] in *. apply andb_true_iff in H as [H1 H2].
    rewrite H1. exact (IH _ _ Hp H2).
Qed.

(** After the replacement no ['const '] is left. *)
Lemma replace_leaves_none : forall fuel s,
  (String.length s < fuel)%nat ->
  contains "const " (replace_fuel fuel "const " "let " s) = false.
Proof.
  induction fuel as [|k IH]; intros s Hl; [lia|].
  cbn [replace_fuel]. destruct s as [|c r]; [reflexivity|].
  destruct (startswith (String c r) "const ") eqn:E.
  - assert (Hd : (String.length (drop (String.length "const ") (String c r)) < k)%nat).
    { rewrite (startswith_split _ _ E) in Hl. rewrite length_append in Hl.
      cbn [String.length] in Hl |- *. lia. }
    specialize (IH _ Hd).
    set (X := replace_fuel k "const " "let "
                (drop (String.length "const ") (String c r))) in *.
    change ("let " +:+ X) with (String "l" (String "e" (String "t" (String " " X)))).
    cbn [contains startswith]. cbn. exact IH.
  - cbn [String.length] in Hl. assert (Hr : (String.length r < k)%nat) by lia.
    cbn [contains]. rewrite (IH _ Hr), orb_false_r.
    destruct (startswith (String c (replace_fuel k "const " "let " r)) "const ")
      eqn:E2; [|reflexivity].
    change (Ascii.eqb "c" c && startswith (replace_fuel k "const " "let " r) "onst "
            = true) in E2.
    change (Ascii.eqb "c" c && startswith r "onst " = false) in E.
    apply andb_true_iff in E2 as [H1 H2].
    rewrite H1, (replace_keeps_start "onst " k r eq_refl H2) in E. discriminate.
Qed.

(** Where there is no ['const '], the replacement changes nothing. *)
Lemma replace_nothing : forall fuel s,
  contains "const " s = false -> replace_fuel fuel "const " "let " s = s.
Proof.
  induction fuel as [|k IH]; intros s H; [reflexivity|].
  cbn [replace_fuel]. destruct s as [|c r]; [reflexivity|].
  rewrite (contains_false_startswith _ _ H).
  cbn [contains] in H. apply orb_false_iff in H as [_ H].
  rewrite (IH _ H). reflexivity.
Qed.

Lemma replace_twice (s : string) :
  replace (replace s "const " "let ") "const " "let "
  = replace s "const " "let ".
Proof.
  unfold replace at 1. apply replace_nothing.
  unfold replace. apply replace_leaves_none. lia.
Qed.

Lemma kind_cons (c : ascii) (r : string) :
  Ascii.eqb c LF = false ->
  kind (String c r)
  = mkKind (k_full (kind r)) (k_open (kind r))
           (negb (Ascii.eqb c CR) && k_no_cr (kind r)) true.
Proof. intros H. unfold kind. cbn. rewrite H. reflexivity. Qed.

(** The replacement does not change the kind of a line. *)
Lemma replace_kind : forall fuel s,
  kind (replace_fuel fuel "const " "let " s) = kind s.
Proof.
  induction fuel as [|k IH]; intros s; [reflexivity|].
  cbn [replace_fuel]. destruct s as [|c r]; [reflexivity|].
  destruct (startswith (String c r) "const ") eqn:E.
  - rewrite (startswith_split _ _ E) at 2.
    specialize (IH (drop (String.length "const ") (String c r))).
    set (X := drop (String.length "const ") (String c r)) in *.
    set (Y := replace_fuel k "const " "let " X) in *.
    change ("let " +:+ Y) with (String "l" (String "e" (String "t" (String " " Y)))).
    change ("const " +:+ X)
      with (String "c" (String "o" (String "n" (String "s" (String "t" (String " " X)))))).
    rewrite !kind_cons by reflexivity. rewrite IH. reflexivity.
  - unfold kind in *. cbn [is_full_line no_char nonempty].
    specialize (IH r). injection IH as I1 I2 I3 _. rewrite I1, I2, I3.
    destruct (Ascii.eqb c LF) eqn:Ec; [|reflexivity].
    f_equal. clear - k. destruct k; [reflexivity|]. cbn [replace_fuel].
    destruct r as [|d r]; [reflexivity|].
    destruct (startswith (String d r) "const "); reflexivity.
Qed.

End SyntaxTwice.

Section RulesTwice.

Import Py JavaScriptFixer.

(** A line of well-shaped lines has at most its terminating newline and
    no CR. *)
Lemma line_of_ok (lines : list string) i ln :
  lines_ok lines = true -> getitem lines i = Some ln ->
  no_char LF (rstrip ln) = true /\ no_char CR ln = true.
Proof.
  intros Hok Hg.
  pose proof (ok_kinds_member _ (kind ln) Hok
                (in_map kind _ _ (getitem_In _ _ _ Hg))) as H.
  cbn [kind k_full k_open k_no_cr] in H.
  apply andb_true_iff in H as [H1 H2]. split; [|exact H2].
  apply orb_true_iff in H1 as [H1 | H1].
  - exact (rstrip_full_line _ H1).
  - exact (rstrip_no_char _ _ H1).
Qed.

(** The semicolon rule and the const rule of [_fix_syntax], on the lines:
    the result is well shaped and the rule run on it changes nothing. *)
Lemma syntax_edit_stable (error : ErrorInfo) (lines lines' : list string) :
  contains "missing ;" (lower (message error)) = true \/
  contains "missing }" (lower (message error)) = false ->
  lines_ok lines = true ->
  syntax_edit error lines = Some lines' ->
  lines_ok lines' = true /\ syntax_edit error lines' = Some lines'.
Proof.
  intros Hm Hok. unfold syntax_edit.
  destruct (getitem lines (line error - 1)) as [ln|] eqn:Hg; [|discriminate].
  destruct (contains "missing ;" (lower (message error))) eqn:Hsemi.
  - destruct (endswith_any (rstrip ln) [";"; "{"; "}"; ","]) eqn:Hend;
      cbn [negb].
    + intros [= <-]. split; [exact Hok|]. rewrite Hg, Hend. reflexivity.
    + intros Hs. destruct (line_of_ok _ _ _ Hok Hg) as [Hlf Hcr].
      change (";" +:+ nl) with (String ";" (String LF EmptyString)) in *.
      assert (Hv : rstrip ln +:+ String ";" (String LF EmptyString)
                   = (rstrip ln +:+ ";") +:+ nl).
      { rewrite append_assoc. reflexivity. }
      split.
      * apply (setitem_full _ _ _ _ _ Hok Hg) with (3 := Hs).
        -- rewrite Hv. apply full_line_terminated.
           rewrite no_char_app, Hlf. reflexivity.
        -- rewrite no_char_app, (rstrip_no_char _ _ Hcr). reflexivity.
      * rewrite (getitem_setitem _ _ _ _ Hs).
        rewrite rstrip_terminated by reflexivity.
        unfold endswith_any. cbn [existsb]. rewrite endswith_append.
        reflexivity.
  - destruct Hm as [Hm | Hm]; [discriminate|]. rewrite Hm.
    destruct (contains "const" ln && negb (contains "=" ln)) eqn:Hc.
    + intros Hs. split.
      * rewrite (setitem_kind _ _ _ ln _ Hg (replace_kind _ ln) Hs). exact Hok.
      * pose proof (getitem_setitem _ _ _ _ Hs) as Hg'. rewrite Hg'.
        rewrite replace_twice.
        destruct (contains "const" (replace ln "const " "let ")
                  && negb (contains "=" (replace ln "const " "let ")));
          [|reflexivity].
        exact (setitem_same _ _ _ Hg').
    + intros [= <-]. split; [exact Hok|]. rewrite Hg, Hc. reflexivity.
Qed.

(** An edit that is stable on well-shaped lines is stable on the file. *)
Lemma with_file_stable
    (edit : ErrorInfo -> list string -> option (list string))
    (error : ErrorInfo) (fs fs1 : FS) :
  (forall lines lines', lines_ok lines = true ->
     edit error lines = Some lines' ->
     lines_ok lines' = true /\ edit error lines' = Some lines') ->
  with_file edit error fs = (true, fs1) ->
  with_file edit error fs1 = (true, fs1).
Proof.
  intros Hst. unfold with_file. unfold read_lines at 1.
  destruct (fs !! file error) as [f|] eqn:Hf; [|intros [=]].
  destruct (f_readable f) eqn:Hr; [|intros [=]].
  destruct (edit error (readlines (f_data f))) as [lines'|] eqn:He;
    [|intros [=]].
  unfold write_lines at 1. rewrite Hf.
  destruct (f_writable f) eqn:Hw; [|intros [=]].
  rewrite Hr. intros [= <-].
  destruct (Hst _ _ (readlines_ok (f_data f)) He) as [Hok He'].
  unfold read_lines, write_lines. rewrite lookup_insert_eq.
  cbn [f_readable f_writable f_data].
  rewrite (readlines_writelines _ Hok), He', insert_insert_eq. reflexivity.
Qed.

End RulesTwice.

(** X9. [_fix_syntax] run a second time on the store its first run wrote
    leaves that store as it is, for every file and every record whose
    message does not select the closing-brace rule: the semicolon rule
    finds the line ending in [;] and the const rule finds no ['const ']
    left to replace. *)
Theorem X9_syntax_rules_run_twice (error : ErrorInfo) (fs fs1 : FS) :
  Py.contains "missing ;" (Py.lower (message error)) = true \/
  Py.contains "missing }" (Py.lower (message error)) = false ->
  JavaScriptFixer._fix_syntax error fs = (true, fs1) ->
  JavaScriptFixer._fix_syntax error fs1 = (true, fs1).
Proof.
  intros Hm. apply with_file_stable. intros lines lines'.
  apply syntax_edit_stable. exact Hm.
Qed.

(** X9 on a file of two statements, reported for a missing semicolon at
    line 2: the first run ends that line with one, the second run writes
    the same text again. *)
Lemma X9_syntax_rules_run_twice_witness :
  let error := Samples.missing_semicolon in
  let fs := Samples.one_file "app.js" ("let x = 1" +:+ Py.nl +:+ "let y = 2" +:+ Py.nl) in
  let fs1 := snd (JavaScriptFixer._fix_syntax error fs) in
  (Py.contains "missing ;" (Py.lower (message error)) = true \/
   Py.contains "missing }" (Py.lower (message error)) = false) /\
  JavaScriptFixer._fix_syntax error fs = (true, fs1) /\
  Samples.text_of fs1 "app.js"
  = Some ("let x = 1" +:+ Py.nl +:+ "let y = 2;" +:+ Py.nl) /\
  JavaScriptFixer._fix_syntax error fs1 = (true, fs1).
Proof.
  intros error fs fs1.
  assert (H1 : Py.contains "missing ;" (Py.lower (message error)) = true \/
               Py.contains "missing }" (Py.lower (message error)) = false)
    by (left; reflexivity).
  assert (H2 : JavaScriptFixer._fix_syntax error fs = (true, fs1))
    by (vm_compute; reflexivity).
  split; [exact H1|]. split; [exact H2|]. split; [vm_compute; reflexivity|].
  exact (X9_syntax_rules_run_twice error fs fs1 H1 H2).
Defined.

(** ** The records of the parser in the hands of the fixer *)

Section ParsedMessages.

Import Re ReSem JavaScriptParser JavaScriptFixer.

Lemma avoids_char_match ic ch r pos w c :
  Matches ic r pos w c -> avoids_char ch r = true -> Py.no_char ch w = true.
Proof.
  induction 1; cbn [avoids_char]; intros Ha; try reflexivity;
    try discriminate;
    try (apply andb_true_iff in Ha as [Ha1 Ha2]); auto.
  - cbn [Py.no_char]. rewrite andb_true_r.
    apply negb_true_iff in Ha. apply negb_true_iff.
    destruct (Ascii.eqb d ch) eqn:E; [|reflexivity].
    apply Ascii.eqb_eq in E. subst d. unfold chr_eq in H.
    destruct ic.
    + rewrite H in Ha. discriminate.
    + apply Ascii.eqb_eq in H. subst c. rewrite Ascii.eqb_refl in Ha.
      discriminate.
  - rewrite no_char_app, IHMatches1, IHMatches2 by assumption. reflexivity.
  - rewrite no_char_app, IHMatches1, IHMatches2 by assumption. reflexivity.
  - rewrite no_char_app, IHMatches1, IHMatches2 by assumption. reflexivity.
Qed.

Lemma lower_append (a b : string) :
  Py.lower (a +:+ b) = Py.lower a +:+ Py.lower b.
Proof.
  induction a as [|x a IH]; [reflexivity|].
  rewrite append_cons. unfold Py.lower in *. cbn [Py.smap].
  rewrite IH. reflexivity.
Qed.

(** A literal matched without regard to case: the text found is the
    literal up to case. *)
Lemma lit_match_lower (t : string) : forall pos w c,
  Matches true (lit t) pos w c -> Py.lower w = Py.lower t.
Proof.
  induction t as [|a t IH]; intros pos w c H.
  - inversion H. reflexivity.
  - destruct t as [|b t].
    + inversion H as [| ? d ? Hc | | | | | | | | | | | |]; subst.
      unfold chr_eq in Hc. apply Ascii.eqb_eq in Hc.
      unfold Py.lower. cbn [Py.smap]. rewrite Hc. reflexivity.
    + change (lit (String a (String b t)))
        with (Cat (Lit a) (lit (String b t))) in H.
      inversion H as [| | | | | ? ? ? w1 w2 ? ? H1 H2 | | | | | | | |]; subst.
      rewrite lower_append, (IH _ _ _ H2).
      inversion H1 as [| ? d ? Hc | | | | | | | | | | | |]; subst.
      unfold chr_eq in Hc. apply Ascii.eqb_eq in Hc.
      unfold Py.lower. cbn [Py.smap]. rewrite Hc. reflexivity.
Qed.

Lemma group_text_zero mt w c :
  m_groups mt = (0%nat, w) :: c -> group_text mt 0 = w.
Proof. intros H. unfold group_text, mgroup. rewrite H. reflexivity. Qed.

(** The message [_identify_error] gives is a text one of the patterns
    matches. *)
Lemma first_hit_sound patterns combined msg :
  first_hit patterns combined = Some msg ->
  exists r pos c, In r patterns /\ Matches true r pos msg c.
Proof.
  induction patterns as [|p rest IH]; cbn [first_hit]; [discriminate|].
  destruct (search true p combined) as [mt|] eqn:Hs.
  - intros [= <-].
    destruct (search_sound _ _ _ _ Hs) as (pre & w & post & c & _ & Hm & Hg).
    rewrite (group_text_zero _ _ _ Hg).
    exists p, (String.length pre), c. split; [left; reflexivity | exact Hm].
  - intros H. destruct (IH H) as (r & pos & c & Hin & Hm).
    exists r, pos, c. split; [right; exact Hin | exact Hm].
Qed.

Lemma first_hit_message patterns combined msg :
  first_hit patterns combined = Some msg ->
  Forall (fun r =>
            avoids_char "'" r = true \/
            exists r', r = Cat (lit "Cannot read property") r') patterns ->
  Py.no_char "'" msg = true \/
  Py.contains "cannot read property" (Py.lower msg) = true.
Proof.
  intros H Hall. destruct (first_hit_sound _ _ _ H) as (r & pos & c & Hin & Hm).
  rewrite List.Forall_forall in Hall. destruct (Hall r Hin) as [Ha | [r' ->]].
  - left. exact (avoids_char_match _ _ _ _ _ _ Hm Ha).
  - right.
    inversion Hm as [| | | | | ? ? ? w1 w2 ? ? H1 H2 | | | | | | | |]; subst.
    pose proof (lit_match_lower "Cannot read property" _ _ _ H1) as Hl.
    rewrite lower_append, Hl.
    apply contains_here.
    change (Py.lower "Cannot read property") with "cannot read property".
    apply startswith_app.
Qed.

(** What [_identify_error] can give as a message: a text without a
    quote, or one that has [cannot read property] in it. *)
Lemma identified_message combined :
  let msg := snd (identify_in error_patterns combined) in
  Py.no_char "'" msg = true \/
  Py.contains "cannot read property" (Py.lower msg) = true.
Proof.
  unfold error_patterns. cbn [identify_in].
  repeat match goal with
         | |- context [match first_hit ?l ?c with _ => _ end] =>
             let E := fresh "E" in
             destruct (first_hit l c) eqn:E;
             [ cbn [snd]; apply (first_hit_message _ _ _ E);
               repeat (apply List.Forall_cons;
                       [ first [ left; reflexivity
                               | right; eexists; reflexivity ] | ]);
               apply List.Forall_nil | ]
         end.
  left. reflexivity.
Qed.

(** Without a quote in the message, ['(\w+)' is not defined] is not
    found. *)
Lemma no_quote_no_var (msg : string) :
  Py.no_char "'" msg = true -> search_undefined_var msg = None.
Proof.
  intros Hq. unfold search_undefined_var.
  destruct (search false undefined_var_pattern msg) as [mt|] eqn:Hs;
    [|reflexivity].
  destruct (search_sound _ _ _ _ Hs) as (pre & w & post & c & -> & Hm & _).
  rewrite !no_char_app in Hq.
  rewrite (needs_char_found "'" _ _ _ _ Hm eq_refl) in Hq.
  rewrite andb_false_l, andb_false_r in Hq. discriminate.
Qed.

Lemma parsed_message output repo_path e :
  In e (parse_errors output repo_path) ->
  Py.no_char "'" (message e) = true \/
  Py.contains "cannot read property" (Py.lower (message e)) = true.
Proof.
  intros Hin. unfold parse_errors in Hin.
  destruct (scan_lines_sound _ _ _ Hin) as (ln & context & _ & Hs).
  pose proof (scan_patterns_classified _ _ _ _ _ Hs) as Hc.
  unfold _identify_error in Hc.
  pose proof (identified_message (join_lines context)) as Hm.
  cbn zeta in Hm. rewrite <- Hc in Hm. exact Hm.
Qed.

End ParsedMessages.

(** X12: on the records of a parse result, [_fix_type_error] never
    reaches its insertion of [const <name> = null;]: the message of a
    record is the text of one error pattern, and none of them can hold
    the quoted name that [re.search(r"'(\w+)' is not defined", ...)]
    asks for, except the [Cannot read property.*of undefined] one, which
    the first branch takes.  The handler then leaves the lines as they
    are or replaces the line the record points at; the number of lines
    stays. *)
Theorem X12_parsed_records_never_initialised
    (test_output : string) (repo_path : option string)
    (e : ErrorInfo) (lines lines' : list string) :
  In e (JavaScriptParser.parse_errors test_output repo_path) ->
  JavaScriptFixer.type_error_edit e lines = Some lines' ->
  (lines' = lines \/
   exists k, Py.norm_index lines (line e - 1) = Some k /\
             Edits.replaces_line k lines lines') /\
  List.length lines' = List.length lines.
Proof.
  intros Hin He.
  assert (Hs : lines' = lines \/
               exists k, Py.norm_index lines (line e - 1) = Some k /\
                         Edits.replaces_line k lines lines').
  { revert He. unfold JavaScriptFixer.type_error_edit.
    destruct (Py.getitem lines (line e - 1)) as [ln|]; [|discriminate].
    destruct (parsed_message _ _ _ Hin) as [Hq | Hc].
    - rewrite (no_quote_no_var _ Hq).
      destruct (Py.contains "cannot read property" (Py.lower (message e))).
      + destruct (Py.contains "." ln && negb (Py.contains "?." ln)).
        * intros H. right. destruct (setitem_replaces _ _ _ _ H) as (k & Hk & Hr).
          exists k. split; assumption.
        * intros [= <-]. left. reflexivity.
      + destruct (Py.contains "is not defined" (Py.lower (message e)));
          intros [= <-]; left; reflexivity.
    - rewrite Hc.
      destruct (Py.contains "." ln && negb (Py.contains "?." ln)).
      + intros H. right. destruct (setitem_replaces _ _ _ _ H) as (k & Hk & Hr).
        exists k. split; assumption.
      + intros [= <-]. left. reflexivity. }
  split; [exact Hs|].
  destruct Hs as [-> | (k & _ & Hr)]; [reflexivity|].
  exact (replaces_length _ _ _ Hr).
Qed.

(** X12 on a report that does name the variable: the record keeps the
    words [is not defined] only, and the handler leaves the line alone. *)
Lemma X12_parsed_records_never_initialised_witness :
  let test_output := "Error in app.js:1 'user' is not defined" in
  let e := mkErrorInfo "app.js" 1 TYPE_ERROR "is not defined" in
  let lines := ["console.log(user)" +:+ Py.nl] in
  In e (JavaScriptParser.parse_errors test_output None) /\
  JavaScriptFixer.type_error_edit e lines = Some lines /\
  (lines = lines \/
   exists k, Py.norm_index lines (line e - 1) = Some k /\
             Edits.replaces_line k lines lines) /\
  List.length lines = List.length lines.
Proof.
  intros test_output e lines.
  assert (H1 : In e (JavaScriptParser.parse_errors test_output None))
    by (vm_compute; left; reflexivity).
  assert (H2 : JavaScriptFixer.type_error_edit e lines = Some lines)
    by (vm_compute; reflexivity).
  split; [exact H1|]. split; [exact H2|].
  exact (X12_parsed_records_never_initialised test_output None e lines lines H1 H2).
Defined.

(** ** Which plugin a repository gets *)

Section PluginChoice.

Import Languages.

Lemma marker_plain (repo : Repo) (marker_file : string) :
  Py.contains "*" marker_file = false ->
  marker_present repo marker_file = exists_in repo marker_file.
Proof. intros H. unfold marker_present. rewrite H. reflexivity. Qed.

End PluginChoice.

(** X10: the JavaScript plugin is chosen exactly for the repositories
    that have none of the four Python markers and have [package.json] or
    [tsconfig.json]; every other repository, whatever else it holds, is
    handled by the Python plugin. *)
Theorem X10_javascript_plugin_chosen (repo : Languages.Repo) :
  Languages.get_language_plugin (Languages.detect_language repo)
  = Languages.JavaScriptPlugin
  <->
  existsb (Languages.exists_in repo)
          ["requirements.txt"; "setup.py"; "pyproject.toml"; "Pipfile"] = false /\
  (Languages.exists_in repo "package.json"
   || Languages.exists_in repo "tsconfig.json") = true.
Proof.
  unfold Languages.detect_language, Languages.markers.
  cbn [Languages.detect_in existsb].
  rewrite !(marker_plain repo) by reflexivity.
  destruct (Languages.exists_in repo "requirements.txt");
  [cbn [orb]; split; [intros H; vm_compute in H; discriminate
                     | intros [H _]; discriminate]|].
  destruct (Languages.exists_in repo "setup.py");
  [cbn [orb]; split; [intros H; vm_compute in H; discriminate
                     | intros [H _]; discriminate]|].
  destruct (Languages.exists_in repo "pyproject.toml");
  [cbn [orb]; split; [intros H; vm_compute in H; discriminate
                     | intros [H _]; discriminate]|].
  destruct (Languages.exists_in repo "Pipfile");
  [cbn [orb]; split; [intros H; vm_compute in H; discriminate
                     | intros [H _]; discriminate]|].
  cbn [orb].
  destruct (Languages.exists_in repo "package.json");
  [split; [intros _; split; reflexivity | intros _; vm_compute; reflexivity]|].
  destruct (Languages.exists_in repo "tsconfig.json");
  [split; [intros _; split; reflexivity | intros _; vm_compute; reflexivity]|].
  cbn [orb].
  split; [|intros [_ H]; discriminate].
  repeat match goal with
         | |- context [if ?b then _ else _] => destruct b
         end;
    intros H; vm_compute in H; discriminate.
Qed.

(** ** A run on a JavaScript repository *)

Section RunFacts.

Import Languages DockerRunner.




End RunFacts.



(** ** The progress log keeps one entry per message and time *)

Section ProgressFacts.

Import UseAgentProgress.

Lemma same_entry_key (data item : Progress) :
  same_entry data item = true <-> key item = key data.
Proof.
  unfold same_entry, key. rewrite andb_true_iff, !bool_decide_eq_true.
  split; [intros [-> ->]; reflexivity | intros [= -> ->]; split; reflexivity].
Qed.

Lemma nodup_snoc {A} (l : list A) (x : A) :
  List.NoDup l -> ~ In x l -> List.NoDup (l ++ [x]).
Proof.
  induction 1 as [|y l Hy Hl IH]; intros Hx; cbn [app].
  - constructor; [intros [] | constructor].
  - constructor.
    + rewrite in_app_iff. intros [H | [<- | []]]; [exact (Hy H)|].
      apply Hx. left. reflexivity.
    + apply IH. intros H. apply Hx. right. exact H.
Qed.

Lemma add_progress_nodup (data : Progress) (prev : list Progress) :
  List.NoDup (map key prev) -> List.NoDup (map key (add_progress data prev)).
Proof.
  intros Hn. unfold add_progress.
  destruct (existsb (same_entry data) prev) eqn:E; [exact Hn|].
  rewrite map_app. apply nodup_snoc; [exact Hn|].
  intros Hin. apply in_map_iff in Hin as (item & Hk & Hi).
  assert (Hex : existsb (same_entry data) prev = true).
  { apply existsb_exists. exists item. split; [exact Hi|].
    apply same_entry_key. exact Hk. }
  rewrite Hex in E. discriminate.
Qed.

Lemma add_progress_key (data : Progress) (prev : list Progress) :
  In (key data) (map key (add_progress data prev)).
Proof.
  unfold add_progress. destruct (existsb (same_entry data) prev) eqn:E.
  - apply existsb_exists in E as (item & Hi & Hs).
    apply same_entry_key in Hs. rewrite <- Hs. apply in_map. exact Hi.
  - rewrite map_app, in_app_iff. right. left. reflexivity.
Qed.

Lemma add_progress_keeps (data : Progress) (prev : list Progress) d :
  In d prev -> In d (add_progress data prev).
Proof.
  intros H. unfold add_progress.
  destruct (existsb (same_entry data) prev); [exact H|].
  apply in_app_iff. left. exact H.
Qed.

Lemma add_progress_from (data : Progress) (prev : list Progress) d :
  In d (add_progress data prev) -> In d prev \/ d = data.
Proof.
  unfold add_progress. destruct (existsb (same_entry data) prev);
    [left; assumption|].
  rewrite in_app_iff. intros [H | [<- | []]]; [left; exact H | right; reflexivity].
Qed.

Lemma handle_nodup (h : Hook) (ev : Event) :
  List.NoDup (map key (progress h)) ->
  List.NoDup (map key (progress (handle h ev))).
Proof.
  intros Hn. destruct ev as [|[data|]| |]; cbn [handle progress];
    try exact Hn.
  - apply add_progress_nodup. exact Hn.
  - constructor.
Qed.

Lemma run_nodup (events : list Event) : forall h,
  List.NoDup (map key (progress h)) ->
  List.NoDup (map key (progress (fold_left handle events h))).
Proof.
  induction events as [|ev rest IH]; intros h Hn; [exact Hn|].
  cbn [fold_left]. apply IH, handle_nodup, Hn.
Qed.

Lemma run_received (events : list Event) : forall h d,
  In d (progress (fold_left handle events h)) ->
  In d (progress h) \/ In (OnMessage (Some d)) events.
Proof.
  induction events as [|ev rest IH]; intros h d H; [left; exact H|].
  cbn [fold_left] in H. destruct (IH _ _ H) as [H1 | H1].
  - destruct ev as [|[data|]| |]; cbn [handle progress] in H1.
    + left. exact H1.
    + destruct (add_progress_from _ _ _ H1) as [H2 | ->].
      * left. exact H2.
      * right. left. reflexivity.
    + left. exact H1.
    + left. exact H1.
    + contradiction.
  - right. right. exact H1.
Qed.

Lemma run_keeps_keys (events : list Event) : forall h k,
  forallb (fun ev => negb (is_clear ev)) events = true ->
  In k (map key (progress h)) ->
  In k (map key (progress (fold_left handle events h))).
Proof.
  induction events as [|ev rest IH]; intros h k Hc Hk; [exact Hk|].
  cbn [forallb] in Hc. apply andb_true_iff in Hc as [Hc1 Hc2].
  cbn [fold_left]. apply IH; [exact Hc2|].
  destruct ev as [|[data|]| |]; cbn [handle progress]; try exact Hk.
  - apply in_map_iff in Hk as (d & <- & Hd). apply in_map.
    apply add_progress_keeps. exact Hd.
  - discriminate.
Qed.

End ProgressFacts.

(** X13: the progress log of [useAgentProgress], after any sequence of
    socket events and calls of [clearProgress].  No two entries have the
    same message and timestamp; every entry is a message that was
    received; and a message received after the last [clearProgress] is in
    the log under its message and timestamp. *)
Theorem X13_progress_log_no_duplicates (events : list UseAgentProgress.Event) :
  let h := UseAgentProgress.after events in
  List.NoDup (map UseAgentProgress.key (UseAgentProgress.progress h)) /\
  (forall d, In d (UseAgentProgress.progress h) ->
             In (UseAgentProgress.OnMessage (Some d)) events) /\
  (forall d before rest,
     events = before ++ UseAgentProgress.OnMessage (Some d) :: rest ->
     forallb (fun ev => negb (UseAgentProgress.is_clear ev)) rest = true ->
     In (UseAgentProgress.key d)
        (map UseAgentProgress.key (UseAgentProgress.progress h))).
Proof.
  cbn zeta. unfold UseAgentProgress.after. split; [|split].
  - apply run_nodup. constructor.
  - intros d H. destruct (run_received _ _ _ H) as [[] | H1]. exact H1.
  - intros d before rest -> Hc.
    rewrite fold_left_app. cbn [fold_left].
    apply run_keeps_keys; [exact Hc|].
    cbn [UseAgentProgress.handle UseAgentProgress.progress].
    apply add_progress_key.
Qed.

(** ** Updating a run of the store *)

Section StoreFacts.

Import UseAgentStore.

Lemma spread_twice (run updates : Obj) :
  spread (spread run updates) updates = spread run updates.
Proof.
  unfold spread. rewrite (assoc_L (∪)), (idemp_L (∪)). reflexivity.
Qed.

(** The function [updateRun] maps over the runs, applied twice. *)
Lemma update_one_twice (id : option value) (updates run : Obj) :
  let f := fun run : Obj => if has_id id run then spread run updates else run in
  f (f run) = f run.
Proof.
  cbv beta zeta. destruct (has_id id run) eqn:E.
  - destruct (has_id id (spread run updates)); [apply spread_twice | reflexivity].
  - rewrite E. reflexivity.
Qed.

End StoreFacts.

(** X14: [updateRun] of the store of runs.  It keeps the number of runs;
    a run with another id is left as it is; applying the same update a
    second time changes nothing, also when the update rewrites the id;
    and a current run that is one of the listed runs is still one of them
    afterwards, so the list and the selection do not drift apart. *)
Theorem X14_update_run
    (id : option UseAgentStore.value) (updates : UseAgentStore.Obj)
    (st : UseAgentStore.Store) :
  let st' := UseAgentStore.updateRun id updates st in
  List.length (UseAgentStore.runs st') = List.length (UseAgentStore.runs st) /\
  (forall k run, nth_error (UseAgentStore.runs st) k = Some run ->
                 run !! "id" <> id ->
                 nth_error (UseAgentStore.runs st') k = Some run) /\
  UseAgentStore.updateRun id updates st' = st' /\
  (forall cur, UseAgentStore.currentRun st = Some cur ->
               In cur (UseAgentStore.runs st) ->
               exists cur', UseAgentStore.currentRun st' = Some cur' /\
                            In cur' (UseAgentStore.runs st')).
Proof.
  cbn zeta. unfold UseAgentStore.updateRun.
  cbn [UseAgentStore.runs UseAgentStore.currentRun UseAgentStore.isRunning].
  split; [apply List.length_map|]. split; [|split].
  - intros k run Hk Hid. rewrite nth_error_map, Hk. cbn [option_map].
    unfold UseAgentStore.has_id. rewrite bool_decide_eq_false_2 by exact Hid.
    reflexivity.
  - f_equal.
    + rewrite List.map_map. apply List.map_ext. intros run.
      exact (update_one_twice id updates run).
    + destruct (UseAgentStore.currentRun st) as [cur|].
      * destruct (UseAgentStore.has_id id cur) eqn:E.
        -- destruct (UseAgentStore.has_id id (UseAgentStore.spread cur updates));
             [rewrite spread_twice|]; reflexivity.
        -- rewrite E. reflexivity.
      * destruct (bool_decide (None = id)) eqn:E; [|reflexivity].
        destruct (UseAgentStore.has_id id (UseAgentStore.spread ∅ updates));
          [rewrite spread_twice|]; reflexivity.
  - intros cur -> Hin.
    exists (if UseAgentStore.has_id id cur
            then UseAgentStore.spread cur updates else cur).
    split; [destruct (UseAgentStore.has_id id cur); reflexivity|].
    apply (in_map (fun run => if UseAgentStore.has_id id run
                              then UseAgentStore.spread run updates else run)).
    exact Hin.
Qed.

(** ** The progress panel *)

(** X15: for every status, the icon and the background that
    [AgentProgress] gives an entry are of one colour: [getStatusIcon] and
    [getStatusColor] sort the statuses in the same way, the statuses
    neither of them lists included. *)
Theorem X15_icon_and_background_agree (status : string) :
  exists colour,
    In colour ["green"; "red"; "yellow"; "blue"; "gray"] /\
    Py.contains ("text-" +:+ colour +:+ "-")
                (snd (AgentProgress.getStatusIcon status)) = true /\
    Py.startswith (AgentProgress.getStatusColor status)
                  ("bg-" +:+ colour +:+ "-50 border-" +:+ colour +:+ "-200")
    = true.
Proof.
  unfold AgentProgress.getStatusIcon, AgentProgress.getStatusColor.
  destruct (AgentProgress.one_of status ["success"; "completed"]);
    [exists "green"; cbn [In]; repeat split; auto 6; reflexivity|].
  destruct (AgentProgress.one_of status ["error"]);
    [exists "red"; cbn [In]; repeat split; auto 6; reflexivity|].
  destruct (AgentProgress.one_of status ["warning"]);
    [exists "yellow"; cbn [In]; repeat split; auto 6; reflexivity|].
  destruct (AgentProgress.one_of status AgentProgress.running_states);
    [exists "blue"; cbn [In]; repeat split; auto 6; reflexivity|].
  exists "gray"; cbn [In]; repeat split; auto 6; reflexivity.
Qed.

(** ** The characters of a branch name *)

Section BranchCharacters.

Import ReSem.

(** What is left of a character in a branch name: no white space, no
    lower-case letter. *)
Lemma branch_char (c : ascii) :
  let d := Py.upper_char c in
  let e := if Js.is_white d then "_"%char else d in
  negb (Js.is_white e) && negb (Py.is_lower e) = true.
Proof. destruct c as [[] [] [] [] [] [] [] []]; reflexivity. Qed.

Lemma branch_part (s : string) :
  all_chars (fun c => negb (Js.is_white c) && negb (Py.is_lower c))
            (Js.replace_white (Js.toUpperCase s)) = true.
Proof.
  unfold Js.replace_white, Js.toUpperCase, Py.upper.
  induction s as [|c s IH]; [reflexivity|].
  cbn [Py.smap all_chars]. rewrite IH, andb_true_r. exact (branch_char c).
Qed.

End BranchCharacters.

(** X16: whatever is typed into the team and leader fields, the branch
    preview has no white-space character and no lower-case letter, and it
    ends in [_AI_FIX]. *)
Theorem X16_branch_preview_characters (team leader : string) :
  ReSem.all_chars (fun c => negb (Js.is_white c) && negb (Py.is_lower c))
                  (LoginPage.branchPreview team leader) = true /\
  Py.endswith (LoginPage.branchPreview team leader) "_AI_FIX" = true.
Proof.
  unfold LoginPage.branchPreview.
  destruct (Js.truthy team && Js.truthy leader); [|split; reflexivity].
  unfold LoginPage.branchName. split.
  - rewrite !all_chars_app, !branch_part. reflexivity.
  - rewrite <- !append_assoc. apply endswith_append.
Qed.

(** ** Searching the history of runs *)

Section HistoryFacts.

Import HistoryPage.

Lemma lower_upper_char (c : ascii) :
  Py.lower_char (Py.upper_char c) = Py.lower_char c.
Proof. destruct c as [[] [] [] [] [] [] [] []]; reflexivity. Qed.

Lemma lower_upper (s : string) : Py.lower (Py.upper s) = Py.lower s.
Proof.
  unfold Py.lower, Py.upper. induction s as [|c s IH]; [reflexivity|].
  cbn [Py.smap]. rewrite IH, lower_upper_char. reflexivity.
Qed.

Lemma startswith_prefix (a b : string) : forall s,
  Py.startswith s (a +:+ b) = true -> Py.startswith s a = true.
Proof.
  induction a as [|x a IH]; intros s H; [reflexivity|].
  rewrite append_cons in H. destruct s as [|y s]; [discriminate|].
  change (Ascii.eqb x y && Py.startswith s (a +:+ b) = true) in H.
  change (Ascii.eqb x y && Py.startswith s a = true).
  apply andb_true_iff in H as [H1 H2]. rewrite H1. exact (IH _ H2).
Qed.

Lemma contains_prefix (a b : string) : forall s,
  Py.contains (a +:+ b) s = true -> Py.contains a s = true.
Proof.
  induction s as [|c s IH]; cbn [Py.contains]; intros H;
    apply orb_true_iff in H as [H | H]; try discriminate.
  - rewrite (startswith_prefix _ _ _ H). reflexivity.
  - rewrite (startswith_prefix _ _ _ H). reflexivity.
  - rewrite (IH H). apply orb_true_r.
Qed.

Lemma field_matches_prefix field (t1 t2 : string) :
  field_matches field (t1 +:+ t2) = true -> field_matches field t1 = true.
Proof.
  destruct field as [s|]; [|discriminate]. unfold field_matches, includes_lower.
  rewrite lower_append. apply contains_prefix.
Qed.

Lemma field_matches_empty field :
  field_matches field EmptyString = match field with Some _ => true | None => false end.
Proof.
  destruct field as [s|]; [|reflexivity]. unfold field_matches, includes_lower.
  apply contains_here. reflexivity.
Qed.

End HistoryFacts.

(** X17: the search of the history page.  The case of the search term
    does not matter; typing more characters never brings a run back in;
    choosing a status keeps only runs the choice [all] shows; and with an
    empty term and the choice [all] the runs shown are those that have a
    [repo_name] or a [repo], a run with neither is left out. *)
Theorem X17_history_search
    (runs : list HistoryPage.Run) (searchTerm more filter : string) :
  HistoryPage.filteredRuns runs (Py.upper searchTerm) filter
  = HistoryPage.filteredRuns runs searchTerm filter /\
  (forall run, In run (HistoryPage.filteredRuns runs (searchTerm +:+ more) filter) ->
               In run (HistoryPage.filteredRuns runs searchTerm filter)) /\
  (forall run, In run (HistoryPage.filteredRuns runs searchTerm filter) ->
               In run (HistoryPage.filteredRuns runs searchTerm "all")) /\
  HistoryPage.filteredRuns runs EmptyString "all"
  = List.filter (fun run =>
                   match HistoryPage.repo_name run, HistoryPage.repo run with
                   | None, None => false
                   | _, _ => true
                   end) runs.
Proof.
  unfold HistoryPage.filteredRuns. split; [|split; [|split]].
  - apply List.filter_ext. intros run. unfold HistoryPage.shown.
    destruct (HistoryPage.repo_name run), (HistoryPage.repo run);
      unfold HistoryPage.field_matches, HistoryPage.includes_lower;
      rewrite ?lower_upper; reflexivity.
  - intros run H. apply List.filter_In in H as [Hin Hs].
    apply List.filter_In. split; [exact Hin|].
    unfold HistoryPage.shown in *. cbv zeta in *.
    apply andb_true_iff in Hs as [H1 H2]. rewrite H2, andb_true_r.
    apply orb_true_iff in H1 as [H1 | H1];
      rewrite (field_matches_prefix _ _ _ H1); [reflexivity | apply orb_true_r].
  - intros run H. apply List.filter_In in H as [Hin Hs].
    apply List.filter_In. split; [exact Hin|].
    unfold HistoryPage.shown in *. cbv zeta in *.
    apply andb_true_iff in Hs as [H1 _]. rewrite H1. reflexivity.
  - apply List.filter_ext. intros run. unfold HistoryPage.shown. cbv zeta.
    rewrite !field_matches_empty.
    destruct (HistoryPage.repo_name run), (HistoryPage.repo run); reflexivity.
Qed.

(** ** Type errors reported by the parser, fixed twice *)

Section ParsedTwice.

Import Py JavaScriptFixer.

Lemma type_error_edit_stable (error : ErrorInfo) (lines lines' : list string) :
  no_char "'" (message error) = true \/
  contains "cannot read property" (lower (message error)) = true ->
  lines_ok lines = true ->
  type_error_edit error lines = Some lines' ->
  lines_ok lines' = true /\ type_error_edit error lines' = Some lines'.
Proof.
  intros Hm Hok He.
  destruct (contains "cannot read property" (lower (message error))) eqn:Hc.
  - split; [|exact (optional_chaining_idempotent error _ _ Hc He)].
    revert He. unfold type_error_edit. rewrite Hc.
    destruct (getitem lines (line error - 1)) as [ln|] eqn:Hg; [|discriminate].
    destruct (contains "." ln && negb (contains "?." ln)).
    + intros Hs.
      rewrite (setitem_kind _ _ _ ln _ Hg (replace_first_dot_kind ln) Hs).
      exact Hok.
    + intros [= <-]. exact Hok.
  - destruct Hm as [Hq | Hq]; [|discriminate].
    assert (Hsame : lines' = lines).
    { revert He. unfold type_error_edit. rewrite Hc, (no_quote_no_var _ Hq).
      destruct (getitem lines (line error - 1)); [|discriminate].
      destruct (contains "is not defined" (lower (message error)));
        intros [= <-]; reflexivity. }
    subst lines'. split; [exact Hok | exact He].
Qed.

End ParsedTwice.

(** X18: a TYPE_ERROR record of a parse result fixed a second time.  The
    second [fix_error] answers [True] again and leaves the store as the
    first one wrote it: optional chaining is not added twice, and the
    rule that would add a line at every run is never reached on such a
    record. *)
Theorem X18_parsed_type_error_fixed_twice
    (test_output : string) (repo_path : option string)
    (e : ErrorInfo) (fs fs1 : FS) :
  In e (JavaScriptParser.parse_errors test_output repo_path) ->
  type e = TYPE_ERROR ->
  JavaScriptFixer.fix_error e fs = (true, fs1) ->
  JavaScriptFixer.fix_error e fs1 = (true, fs1).
Proof.
  intros Hin Ht. unfold JavaScriptFixer.fix_error. rewrite Ht.
  apply with_file_stable. intros lines lines'.
  apply type_error_edit_stable. exact (parsed_message _ _ _ Hin).
Qed.

(** X18 on a report of a property read from undefined, at the line that
    reads it: the first run writes [user?.name], the second writes the
    same text again. *)
Lemma X18_parsed_type_error_fixed_twice_witness :
  let test_output := "Error in app.js:1 Cannot read property 'name' of undefined" in
  let e := mkErrorInfo "app.js" 1 TYPE_ERROR
             "Cannot read property 'name' of undefined" in
  let fs := Samples.one_file "app.js" ("return user.name;" +:+ Py.nl) in
  let fs1 := snd (JavaScriptFixer.fix_error e fs) in
  In e (JavaScriptParser.parse_errors test_output None) /\
  type e = TYPE_ERROR /\
  JavaScriptFixer.fix_error e fs = (true, fs1) /\
  Samples.text_of fs1 "app.js" = Some ("return user?.name;" +:+ Py.nl) /\
  JavaScriptFixer.fix_error e fs1 = (true, fs1).
Proof.
  intros test_output e fs fs1.
  assert (H1 : In e (JavaScriptParser.parse_errors test_output None))
    by (vm_compute; left; reflexivity).
  assert (H2 : type e = TYPE_ERROR) by reflexivity.
  assert (H3 : JavaScriptFixer.fix_error e fs = (true, fs1))
    by (vm_compute; reflexivity).
  split; [exact H1|]. split; [exact H2|]. split; [exact H3|].
  split; [vm_compute; reflexivity|].
  exact (X18_parsed_type_error_fixed_twice test_output None e fs fs1 H1 H2 H3).
Defined.
